(** * clusterpeers: the cluster-communication layer of a Paxos node

    A shallow embedding of [clusterpeers.go].  The methods of [Cluster] are
    written in a small monad that threads the cluster's mutable fields,
    records the externally visible actions of a call (lock operations,
    accesses to the shared fields, remote calls, channel sends, waits) and
    can panic.  Everything the Go runtime or the network decides -- the
    order in which [range] walks a map, the replies that come back and when
    -- is an explicit argument of the operation that depends on it. *)

From stdpp Require Import gmap strings list fin_maps.
From Stdlib Require Import ZArith Lia Ascii.

Local Open Scope Z_scope.

(** ** Machine integers

    [uint64] values are integers in [0, 2^64); arithmetic wraps.  [len]
    returns a Go [int], which is at most [max_int]. *)

Definition uint64_modulus : Z := 2 ^ 64.

Definition wrap64 (x : Z) : Z := x mod uint64_modulus.

Definition max_int : Z := 2 ^ 63 - 1.

Definition len {V : Type} (m : gmap Z V) : Z := Z.of_nat (size m).

(** ** Data model *)

(** A [*rpc.Client] is known only by its identity; [None] is the nil
    pointer. *)
Definition Client : Type := nat.

Record Peer : Type := mkPeer {
  roleId : Z;
  address : string;
  comm : option Client;
  requirePromise : bool
}.

(** What indexing [nodes] with an absent key yields. *)
Definition zero_Peer : Peer := mkPeer 0 "" None false.

Definition with_comm (connection : option Client) (p : Peer) : Peer :=
  mkPeer (roleId p) (address p) connection (requirePromise p).

Definition with_requirePromise (required : bool) (p : Peer) : Peer :=
  mkPeer (roleId p) (address p) (comm p) required.

(** The fields of [Cluster] that hold data.  [registerBadConnection] is a
    channel and [exclude] a mutex: operations on them are events; [disk] is
    used by the constructor only. *)
Record Cluster : Type := mkCluster {
  cluster_roleId : Z;
  nodes : gmap Z Peer;
  skipPromiseCount : Z
}.

Definition with_nodes (n : gmap Z Peer) (c : Cluster) : Cluster :=
  mkCluster (cluster_roleId c) n (skipPromiseCount c).

Definition with_skipPromiseCount (s : Z) (c : Cluster) : Cluster :=
  mkCluster (cluster_roleId c) (nodes c) s.

(** ** Events *)

Inductive Field : Type := FNodes | FSkipPromiseCount.

Inductive AccessMode : Type := Read | Write.

Inductive Event : Type :=
| EvLock                                   (* this.exclude.Lock() *)
| EvUnlock                                 (* this.exclude.Unlock() *)
| EvAccess (f : Field) (mode : AccessMode) (* a use of this.nodes / this.skipPromiseCount *)
| EvGo (key : Z) (via : Client) (serviceMethod : string)
                                           (* peer.comm.Go(...): returns at once *)
| EvDial (addr : string)                   (* rpc.Dial: blocks on the network *)
| EvNetListen (addr : string)              (* net.Listen *)
| EvSleep (ms : Z)                         (* time.Sleep *)
| EvSelect (timeout_ms : Z)                (* select { <-endpoint; <-time.After } *)
| EvSendBad (target : Z)                   (* this.registerBadConnection <- roleId *)
| EvSendEstablished (target : Z)           (* connectionEstablished <- roleId *)
| EvSpawn (task : string) (arg : Z).       (* go f(arg) *)

Global Instance Field_eq_dec : EqDecision Field.
Proof. solve_decision. Defined.

Global Instance AccessMode_eq_dec : EqDecision AccessMode.
Proof. solve_decision. Defined.

Global Instance Event_eq_dec : EqDecision Event.
Proof. solve_decision. Defined.

(** ** The monad of cluster operations *)

Inductive Outcome (A : Type) : Type :=
| Returned (a : A)
| Panicked (reason : string).

Arguments Returned {A} a.
Arguments Panicked {A} reason.

Definition M (A : Type) : Type := Cluster → Outcome A * Cluster * list Event.

Global Instance M_ret : MRet M := λ A a c, (Returned a, c, []).

Global Instance M_bind : MBind M := λ A B f m c,
  match m c with
  | (Returned a, c1, t1) =>
      match f a c1 with
      | (o, c2, t2) => (o, c2, t1 ++ t2)
      end
  | (Panicked r, c1, t1) => (Panicked r, c1, t1)
  end.

Definition emit (e : Event) : M unit := λ c, (Returned tt, c, [e]).

Definition panic {A : Type} (reason : string) : M A := λ c, (Panicked reason, c, []).

(** [defer d] before [body]: [d] runs when [body] is left, also by a panic. *)
Definition defer {A : Type} (d : M unit) (body : M A) : M A := λ c,
  match body c with
  | (o, c1, t1) =>
      match d c1 with
      | (_, c2, t2) => (o, c2, t1 ++ t2)
      end
  end.

Definition outcome {A : Type} (r : Outcome A * Cluster * list Event) : Outcome A := r.1.1.
Definition final {A : Type} (r : Outcome A * Cluster * list Event) : Cluster := r.1.2.
Definition events {A : Type} (r : Outcome A * Cluster * list Event) : list Event := r.2.

(** *** Primitive statements *)

Definition lock : M unit := emit EvLock.
Definition unlock : M unit := emit EvUnlock.

(** [this.nodes[k]] as an expression: the entry, or the zero [Peer]. *)
Definition index_nodes (k : Z) : M Peer := λ c,
  (Returned (default zero_Peer (nodes c !! k)), c, [EvAccess FNodes Read]).

(** [this.nodes[k] = p] *)
Definition assign_nodes (k : Z) (p : Peer) : M unit := λ c,
  (Returned tt, with_nodes (<[k := p]> (nodes c)) c, [EvAccess FNodes Write]).

(** [len(this.nodes)] *)
Definition len_nodes : M Z := λ c,
  (Returned (len (nodes c)), c, [EvAccess FNodes Read]).

(** [range this.nodes]: the entries, in the order the runtime picked. *)
Definition range_nodes (order : list (Z * Peer)) : M (list (Z * Peer)) := λ c,
  (Returned order, c, [EvAccess FNodes Read]).

Definition read_skipPromiseCount : M Z := λ c,
  (Returned (skipPromiseCount c), c, [EvAccess FSkipPromiseCount Read]).

Definition write_skipPromiseCount (s : Z) : M unit := λ c,
  (Returned tt, with_skipPromiseCount s c, [EvAccess FSkipPromiseCount Write]).

(** [this.skipPromiseCount--] and [this.skipPromiseCount++] *)
Definition decr_skipPromiseCount : M unit :=
  s ← read_skipPromiseCount; write_skipPromiseCount (wrap64 (s - 1)).

Definition incr_skipPromiseCount : M unit :=
  s ← read_skipPromiseCount; write_skipPromiseCount (wrap64 (s + 1)).

(** [for _, x := range l { s = body(s, x) }] *)
Fixpoint for_range {A S : Type} (l : list A) (body : S → A → M S) (s : S) : M S :=
  match l with
  | [] => mret s
  | x :: rest => s' ← body s x; for_range rest body s'
  end.

(** A list is a possible [range] order of a map when it holds each entry
    once. *)
Definition ranges {V : Type} (m : gmap Z V) (order : list (Z * V)) : Prop :=
  order ≡ₚ map_to_list m.

(** ** Accessors and [SetPromiseRequirement] *)

Definition GetPeerCount : M Z :=
  lock;;
  defer unlock len_nodes.

Definition GetSkipPromiseCount : M Z :=
  lock;;
  defer unlock read_skipPromiseCount.

Definition SetPromiseRequirement (role : Z) (required : bool) : M unit :=
  lock;;
  defer unlock (
    peer ← index_nodes role;
    (if negb (Bool.eqb (requirePromise peer) required)
     then if required then decr_skipPromiseCount else incr_skipPromiseCount
     else mret tt);;
    assign_nodes role (with_requirePromise required peer)).

(** The number of peers from which no promise is required. *)
Definition skipping (n : gmap Z Peer) : gmap Z Peer :=
  filter (λ kp, requirePromise kp.2 = false) n.

Definition count_skipping (n : gmap Z Peer) : Z := len (skipping n).

Definition count_consistent (c : Cluster) : Prop :=
  skipPromiseCount c = count_skipping (nodes c).

(** ** Replies

    A finished [*rpc.Call] as it is read from the [endpoint] channel, with
    the time (in milliseconds, on the clock of the goroutine that reads)
    at which it became available. *)

Record Call (R : Type) : Type := mkCall {
  Reply : R;
  Error : option string
}.

Arguments mkCall {R} Reply Error.
Arguments Reply {R} c.
Arguments Error {R} c.

Record Arrival (R : Type) : Type := mkArrival {
  at_ms : Z;
  call : Call R
}.

Arguments mkArrival {R} at_ms call.
Arguments at_ms {R} a.
Arguments call {R} a.

Definition succeeded {R : Type} (c : Call R) : bool :=
  match Error c with None => true | Some _ => false end.

(** [client.Go]: queues the request and returns; through a nil client it
    dereferences nil. *)
Definition rpc_Go (key : Z) (client : option Client) (serviceMethod : string) : M unit :=
  match client with
  | Some cl => emit (EvGo key cl serviceMethod)
  | None => panic "invalid memory address or nil pointer dereference"
  end.

Definition is_nil {A : Type} (p : option A) : bool :=
  match p with None => true | Some _ => false end.

(** ** [BroadcastHeartbeat] *)

(** The variables of the reply loop.  [now], [timed_out] and [heard] are
    ghost: the reader's clock, whether the timer branch of the [select]
    ran, and the replies read from [endpoint] so far. *)
Record Pulse : Type := mkPulse {
  received : gmap Z bool;
  failures : bool;
  replyCount : Z;
  now : Z;
  timed_out : bool;
  heard : list (Call Z)
}.

Definition heartbeat_window : Z := 500.

Definition was_received (w : Pulse) (k : Z) : bool := default false (received w !! k).

Definition take_heartbeat (w : Pulse) (a : Arrival Z) : Pulse :=
  mkPulse
    (if succeeded (call a) then <[Reply (call a) := true]> (received w) else received w)
    (if succeeded (call a) then failures w else true)
    (replyCount w + 1)
    (Z.max (now w) (at_ms a))
    (timed_out w)
    (heard w ++ [call a]).

Definition expire_heartbeat (peerCount : Z) (w : Pulse) : Pulse :=
  mkPulse (received w) true peerCount (now w + heartbeat_window) true (heard w).

(** One [select] per iteration: the next reply is taken when it is there
    before the timer of this iteration (started at [now]) fires. *)
Fixpoint await_heartbeats (peerCount : Z) (w : Pulse) (endpoint : list (Arrival Z))
  : Pulse * list Event :=
  if replyCount w <? peerCount then
    match endpoint with
    | a :: rest =>
        if at_ms a <? now w + heartbeat_window then
          match await_heartbeats peerCount (take_heartbeat w a) rest with
          | (w', t) => (w', EvSelect heartbeat_window :: t)
          end
        else (expire_heartbeat peerCount w, [EvSelect heartbeat_window])
    | [] => (expire_heartbeat peerCount w, [EvSelect heartbeat_window])
    end
  else (w, []).

Definition initial_pulse : Pulse := mkPulse ∅ false 0 0 false [].

Definition collect_heartbeats (peerCount : Z) (endpoint : list (Arrival Z)) : M Pulse := λ c,
  match await_heartbeats peerCount initial_pulse endpoint with
  | (w, t) => (Returned w, c, t)
  end.

Definition pulse (s : unit) (entry : Z * Peer) : M unit :=
  if negb (is_nil (comm entry.2))
  then rpc_Go entry.1 (comm entry.2) "ProposerRole.Heartbeat"
  else mret tt.

Definition demote (w : Pulse) (s : unit) (entry : Z * Peer) : M unit :=
  if negb (was_received w entry.1) then
    peer ← index_nodes entry.1;
    (if negb (requirePromise peer) then decr_skipPromiseCount else mret tt);;
    assign_nodes entry.1 (with_requirePromise true peer);;
    emit (EvSendBad entry.1)
  else mret tt.

(** [order] and [order'] are the orders of the two [range] loops,
    [endpoint] what the peers answer. *)
Definition BroadcastHeartbeat (order order' : list (Z * Peer)) (endpoint : list (Arrival Z))
    (role : Z) : M unit :=
  lock;;
  defer unlock (
    peerCount ← len_nodes;
    entries ← range_nodes order;
    for_range entries pulse tt;;
    w ← collect_heartbeats peerCount endpoint;
    if failures w then
      entries' ← range_nodes order';
      for_range entries' (demote w) tt
    else mret tt).

(** ** The broadcasts *)

Definition prepare (peerCount : Z) (entry : Z * Peer) : M Z :=
  if requirePromise entry.2 && negb (is_nil (comm entry.2)) then
    rpc_Go entry.1 (comm entry.2) "AcceptorRole.Prepare";;
    mret (wrap64 (peerCount + 1))
  else mret peerCount.

Definition BroadcastPrepareRequest {PrepareReq : Type} (order : list (Z * Peer))
    (request : PrepareReq) : M Z :=
  lock;;
  defer unlock (
    nodeCount ← len_nodes;
    skip ← read_skipPromiseCount;
    peerCount ←
      (if skip <? wrap64 (nodeCount / 2 + 1) then
         entries ← range_nodes order;
         for_range entries prepare 0
       else mret 0);
    emit (EvSpawn "wrapReply" peerCount);;
    mret peerCount).

Definition filtered (filter : gmap Z bool) (k : Z) : bool := default false (filter !! k).

Definition propose (filter : gmap Z bool) (peerCount : Z) (entry : Z * Peer) : M Z :=
  if negb (filtered filter entry.1) && negb (is_nil (comm entry.2)) then
    rpc_Go entry.1 (comm entry.2) "AcceptorRole.Accept";;
    mret (wrap64 (peerCount + 1))
  else mret peerCount.

Definition BroadcastProposalRequest {ProposalReq : Type} (order : list (Z * Peer))
    (request : ProposalReq) (filter : gmap Z bool) : M Z :=
  lock;;
  defer unlock (
    entries ← range_nodes order;
    peerCount ← for_range entries (propose filter) 0;
    emit (EvSpawn "wrapReply" peerCount);;
    mret peerCount).

Definition NotifyOfSuccess {SuccessNotify : Type} (role : Z) (info : SuccessNotify) : M unit :=
  peer ← index_nodes role;
  rpc_Go role (comm peer) "AcceptorRole.Success";;
  emit (EvSpawn "wrapReply" 1).

(** ** [wrapReply] *)

Record Response (R : Type) : Type := mkResponse { Data : R }.

Arguments mkResponse {R} Data.
Arguments Data {R} r.

(** What a run of [wrapReply] did: the responses sent on [forward], in
    order; the replies read from [endpoint]; the time at which it
    returned. *)
Record Collected (R : Type) : Type := mkCollected {
  forwarded : list (Response R);
  taken : list (Arrival R);
  finished : Z
}.

Arguments mkCollected {R} forwarded taken finished.
Arguments forwarded {R} c.
Arguments taken {R} c.
Arguments finished {R} c.

Definition reply_window : Z := 2000.

Definition forward_reply {R : Type} (a : Arrival R) (acc : Collected R) : Collected R :=
  mkCollected
    (if succeeded (call a) then mkResponse (Reply (call a)) :: forwarded acc else forwarded acc)
    (a :: taken acc)
    (finished acc).

(** The loop of [wrapReply], from the iteration that starts at [clock]
    with [count] replies read.  The reader of [forward] takes each
    response at once. *)
Fixpoint wrapReply_from {R : Type} (peerCount count clock : Z) (endpoint : list (Arrival R))
  : Collected R :=
  if count <? peerCount then
    match endpoint with
    | a :: rest =>
        if at_ms a <? clock + reply_window then
          forward_reply a
            (wrapReply_from peerCount (wrap64 (count + 1)) (Z.max clock (at_ms a)) rest)
        else mkCollected [] [] (clock + reply_window)
    | [] => mkCollected [] [] (clock + reply_window)
    end
  else mkCollected [] [] clock.

Definition wrapReply {R : Type} (peerCount : Z) (endpoint : list (Arrival R)) : Collected R :=
  wrapReply_from peerCount 0 0 endpoint.

(** ** Connections *)

Inductive error : Type :=
| DiskError (detail : string)        (* from disk.RetrieveAddresses *)
| HostnameError (detail : string)    (* from os.Hostname *)
| DNSError (detail : string)         (* from net.LookupIP *)
| AddrError (why addr : string)      (* from net.SplitHostPort *)
| ListenError (detail : string)      (* from net.Listen *)
| Errorf (text : string).            (* fmt.Errorf *)

Global Instance error_eq_dec : EqDecision error.
Proof. solve_decision. Defined.

Inductive result (A : Type) : Type :=
| Ok (a : A)
| Err (e : error).

Arguments Ok {A} a.
Arguments Err {A} e.

Definition read_roleId : M Z := λ c, (Returned (cluster_roleId c), c, []).

(** [listening] is what [net.Listen] answers. *)
Definition Listen (listening : result unit) : M (option error) :=
  lock;;
  defer unlock (
    self ← read_roleId;
    peer ← index_nodes self;
    emit (EvNetListen (address peer));;
    match listening with
    | Err e => mret (Some e)
    | Ok _ =>
        _ ← index_nodes self;
        emit (EvSpawn "accept" 0);;
        mret None
    end).

(** [dial] is what [rpc.Dial] answers for an address. *)
Definition connect (dial : string → option Client) (s : unit) (entry : Z * Peer) : M unit :=
  emit (EvDial (address entry.2));;
  match dial (address entry.2) with
  | None => emit (EvSendBad entry.1)
  | Some connection => assign_nodes entry.1 (with_comm (Some connection) entry.2)
  end.

Definition Connect (order : list (Z * Peer)) (dial : string → option Client) : M unit :=
  lock;;
  defer unlock (
    entries ← range_nodes order;
    for_range entries (connect dial) tt).

Definition retry (addr : string) (s : unit) (attempt : unit) : M unit :=
  emit (EvDial addr);;
  emit (EvSleep 1000).

(** A run of [establishConnection] in which [rpc.Dial] fails [failed]
    times and then yields [connection]. *)
Definition establishConnection (role : Z) (failed : nat) (connection : Client) : M unit :=
  lock;;
  peer ← index_nodes role;
  unlock;;
  for_range (replicate failed tt) (retry (address peer)) tt;;
  emit (EvDial (address peer));;
  lock;;
  peer' ← index_nodes role;
  assign_nodes role (with_comm (Some connection) peer');;
  emit (EvSendEstablished role);;
  unlock.

Inductive Notice : Type :=
| BadConnection (role : Z)     (* read from this.registerBadConnection *)
| Established (role : Z).      (* read from connectionEstablished *)

(** One iteration of the loop of [connectionManager]. *)
Definition connectionManager (establishing : gmap Z bool) (notice : Notice)
  : gmap Z bool * list Event :=
  match notice with
  | BadConnection role =>
      if negb (default false (establishing !! role))
      then (<[role := true]> establishing, [EvSpawn "establishConnection" role])
      else (establishing, [])
  | Established role => (<[role := false]> establishing, [])
  end.

(** ** [ConstructCluster] *)

(** An [net.IP] through what the constructor asks of it. *)
Record IP : Type := mkIP {
  To4 : bool;          (* ip.To4() != nil *)
  IP_String : string   (* ip.String() *)
}.

(** The world around the constructor: the answers of the address registry
    on disk, of the operating system and of the [net] package. *)
Record Host : Type := mkHost {
  RetrieveAddresses : result (gmap Z string);
  Hostname : result string;
  LookupIP : string → result (list IP);
  SplitHostPort : string → result (string * string)
}.

Definition newPeer (id : Z) (addr : string) : Peer := mkPeer id addr None true.

Definition build_peers (entries : list (Z * string)) : gmap Z Peer :=
  foldl (λ peers entry, <[entry.1 := newPeer entry.1 entry.2]> peers) ∅ entries.

Fixpoint first_ipv4 (ipInfo : list IP) : string :=
  match ipInfo with
  | [] => ""
  | ip :: rest => if To4 ip then IP_String ip else first_ipv4 rest
  end.

(** The loop that matches [thisAddress] against the table; [role] is the
    value of [roleId] when the loop is entered. *)
Fixpoint match_address (h : Host) (thisAddress : string) (role : Z)
    (entries : list (Z * string)) : result Z :=
  match entries with
  | [] => Ok role
  | entry :: rest =>
      match SplitHostPort h entry.2 with
      | Err e => Err e
      | Ok (ip, _) =>
          if String.eqb thisAddress ip then Ok entry.1
          else match_address h thisAddress role rest
      end
  end.

Definition not_found (thisAddress : string) : error :=
  Errorf ("Could not find address " +:+ thisAddress +:+ " in peers table").

Definition detect (h : Host) (order' : list (Z * string)) : result Z :=
  match Hostname h with
  | Err e => Err e
  | Ok name =>
      match LookupIP h name with
      | Err e => Err e
      | Ok ipInfo =>
          match match_address h (first_ipv4 ipInfo) 0 order' with
          | Err e => Err e
          | Ok role =>
              if role =? 0 then Err (not_found (first_ipv4 ipInfo)) else Ok role
          end
      end
  end.

(** [order] and [order'] are the orders of the two [range] loops over the
    address table.  The result is the new cluster, its role and its
    address. *)
Definition ConstructCluster (h : Host) (order order' : list (Z * string)) (role : Z)
  : result (Cluster * Z * string) :=
  match RetrieveAddresses h with
  | Err e => Err e
  | Ok addresses =>
      let peers := build_peers order in
      match (if role =? 0 then detect h order' else Ok role) with
      | Err e => Err e
      | Ok role' =>
          let newCluster := mkCluster role' peers 0 in
          Ok (newCluster, cluster_roleId newCluster,
              address (default zero_Peer (nodes newCluster !! cluster_roleId newCluster)))
      end
  end.

(** ** Lock discipline of a trace *)

Definition is_access (e : Event) : bool :=
  match e with EvAccess _ _ => true | _ => false end.

Definition network_call (e : Event) : bool :=
  match e with EvDial _ | EvNetListen _ => true | _ => false end.

Definition timed_wait (e : Event) : bool :=
  match e with EvSelect _ | EvSleep _ => true | _ => false end.

Definition blocking (e : Event) : bool := network_call e || timed_wait e.

Definition lock_op (e : Event) : bool :=
  match e with EvLock | EvUnlock => true | _ => false end.

(** Whether the lock is held after [e], when it was [held] before. *)
Definition holds (held : bool) (e : Event) : bool :=
  match e with EvLock => true | EvUnlock => false | _ => held end.

(** Every event with whether the lock is held when it happens. *)
Fixpoint under_lock (held : bool) (t : list Event) : list (bool * Event) :=
  match t with
  | [] => []
  | e :: rest => (held, e) :: under_lock (holds held e) rest
  end.

Definition unlocked_access (he : bool * Event) : bool := implb (is_access he.2) he.1.

Definition locked_event (P : Event → bool) (he : bool * Event) : bool := he.1 && P he.2.

(** All accesses to the shared fields happen with the lock held. *)
Definition accesses_locked (t : list Event) : bool :=
  forallb unlocked_access (under_lock false t).

(** Some event of kind [P] happens with the lock held. *)
Definition held_across (P : Event → bool) (t : list Event) : bool :=
  existsb (locked_event P) (under_lock false t).

(** ** [net.SplitHostPort]

    The function of Go's standard library, for the concrete hosts below. *)

Fixpoint index_byte (c : Ascii.ascii) (s : string) : option nat :=
  match s with
  | EmptyString => None
  | String.String a rest => if Ascii.eqb a c then Some 0%nat else S <$> index_byte c rest
  end.

Fixpoint last_index_byte (c : Ascii.ascii) (s : string) : option nat :=
  match s with
  | EmptyString => None
  | String.String a rest =>
      match last_index_byte c rest with
      | Some i => Some (S i)
      | None => if Ascii.eqb a c then Some 0%nat else None
      end
  end.

(** [s[from:]] and [s[from:to]] *)
Definition slice_from (from : nat) (s : string) : string :=
  String.substring from (String.length s - from) s.

Definition slice (from to : nat) (s : string) : string := String.substring from (to - from) s.

Definition addrErr (addr why : string) : result (string * string) := Err (AddrError why addr).

Definition net_SplitHostPort (hostport : string) : result (string * string) :=
  match last_index_byte ":" hostport with
  | None => addrErr hostport "missing port in address"
  | Some i =>
      let rest (host : string) (j k : nat) : result (string * string) :=
        if is_nil (index_byte "[" (slice_from j hostport)) then
          if is_nil (index_byte "]" (slice_from k hostport)) then
            Ok (host, slice_from (i + 1) hostport)
          else addrErr hostport "unexpected ']' in address"
        else addrErr hostport "unexpected '[' in address" in
      if bool_decide (String.get 0 hostport = Some "["%char) then
        match index_byte "]" hostport with
        | None => addrErr hostport "missing ']' in address"
        | Some e =>
            if (e + 1 =? String.length hostport)%nat then
              addrErr hostport "missing port in address"
            else if (e + 1 =? i)%nat then rest (slice 1 e hostport) 1%nat (e + 1)%nat
            else if bool_decide (String.get (e + 1) hostport = Some ":"%char) then
              addrErr hostport "too many colons in address"
            else addrErr hostport "missing port in address"
        end
      else
        if is_nil (index_byte ":" (slice 0 i hostport)) then rest (slice 0 i hostport) 0%nat 0%nat
        else addrErr hostport "too many colons in address"
  end.

(** ** Reading a trace *)

(** The remote calls of a trace: map key, client, service method. *)
Definition calls (t : list Event) : list (Z * Client * string) :=
  omap (λ e, match e with EvGo k via m => Some (k, via, m) | _ => None end) t.

(** The roles sent on [registerBadConnection]. *)
Definition reported (t : list Event) : list Z :=
  omap (λ e, match e with EvSendBad k => Some k | _ => None end) t.

(** The calls a loop makes that sends [serviceMethod] to the entries
    selected by [cond] that have a client. *)
Definition sends (cond : Z * Peer → bool) (serviceMethod : string) (entries : list (Z * Peer))
  : list (Z * Client * string) :=
  omap (λ e, if cond e then (λ via, (e.1, via, serviceMethod)) <$> comm e.2 else None) entries.

Definition go_event (call : Z * Client * string) : Event := EvGo call.1.1 call.1.2 call.2.

(** The selections of the two broadcasts. *)
Definition wants_prepare (e : Z * Peer) : bool := requirePromise e.2.

Definition unfiltered (filter : gmap Z bool) (e : Z * Peer) : bool :=
  negb (filtered filter e.1).

(** A [uint64] counter after [k] increments. *)
Definition bump (k : nat) (n : Z) : Z := Nat.iter k (λ x, wrap64 (x + 1)) n.

(** A map that [len] can measure. *)
Definition fits_int {V : Type} (m : gmap Z V) : Prop := len m ≤ max_int.

(** What the variables of the reply loop of [BroadcastHeartbeat] mean, in
    terms of the replies read. *)
Definition pulse_inv (peerCount : Z) (w : Pulse) : Prop :=
  (failures w = true ↔
     timed_out w = true ∨ ∃ r, r ∈ heard w ∧ succeeded r = false) ∧
  (∀ k, was_received w k = true ↔
     ∃ r, r ∈ heard w ∧ succeeded r = true ∧ Reply r = k) ∧
  (timed_out w = false → replyCount w = Z.of_nat (length (heard w))) ∧
  replyCount w ≤ peerCount.

(** The result of the reply loop of a heartbeat round. *)
Definition heartbeat_replies (c : Cluster) (endpoint : list (Arrival Z)) : Pulse :=
  (await_heartbeats (len (nodes c)) initial_pulse endpoint).1.

(** A peer that the round demotes: it did not answer and no promise was
    required from it. *)
Definition loses_skip (w : Pulse) (kp : Z * Peer) : Prop :=
  was_received w kp.1 = false ∧ requirePromise kp.2 = false.

Global Instance loses_skip_dec (w : Pulse) (kp : Z * Peer) : Decision (loses_skip w kp).
Proof. unfold loses_skip. apply _. Defined.

(** ** Loops as functions

    A loop whose body always returns is the fold of what one iteration
    does to the cluster; its trace is the traces of the iterations. *)

Fixpoint steps_trace {A : Type} (st : A → Cluster → Cluster)
    (tr : A → Cluster → list Event) (l : list A) (c : Cluster) : list Event :=
  match l with
  | [] => []
  | a :: rest => tr a c ++ steps_trace st tr rest (st a c)
  end.

Definition steps {A : Type} (st : A → Cluster → Cluster) (l : list A) (c : Cluster) : Cluster :=
  foldl (λ c a, st a c) c l.

(** One iteration of the second loop of [BroadcastHeartbeat]. *)
Definition demoted (w : Pulse) (e : Z * Peer) (c : Cluster) : Cluster :=
  if was_received w e.1 then c
  else
    let peer := default zero_Peer (nodes c !! e.1) in
    mkCluster (cluster_roleId c)
      (<[e.1 := with_requirePromise true peer]> (nodes c))
      (if requirePromise peer then skipPromiseCount c
       else wrap64 (skipPromiseCount c - 1)).

Definition demote_trace (w : Pulse) (e : Z * Peer) (c : Cluster) : list Event :=
  if was_received w e.1 then []
  else
    EvAccess FNodes Read ::
    (if requirePromise (default zero_Peer (nodes c !! e.1)) then []
     else [EvAccess FSkipPromiseCount Read; EvAccess FSkipPromiseCount Write]) ++
    [EvAccess FNodes Write; EvSendBad e.1].

(** What a heartbeat round with failures makes of the peer under [k]. *)
Definition lowered (w : Pulse) (k : Z) (p : Peer) : Peer :=
  if was_received w k then p else with_requirePromise true p.

(** One iteration of the loop of [Connect]. *)
Definition connected (dial : string → option Client) (e : Z * Peer) (c : Cluster) : Cluster :=
  match dial (address e.2) with
  | None => c
  | Some connection => with_nodes (<[e.1 := with_comm (Some connection) e.2]> (nodes c)) c
  end.

Definition connect_trace (dial : string → option Client) (e : Z * Peer) (c : Cluster)
  : list Event :=
  EvDial (address e.2) ::
  match dial (address e.2) with
  | None => [EvSendBad e.1]
  | Some _ => [EvAccess FNodes Write]
  end.

(** Events that neither take nor release the lock and do not wait. *)
Definition quiet (e : Event) : Prop := lock_op e = false ∧ blocking e = false.

(** A [uint64] value. *)
Definition is_uint64 (x : Z) : Prop := 0 ≤ x < uint64_modulus.

(** 1 for an entry that satisfies [P], 0 for another. *)
Definition weight (P : Z * Peer → Prop) `{!∀ x, Decision (P x)} (x : Z * Peer) : Z :=
  if decide (P x) then 1 else 0.

(** What [SetPromiseRequirement] makes of the cluster. *)
Definition promise_set (role : Z) (required : bool) (c : Cluster) : Cluster :=
  let peer := default zero_Peer (nodes c !! role) in
  mkCluster (cluster_roleId c)
    (<[role := with_requirePromise required peer]> (nodes c))
    (if Bool.eqb (requirePromise peer) required then skipPromiseCount c
     else if required then wrap64 (skipPromiseCount c - 1)
          else wrap64 (skipPromiseCount c + 1)).

(** Every address of the table splits into host and port. *)
Definition parses (h : Host) (addresses : gmap Z string) : Prop :=
  ∀ k a, addresses !! k = Some a → ∃ ip port, SplitHostPort h a = Ok (ip, port).

(** The host part of [a] is [thisAddress]. *)
Definition matches (h : Host) (thisAddress a : string) : Prop :=
  ∃ port, SplitHostPort h a = Ok (thisAddress, port).

(** The response [wrapReply] forwards for a reply, if any. *)
Definition deliver {R : Type} (a : Arrival R) : option (Response R) :=
  if succeeded (call a) then Some (mkResponse (Reply (call a))) else None.

(** The clock of a reader that started at [clock] and has read [l]. *)
Definition clock_after {R : Type} (clock : Z) (l : list (Arrival R)) : Z :=
  foldl (λ t a, Z.max t (at_ms a)) clock l.

(** ** Histories

    The operations that change [requirePromise], and what it takes for a
    sequence of them to stay within the cluster: [SetPromiseRequirement]
    for a role of the cluster, heartbeat rounds whose second loop walks
    [nodes]. *)

Inductive Mutation : Type :=
| SetPromise (role : Z) (required : bool)
| Heartbeat (order order' : list (Z * Peer)) (endpoint : list (Arrival Z)) (role : Z).

Definition mutate (c : Cluster) (m : Mutation) : Cluster :=
  match m with
  | SetPromise role required => final (SetPromiseRequirement role required c)
  | Heartbeat order order' endpoint role =>
      final (BroadcastHeartbeat order order' endpoint role c)
  end.

Definition within (c : Cluster) (m : Mutation) : Prop :=
  match m with
  | SetPromise role _ => is_Some (nodes c !! role)
  | Heartbeat _ order' _ _ => ranges (nodes c) order'
  end.

Fixpoint history_within (c : Cluster) (ms : list Mutation) : Prop :=
  match ms with
  | [] => True
  | m :: rest => within c m ∧ history_within (mutate c m) rest
  end.

(** ** Concrete clusters

    A cluster of three nodes, as node 2 sees it. *)

Definition sample_addresses : gmap Z string :=
  {[ 1 := "10.0.0.1:7001"; 2 := "10.0.0.2:7001"; 3 := "10.0.0.3:7001" ]}.

(** The machine of node 2: its name resolves to a link-local IPv6 address
    and to 10.0.0.2. *)
Definition sample_host : Host :=
  mkHost (Ok sample_addresses) (Ok "node2")
    (λ _, Ok [mkIP false "fe80::1"; mkIP true "10.0.0.2"])
    net_SplitHostPort.

(** The cluster right after construction. *)
Definition fresh_cluster : Cluster :=
  mkCluster 2 (build_peers (map_to_list sample_addresses)) 0.

(** Later: nodes 1 and 2 are connected, node 3 is not; node 1 has promised. *)
Definition sample_cluster : Cluster :=
  mkCluster 2
    {[ 1 := mkPeer 1 "10.0.0.1:7001" (Some 11%nat) false;
       2 := mkPeer 2 "10.0.0.2:7001" (Some 12%nat) true;
       3 := mkPeer 3 "10.0.0.3:7001" None true ]}
    1.

(** Nodes 1 and 2 have promised: a majority of the three. *)
Definition promised_cluster : Cluster :=
  mkCluster 2
    {[ 1 := mkPeer 1 "10.0.0.1:7001" (Some 11%nat) false;
       2 := mkPeer 2 "10.0.0.2:7001" (Some 12%nat) false;
       3 := mkPeer 3 "10.0.0.3:7001" (Some 13%nat) true ]}
    2.

(** A heartbeat round in which only node 2 answers, after 10 ms. *)
Definition sample_heartbeats : list (Arrival Z) :=
  [mkArrival 10 (mkCall 2 None)].

(** Two replies to a broadcast, 1.5 s and 3 s after its start. *)
Definition late_replies : list (Arrival string) :=
  [mkArrival 1500 (mkCall "a" None); mkArrival 3000 (mkCall "b" None)].

(** A reply, a failed call and a reply that comes too late. *)
Definition mixed_replies : list (Arrival string) :=
  [mkArrival 100 (mkCall "a" None);
   mkArrival 200 (mkCall "" (Some "connection is shut down"));
   mkArrival 2500 (mkCall "c" None)].

(** A table with an address that has no port, on a machine whose address
    is 10.0.0.5. *)
Definition portless_host : Host :=
  mkHost (Ok {[ 1 := "localhost" ]}) (Ok "node1")
    (λ _, Ok [mkIP true "10.0.0.5"])
    net_SplitHostPort.

(** A table that lists the machine's address under role 0. *)
Definition role0_host : Host :=
  mkHost (Ok {[ 0 := "10.0.0.5:7001"; 1 := "10.0.0.6:7001" ]}) (Ok "node0")
    (λ _, Ok [mkIP true "10.0.0.5"])
    net_SplitHostPort.

(** ** Further readings of the code *)

Global Instance Notice_eq_dec : EqDecision Notice.
Proof. solve_decision. Defined.

(** The loop of [connectionManager] over the notices it reads, from the
    marks [establishing]; the goroutine starts with no mark. *)
Fixpoint manage (establishing : gmap Z bool) (notices : list Notice)
  : gmap Z bool * list Event :=
  match notices with
  | [] => (establishing, [])
  | notice :: rest =>
      match connectionManager establishing notice with
      | (establishing', t) =>
          match manage establishing' rest with
          | (establishing'', t') => (establishing'', t ++ t')
          end
      end
  end.

(** The role a notice is about. *)
Definition about (notice : Notice) : Z :=
  match notice with BadConnection role => role | Established role => role end.

(** The number of [establishConnection] goroutines a trace starts for a
    role, and the number of repairs of a role among notices. *)
Definition workers (role : Z) (t : list Event) : nat :=
  length (filter (λ e, e = EvSpawn "establishConnection" role) t).

Definition repairs (role : Z) (notices : list Notice) : nat :=
  length (filter (λ notice, notice = Established role) notices).

(** The addresses dialled, the sleeps and the roles sent on
    [connectionEstablished] in a trace. *)
Definition dialed (t : list Event) : list string :=
  omap (λ e, match e with EvDial a => Some a | _ => None end) t.

Definition slept (t : list Event) : list Z :=
  omap (λ e, match e with EvSleep ms => Some ms | _ => None end) t.

Definition signalled (t : list Event) : list Z :=
  omap (λ e, match e with EvSendEstablished k => Some k | _ => None end) t.

(** What [Connect] makes of a peer: the new client when the dial
    succeeds, the peer as it was when it fails. *)
Definition redialed (dial : string → option Client) (p : Peer) : Peer :=
  match dial (address p) with
  | Some connection => with_comm (Some connection) p
  | None => p
  end.

(** The methods that write to the cluster, and what it takes for a
    sequence of them to stay within the cluster: roles of the cluster for
    [SetPromiseRequirement] and [establishConnection], loops that walk
    [nodes] for [BroadcastHeartbeat] and [Connect]. *)
Inductive Change : Type :=
| ChSetPromise (role : Z) (required : bool)
| ChHeartbeat (order order' : list (Z * Peer)) (endpoint : list (Arrival Z)) (role : Z)
| ChConnect (order : list (Z * Peer)) (dial : string → option Client)
| ChEstablish (role : Z) (failed : nat) (connection : Client).

Definition change (c : Cluster) (ch : Change) : Cluster :=
  match ch with
  | ChSetPromise role required => final (SetPromiseRequirement role required c)
  | ChHeartbeat order order' endpoint role =>
      final (BroadcastHeartbeat order order' endpoint role c)
  | ChConnect order dial => final (Connect order dial c)
  | ChEstablish role failed connection =>
      final (establishConnection role failed connection c)
  end.

Definition permitted (c : Cluster) (ch : Change) : Prop :=
  match ch with
  | ChSetPromise role _ => is_Some (nodes c !! role)
  | ChHeartbeat _ order' _ _ => ranges (nodes c) order'
  | ChConnect order _ => ranges (nodes c) order
  | ChEstablish role _ _ => is_Some (nodes c !! role)
  end.

Fixpoint changes_permitted (c : Cluster) (chs : list Change) : Prop :=
  match chs with
  | [] => True
  | ch :: rest => permitted c ch ∧ changes_permitted (change c ch) rest
  end.

(** A later state [p'] of the peer [p]: same role and address, and a
    client if [p] had one. *)
Definition kept (p p' : Peer) : Prop :=
  roleId p' = roleId p ∧ address p' = address p ∧ (is_Some (comm p) → is_Some (comm p')).

(** A later state of a cluster: same local role, same roles in [nodes],
    every peer kept. *)
Definition evolves (c c' : Cluster) : Prop :=
  cluster_roleId c' = cluster_roleId c ∧
  ∀ k, option_Forall2 kept (nodes c !! k) (nodes c' !! k).

(** ** A concrete history

    The new cluster dials its peers (node 3 does not answer), node 1
    promises, a heartbeat round is answered by node 2 only, the peers are
    dialled again and node 3 is reached at the second attempt. *)

Definition sample_dial (a : string) : option Client :=
  if String.eqb a "10.0.0.3:7001" then None else Some 7%nat.

Definition connected_cluster : Cluster :=
  final (Connect (map_to_list (nodes fresh_cluster)) sample_dial fresh_cluster).

Definition promising_cluster : Cluster :=
  final (SetPromiseRequirement 1 false connected_cluster).

Definition pulsed_cluster : Cluster :=
  final (BroadcastHeartbeat (map_to_list (nodes promising_cluster))
           (map_to_list (nodes promising_cluster)) sample_heartbeats 2 promising_cluster).

Definition sample_changes : list Change :=
  [ChSetPromise 1 false;
   ChHeartbeat (map_to_list (nodes promising_cluster)) (map_to_list (nodes promising_cluster))
     sample_heartbeats 2;
   ChConnect (map_to_list (nodes pulsed_cluster)) sample_dial;
   ChEstablish 3 1 33%nat].

(** Replies that each arrive before the timer of the wait for them runs
    out, for a reader whose clock is [clock] when it starts to wait. *)
Fixpoint timely {R : Type} (window clock : Z) (l : list (Arrival R)) : Prop :=
  match l with
  | [] => True
  | a :: rest => at_ms a < clock + window ∧ timely window (Z.max clock (at_ms a)) rest
  end.

(** Two nodes on one machine: both addresses of the table have the
    machine's address as host. *)
Definition shared_host : Host :=
  mkHost (Ok {[ 1 := "10.0.0.2:7001"; 2 := "10.0.0.2:7002" ]}) (Ok "node")
    (λ _, Ok [mkIP true "10.0.0.2"])
    net_SplitHostPort.

(** * Properties *)

(** ** The monad *)

Lemma run_bind {A B : Type} (m : M A) (f : A → M B) (c : Cluster) :
  (m ≫= f) c =
  match m c with
  | (Returned a, c1, t1) => match f a c1 with (o, c2, t2) => (o, c2, t1 ++ t2) end
  | (Panicked r, c1, t1) => (Panicked r, c1, t1)
  end.
Proof. reflexivity. Qed.

Lemma run_locked {A : Type} (body : M A) (c c1 : Cluster) (o : Outcome A) (t : list Event) :
  body c = (o, c1, t) →
  (lock;; defer unlock body) c = (o, c1, EvLock :: t ++ [EvUnlock]).
Proof.
  intros H. rewrite run_bind. unfold lock, defer, unlock, emit.
  rewrite H. reflexivity.
Qed.

(** Unfolds the sequencing of a block of statements. *)
Ltac run_block :=
  unfold mbind, M_bind, mret, M_ret, emit, panic, len_nodes, range_nodes, index_nodes,
    assign_nodes, read_skipPromiseCount, write_skipPromiseCount, read_roleId;
  cbn beta iota.

Lemma wrap64_small (x : Z) : 0 ≤ x < uint64_modulus → wrap64 x = x.
Proof. intros H. unfold wrap64. apply Z.mod_small. exact H. Qed.

Lemma calls_app (t1 t2 : list Event) : calls (t1 ++ t2) = calls t1 ++ calls t2.
Proof. unfold calls. apply omap_app. Qed.

Lemma reported_app (t1 t2 : list Event) : reported (t1 ++ t2) = reported t1 ++ reported t2.
Proof. unfold reported. apply omap_app. Qed.

Lemma calls_go_events (l : list (Z * Client * string)) : calls (go_event <$> l) = l.
Proof.
  induction l as [|[[k via] m] l IH]; [reflexivity|].
  cbn. unfold calls in IH. rewrite IH. reflexivity.
Qed.

Lemma calls_cons (e : Event) (t : list Event) :
  calls (e :: t) =
  match e with EvGo k via m => (k, via, m) :: calls t | _ => calls t end.
Proof. destruct e; reflexivity. Qed.

Lemma reported_cons (e : Event) (t : list Event) :
  reported (e :: t) =
  match e with EvSendBad k => k :: reported t | _ => reported t end.
Proof. destruct e; reflexivity. Qed.

Lemma calls_nil : calls [] = [].
Proof. reflexivity. Qed.

Lemma reported_nil : reported [] = [].
Proof. reflexivity. Qed.

Lemma reported_go_events (l : list (Z * Client * string)) : reported (go_event <$> l) = [].
Proof. induction l as [|x l IH]; [reflexivity|exact IH]. Qed.

(** Reads the calls and the reports off a trace built with [::] and [++]. *)
Ltac read_trace :=
  repeat first
    [ rewrite calls_app | rewrite reported_app
    | rewrite calls_go_events | rewrite reported_go_events
    | rewrite calls_nil | rewrite reported_nil
    | rewrite calls_cons; cbv beta iota
    | rewrite reported_cons; cbv beta iota
    | rewrite app_nil_r | rewrite app_nil_l ].

Lemma bump_small (k : nat) (n : Z) :
  0 ≤ n → n + Z.of_nat k < uint64_modulus → bump k n = n + Z.of_nat k.
Proof.
  unfold bump. induction k as [|k IH]; intros Hn Hfit.
  - cbn. lia.
  - change (wrap64 (Nat.iter k (λ x, wrap64 (x + 1)) n + 1) = n + Z.of_nat (S k)).
    rewrite IH by lia. rewrite wrap64_small by lia. lia.
Qed.

(** ** Loops that send to a selection of the peers *)

Lemma sends_cons (cond : Z * Peer → bool) (m : string) (e : Z * Peer) (rest : list (Z * Peer)) :
  sends cond m (e :: rest) =
  match (if cond e then (λ via, (e.1, via, m)) <$> comm e.2 else None) with
  | Some y => y :: sends cond m rest
  | None => sends cond m rest
  end.
Proof. reflexivity. Qed.

Section SendLoop.
Variable cond : Z * Peer → bool.
Variable serviceMethod : string.
Variable body : Z → Z * Peer → M Z.
Hypothesis body_eq : ∀ n e,
  body n e =
  if cond e && negb (is_nil (comm e.2))
  then rpc_Go e.1 (comm e.2) serviceMethod;; mret (wrap64 (n + 1))
  else mret n.

Lemma send_loop_run (entries : list (Z * Peer)) (n : Z) (c : Cluster) :
  for_range entries body n c =
  (Returned (bump (length (sends cond serviceMethod entries)) n), c,
   go_event <$> sends cond serviceMethod entries).
Proof.
  revert n. induction entries as [|e rest IH]; intros n; [reflexivity|].
  cbn [for_range]. rewrite run_bind, body_eq, sends_cons.
  destruct (cond e); cbn [andb].
  - destruct (comm e.2) as [via|]; cbn [is_nil negb fmap option_fmap option_map].
    + rewrite run_bind. unfold rpc_Go. run_block. rewrite IH.
      cbn [length fmap list_fmap app go_event fst snd].
      unfold bump. rewrite Nat.iter_succ_r. reflexivity.
    + cbn. rewrite IH. reflexivity.
  - cbn. rewrite IH. reflexivity.
Qed.
End SendLoop.

Lemma elem_of_sends cond m entries k via m' :
  (k, via, m') ∈ sends cond m entries ↔
  m' = m ∧ ∃ p, (k, p) ∈ entries ∧ cond (k, p) = true ∧ comm p = Some via.
Proof.
  unfold sends. rewrite list_elem_of_omap. split.
  - intros [[k0 p] [Hin Hf]]. cbn in Hf.
    destruct (cond (k0, p)) eqn:Hc; [|discriminate].
    destruct (comm p) as [via0|] eqn:Hp; [|discriminate].
    cbn in Hf. injection Hf as -> -> ->. split; [reflexivity|].
    exists p. auto.
  - intros [-> [p [Hin [Hc Hp]]]]. exists (k, p). split; [exact Hin|].
    cbn. rewrite Hc, Hp. reflexivity.
Qed.

Lemma sends_key_in cond m entries x :
  x ∈ sends cond m entries → x.1.1 ∈ entries.*1.
Proof.
  destruct x as [[k via] m']. rewrite elem_of_sends.
  intros [_ [p [Hin _]]]. cbn. apply list_elem_of_fmap. exists (k, p). auto.
Qed.

Lemma NoDup_sends cond m entries :
  NoDup entries.*1 → NoDup (sends cond m entries).
Proof.
  induction entries as [|e rest IH]; intros Hnd.
  - constructor.
  - cbn [fmap list_fmap] in Hnd. apply NoDup_cons in Hnd as [Hnotin Hnd].
    rewrite sends_cons.
    destruct (cond e); [|auto].
    destruct (comm e.2) as [via|]; cbn; [|auto].
    constructor; [|auto].
    intros Hin. apply sends_key_in in Hin. cbn in Hin. contradiction.
Qed.

Lemma sends_length cond m entries :
  (length (sends cond m entries) ≤ length entries)%nat.
Proof.
  induction entries as [|e rest IH]; [reflexivity|].
  rewrite sends_cons. cbn [length].
  destruct (cond e); [|lia].
  destruct (comm e.2); cbn [fmap option_fmap option_map length]; lia.
Qed.

Lemma sends_Permutation cond m (l1 l2 : list (Z * Peer)) :
  l1 ≡ₚ l2 → sends cond m l1 ≡ₚ sends cond m l2.
Proof. intros H. unfold sends. rewrite H. reflexivity. Qed.

Lemma ranges_length {V : Type} (m : gmap Z V) (order : list (Z * V)) :
  ranges m order → Z.of_nat (length order) = len m.
Proof.
  unfold ranges, len. intros H. rewrite H, length_map_to_list. reflexivity.
Qed.

Lemma ranges_elem_of {V : Type} (m : gmap Z V) (order : list (Z * V)) (k : Z) (v : V) :
  ranges m order → (k, v) ∈ order ↔ m !! k = Some v.
Proof. unfold ranges. intros H. rewrite H. apply elem_of_map_to_list. Qed.

Lemma ranges_NoDup {V : Type} (m : gmap Z V) (order : list (Z * V)) :
  ranges m order → NoDup order.*1.
Proof. unfold ranges. intros H. rewrite H. apply NoDup_fst_map_to_list. Qed.

Lemma max_int_lt_modulus : max_int < uint64_modulus.
Proof. reflexivity. Qed.

Lemma majority_fits {V : Type} (m : gmap Z V) :
  fits_int m → wrap64 (len m / 2 + 1) = len m / 2 + 1.
Proof.
  unfold fits_int. intros H. apply wrap64_small.
  assert (0 ≤ len m) by (unfold len; lia).
  pose proof max_int_lt_modulus.
  split; [apply Z.add_nonneg_nonneg; [apply Z.div_pos|]; lia|].
  assert (len m / 2 ≤ len m) by (apply Z.div_le_upper_bound; lia).
  unfold max_int, uint64_modulus in *. lia.
Qed.

(** ** [BroadcastPrepareRequest] *)

Lemma prepare_eq n e :
  prepare n e =
  if wants_prepare e && negb (is_nil (comm e.2))
  then rpc_Go e.1 (comm e.2) "AcceptorRole.Prepare";; mret (wrap64 (n + 1))
  else mret n.
Proof. reflexivity. Qed.

Lemma BroadcastPrepareRequest_steps {PrepareReq : Type} (c : Cluster)
    (order : list (Z * Peer)) (request : PrepareReq) :
  BroadcastPrepareRequest order request c =
  let below := skipPromiseCount c <? wrap64 (len (nodes c) / 2 + 1) in
  let sent := if below then sends wants_prepare "AcceptorRole.Prepare" order else [] in
  (Returned (bump (length sent) 0), c,
   EvLock :: ([EvAccess FNodes Read; EvAccess FSkipPromiseCount Read] ++
              (if below then EvAccess FNodes Read :: (go_event <$> sent) else []) ++
              [EvSpawn "wrapReply" (bump (length sent) 0)]) ++ [EvUnlock]).
Proof.
  unfold BroadcastPrepareRequest. apply run_locked.
  assert (Hloop := send_loop_run wants_prepare "AcceptorRole.Prepare" prepare prepare_eq
                     order 0 c).
  run_block.
  destruct (skipPromiseCount c <? wrap64 (len (nodes c) / 2 + 1)) eqn:Hlt.
  - rewrite Hloop. reflexivity.
  - reflexivity.
Qed.

Lemma sends_count cond m (c : Cluster) (order : list (Z * Peer)) :
  ranges (nodes c) order → fits_int (nodes c) →
  bump (length (sends cond m order)) 0 = Z.of_nat (length (sends cond m order)).
Proof.
  intros Hr Hfit. rewrite bump_small; [lia|lia|].
  pose proof (sends_length cond m order) as Hle.
  pose proof (ranges_length _ _ Hr) as Hlen.
  unfold fits_int in Hfit. pose proof max_int_lt_modulus. lia.
Qed.

Lemma BroadcastPrepareRequest_run {PrepareReq : Type} (c : Cluster) order
    (request : PrepareReq) :
  ranges (nodes c) order → fits_int (nodes c) →
  BroadcastPrepareRequest order request c =
  let sent :=
    if skipPromiseCount c <? len (nodes c) / 2 + 1
    then sends wants_prepare "AcceptorRole.Prepare" order else [] in
  (Returned (Z.of_nat (length sent)), c,
   EvLock :: ([EvAccess FNodes Read; EvAccess FSkipPromiseCount Read] ++
              (if skipPromiseCount c <? len (nodes c) / 2 + 1
               then EvAccess FNodes Read :: (go_event <$> sent) else []) ++
              [EvSpawn "wrapReply" (Z.of_nat (length sent))]) ++ [EvUnlock]).
Proof.
  intros Hr Hfit. rewrite BroadcastPrepareRequest_steps. cbn zeta.
  rewrite majority_fits by exact Hfit.
  destruct (skipPromiseCount c <? len (nodes c) / 2 + 1).
  - rewrite (sends_count _ _ c order Hr Hfit). reflexivity.
  - reflexivity.
Qed.

Lemma calls_prepare_trace sent (b : bool) (n : Z) :
  calls (EvLock :: ([EvAccess FNodes Read; EvAccess FSkipPromiseCount Read] ++
           (if b then EvAccess FNodes Read :: (go_event <$> sent) else []) ++
           [EvSpawn "wrapReply" n]) ++ [EvUnlock]) =
  if b then sent else [].
Proof. destruct b; read_trace; reflexivity. Qed.

(** C2.  When [skipPromiseCount] has reached the majority [N/2 + 1] of the
    [N] nodes, [BroadcastPrepareRequest] makes no remote call and returns
    the count 0 (and leaves the cluster as it was), whatever the order of
    its loop would be. *)
Theorem BroadcastPrepareRequest_majority_known {PrepareReq : Type} (c : Cluster)
    (order : list (Z * Peer)) (request : PrepareReq) :
  fits_int (nodes c) →
  skipPromiseCount c >= len (nodes c) / 2 + 1 →
  calls (events (BroadcastPrepareRequest order request c)) = [] ∧
  outcome (BroadcastPrepareRequest order request c) = Returned 0 ∧
  final (BroadcastPrepareRequest order request c) = c.
Proof.
  intros Hfit Hmaj.
  rewrite BroadcastPrepareRequest_steps, majority_fits by exact Hfit.
  assert (Hge : (skipPromiseCount c <? len (nodes c) / 2 + 1) = false)
    by (apply Z.ltb_ge; lia).
  rewrite Hge. cbn zeta iota. unfold events, outcome, final. cbn [fst snd].
  split; [reflexivity|]. split; reflexivity.
Qed.

(** C7.  When [skipPromiseCount] is below the majority,
    [BroadcastPrepareRequest] calls [AcceptorRole.Prepare] through the
    client of each peer that has [requirePromise] set and a client, once
    each, and makes no other call: a peer without a client is never
    called.  The count it returns is the number of calls made. *)
Theorem BroadcastPrepareRequest_below_majority {PrepareReq : Type} (c : Cluster)
    (order : list (Z * Peer)) (request : PrepareReq) :
  ranges (nodes c) order →
  fits_int (nodes c) →
  skipPromiseCount c < len (nodes c) / 2 + 1 →
  (∀ k via m,
     (k, via, m) ∈ calls (events (BroadcastPrepareRequest order request c)) ↔
     m = "AcceptorRole.Prepare" ∧
     ∃ p, nodes c !! k = Some p ∧ requirePromise p = true ∧ comm p = Some via) ∧
  NoDup (calls (events (BroadcastPrepareRequest order request c))) ∧
  outcome (BroadcastPrepareRequest order request c) =
    Returned (Z.of_nat (length (calls (events (BroadcastPrepareRequest order request c))))).
Proof.
  intros Hr Hfit Hlow.
  rewrite (BroadcastPrepareRequest_run c order request Hr Hfit).
  assert (Hlt : (skipPromiseCount c <? len (nodes c) / 2 + 1) = true)
    by (apply Z.ltb_lt; lia).
  cbn zeta. unfold events, outcome. cbn [fst snd].
  rewrite calls_prepare_trace, Hlt.
  split; [|split].
  - intros k via m. rewrite elem_of_sends. unfold wants_prepare. cbn [snd].
    split.
    + intros [-> [p [Hin [Hreq Hcomm]]]]. split; [reflexivity|].
      exists p. rewrite <- (ranges_elem_of _ _ _ _ Hr). auto.
    + intros [-> [p [Hin [Hreq Hcomm]]]]. split; [reflexivity|].
      exists p. rewrite (ranges_elem_of _ _ _ _ Hr). auto.
  - apply NoDup_sends. exact (ranges_NoDup _ _ Hr).
  - reflexivity.
Qed.

(** ** [BroadcastProposalRequest] *)

Lemma propose_eq filter n e :
  propose filter n e =
  if unfiltered filter e && negb (is_nil (comm e.2))
  then rpc_Go e.1 (comm e.2) "AcceptorRole.Accept";; mret (wrap64 (n + 1))
  else mret n.
Proof. reflexivity. Qed.

Lemma BroadcastProposalRequest_steps {ProposalReq : Type} (c : Cluster)
    (order : list (Z * Peer)) (request : ProposalReq) (filter : gmap Z bool) :
  BroadcastProposalRequest order request filter c =
  let sent := sends (unfiltered filter) "AcceptorRole.Accept" order in
  (Returned (bump (length sent) 0), c,
   EvLock :: (EvAccess FNodes Read :: (go_event <$> sent) ++
              [EvSpawn "wrapReply" (bump (length sent) 0)]) ++ [EvUnlock]).
Proof.
  unfold BroadcastProposalRequest. apply run_locked.
  assert (Hloop := send_loop_run (unfiltered filter) "AcceptorRole.Accept"
                     (propose filter) (propose_eq filter) order 0 c).
  run_block. rewrite Hloop. reflexivity.
Qed.

Lemma BroadcastProposalRequest_run {ProposalReq : Type} (c : Cluster) order
    (request : ProposalReq) (filter : gmap Z bool) :
  ranges (nodes c) order → fits_int (nodes c) →
  BroadcastProposalRequest order request filter c =
  let sent := sends (unfiltered filter) "AcceptorRole.Accept" order in
  (Returned (Z.of_nat (length sent)), c,
   EvLock :: (EvAccess FNodes Read :: (go_event <$> sent) ++
              [EvSpawn "wrapReply" (Z.of_nat (length sent))]) ++ [EvUnlock]).
Proof.
  intros Hr Hfit. rewrite BroadcastProposalRequest_steps. cbn zeta.
  rewrite (sends_count _ _ c order Hr Hfit). reflexivity.
Qed.

(** C8.  [BroadcastProposalRequest] calls [AcceptorRole.Accept] through
    the client of each peer that the filter does not list (does not map to
    [true]) and that has a client, once each, and makes no other call: a
    peer the filter lists is never called, whatever its connection.  The
    count it returns is the number of calls made. *)
Theorem BroadcastProposalRequest_honours_filter {ProposalReq : Type} (c : Cluster)
    (order : list (Z * Peer)) (request : ProposalReq) (filter : gmap Z bool) :
  ranges (nodes c) order →
  fits_int (nodes c) →
  (∀ k via m,
     (k, via, m) ∈ calls (events (BroadcastProposalRequest order request filter c)) ↔
     m = "AcceptorRole.Accept" ∧ filter !! k ≠ Some true ∧
     ∃ p, nodes c !! k = Some p ∧ comm p = Some via) ∧
  NoDup (calls (events (BroadcastProposalRequest order request filter c))) ∧
  outcome (BroadcastProposalRequest order request filter c) =
    Returned (Z.of_nat (length
      (calls (events (BroadcastProposalRequest order request filter c))))).
Proof.
  intros Hr Hfit.
  rewrite (BroadcastProposalRequest_run c order request filter Hr Hfit).
  cbn zeta. unfold events, outcome. cbn [fst snd].
  set (sent := sends (unfiltered filter) "AcceptorRole.Accept" order).
  assert (Hcalls : calls (EvLock :: (EvAccess FNodes Read :: (go_event <$> sent) ++
             [EvSpawn "wrapReply" (Z.of_nat (length sent))]) ++ [EvUnlock]) = sent).
  { read_trace. reflexivity. }
  rewrite Hcalls. subst sent.
  assert (Hf : ∀ k, unfiltered filter (k, zero_Peer) = true ↔ filter !! k ≠ Some true).
  { intros k. unfold unfiltered, filtered. cbn [fst].
    destruct (filter !! k) as [[|]|]; cbn; split; congruence. }
  split; [|split].
  - intros k via m. rewrite elem_of_sends. split.
    + intros [-> [p [Hin [Hflt Hcomm]]]]. split; [reflexivity|].
      split; [apply Hf; exact Hflt|].
      exists p. rewrite <- (ranges_elem_of _ _ _ _ Hr). auto.
    + intros [-> [Hflt [p [Hin Hcomm]]]]. split; [reflexivity|].
      exists p. rewrite (ranges_elem_of _ _ _ _ Hr).
      split; [exact Hin|]. split; [apply Hf; exact Hflt|exact Hcomm].
  - apply NoDup_sends. exact (ranges_NoDup _ _ Hr).
  - reflexivity.
Qed.

(** ** The reply loop of [BroadcastHeartbeat] *)

Lemma pulse_inv_initial (peerCount : Z) : 0 ≤ peerCount → pulse_inv peerCount initial_pulse.
Proof.
  intros Hn. unfold pulse_inv, initial_pulse, was_received. cbn.
  split; [|split; [|split]].
  - split; [discriminate|]. intros [H|[r [H _]]]; [discriminate|]. inversion H.
  - intros k. rewrite lookup_empty. cbn. split; [discriminate|].
    intros [r [H _]]. inversion H.
  - reflexivity.
  - exact Hn.
Qed.

Lemma pulse_inv_take (peerCount : Z) (w : Pulse) (a : Arrival Z) :
  replyCount w < peerCount → pulse_inv peerCount w → pulse_inv peerCount (take_heartbeat w a).
Proof.
  intros Hlt (Hf & Hr & Hc & Hle). unfold pulse_inv, take_heartbeat, was_received in *.
  cbn [failures received replyCount timed_out heard].
  split; [|split; [|split]].
  - destruct (succeeded (call a)) eqn:Hs.
    + rewrite Hf. split.
      * intros [H|[r [Hin Hr']]]; [left; exact H|].
        right. exists r. rewrite elem_of_app. auto.
      * intros [H|[r [Hin Hr']]]; [left; exact H|].
        apply elem_of_app in Hin as [Hin|Hin]; [right; eauto|].
        apply list_elem_of_singleton in Hin. congruence.
    + split; [|reflexivity]. intros _. right. exists (call a).
      rewrite elem_of_app, list_elem_of_singleton. auto.
  - intros k. destruct (succeeded (call a)) eqn:Hs.
    + destruct (decide (Reply (call a) = k)) as [Heq|Hne].
      * rewrite <- Heq, lookup_insert_eq. cbn. split; [|reflexivity].
        intros _. exists (call a). rewrite elem_of_app, list_elem_of_singleton. auto.
      * rewrite lookup_insert_ne by exact Hne. rewrite Hr. split.
        -- intros [r [Hin Hr']]. exists r. rewrite elem_of_app. auto.
        -- intros [r [Hin [Hr1 Hr2]]].
           apply elem_of_app in Hin as [Hin|Hin]; [eauto|].
           apply list_elem_of_singleton in Hin. congruence.
    + rewrite Hr. split.
      * intros [r [Hin Hr']]. exists r. rewrite elem_of_app. auto.
      * intros [r [Hin [Hr1 Hr2]]].
        apply elem_of_app in Hin as [Hin|Hin]; [eauto|].
        apply list_elem_of_singleton in Hin. congruence.
  - intros Ht. rewrite length_app, Hc by exact Ht. cbn. lia.
  - lia.
Qed.

Lemma pulse_inv_expire (peerCount : Z) (w : Pulse) :
  pulse_inv peerCount w → pulse_inv peerCount (expire_heartbeat peerCount w).
Proof.
  intros (Hf & Hr & Hc & Hle). unfold pulse_inv, expire_heartbeat, was_received in *.
  cbn [failures received replyCount timed_out heard].
  split; [|split; [|split]]; [tauto|exact Hr|discriminate|lia].
Qed.

(** What the reply loop guarantees when it is left. *)
Lemma await_heartbeats_spec (peerCount : Z) (endpoint : list (Arrival Z)) (w : Pulse) :
  pulse_inv peerCount w →
  pulse_inv peerCount (await_heartbeats peerCount w endpoint).1 ∧
  replyCount (await_heartbeats peerCount w endpoint).1 = peerCount ∧
  (∃ read, read `prefix_of` endpoint ∧
     heard (await_heartbeats peerCount w endpoint).1 = heard w ++ (call <$> read)) ∧
  Forall (λ e, e = EvSelect heartbeat_window) (await_heartbeats peerCount w endpoint).2 ∧
  (replyCount w < peerCount → (await_heartbeats peerCount w endpoint).2 ≠ []).
Proof.
  revert w. induction endpoint as [|a rest IH]; intros w Hinv.
  - cbn. destruct (replyCount w <? peerCount) eqn:Hlt; cbn.
    + split; [apply pulse_inv_expire; exact Hinv|]. split; [reflexivity|].
      split; [exists []; split; [apply prefix_nil|cbn; rewrite app_nil_r; reflexivity]|].
      split; [repeat constructor|discriminate].
    + apply Z.ltb_ge in Hlt. pose proof Hinv as (_ & _ & _ & Hle).
      split; [exact Hinv|]. split; [lia|].
      split; [exists []; split; [apply prefix_nil|cbn; rewrite app_nil_r; reflexivity]|].
      split; [constructor|lia].
  - cbn [await_heartbeats]. destruct (replyCount w <? peerCount) eqn:Hlt.
    + apply Z.ltb_lt in Hlt.
      destruct (at_ms a <? now w + heartbeat_window).
      * destruct (IH (take_heartbeat w a) (pulse_inv_take _ _ _ Hlt Hinv))
          as (H1 & H2 & (read & Hpre & Hheard) & H4 & _).
        destruct (await_heartbeats peerCount (take_heartbeat w a) rest) as [w' t].
        cbn [fst snd] in *. split; [exact H1|]. split; [exact H2|].
        split.
        -- exists (a :: read). split; [apply prefix_cons; exact Hpre|].
           rewrite Hheard. cbn. rewrite <- app_assoc. reflexivity.
        -- split; [constructor; [reflexivity|exact H4]|discriminate].
      * cbn. split; [apply pulse_inv_expire; exact Hinv|]. split; [reflexivity|].
        split; [exists []; split; [apply prefix_nil|cbn; rewrite app_nil_r; reflexivity]|].
        split; [repeat constructor|discriminate].
    + apply Z.ltb_ge in Hlt. pose proof Hinv as (_ & _ & _ & Hle). cbn.
      split; [exact Hinv|]. split; [lia|].
      split; [exists []; split; [apply prefix_nil|cbn; rewrite app_nil_r; reflexivity]|].
      split; [constructor|lia].
Qed.

(** A round that reads fewer replies than there are nodes ends by its
    timer. *)
Lemma await_heartbeats_short (peerCount : Z) (endpoint : list (Arrival Z)) :
  0 ≤ peerCount →
  Z.of_nat (length endpoint) < peerCount →
  timed_out (await_heartbeats peerCount initial_pulse endpoint).1 = true.
Proof.
  intros Hn Hshort.
  destruct (await_heartbeats_spec peerCount endpoint initial_pulse
              (pulse_inv_initial _ Hn)) as ((_ & _ & Hc & _) & Hcount & (read & Hpre & Hheard) & _).
  destruct (timed_out (await_heartbeats peerCount initial_pulse endpoint).1) eqn:Ht;
    [reflexivity|].
  specialize (Hc eq_refl). rewrite Hheard in Hc. cbn in Hc.
  rewrite length_fmap in Hc. apply prefix_length in Hpre. lia.
Qed.

(** ** Loops whose body always returns *)

Lemma for_range_steps {A : Type} (body : unit → A → M unit)
    (st : A → Cluster → Cluster) (tr : A → Cluster → list Event) :
  (∀ a c, body tt a c = (Returned tt, st a c, tr a c)) →
  ∀ l c, for_range l body tt c = (Returned tt, steps st l c, steps_trace st tr l c).
Proof.
  intros Hbody l. induction l as [|a rest IH]; intros c.
  - reflexivity.
  - cbn [for_range]. rewrite run_bind, Hbody, IH. reflexivity.
Qed.

Lemma steps_invariant {A : Type} (st : A → Cluster → Cluster) (I : Cluster → Prop)
    (l : list A) (c : Cluster) :
  (∀ a c', a ∈ l → I c' → I (st a c')) → I c → I (steps st l c).
Proof.
  revert c. induction l as [|a rest IH]; intros c Hstep Hc; [exact Hc|].
  cbn. apply IH.
  - intros b c' Hb. apply Hstep. right. exact Hb.
  - apply Hstep; [left|exact Hc].
Qed.

Lemma steps_trace_Forall {A : Type} (st : A → Cluster → Cluster)
    (tr : A → Cluster → list Event) (T : Event → Prop) (l : list A) (c : Cluster) :
  (∀ a c', Forall T (tr a c')) → Forall T (steps_trace st tr l c).
Proof.
  intros Htr. revert c. induction l as [|a rest IH]; intros c; cbn.
  - constructor.
  - apply Forall_app. split; [apply Htr|apply IH].
Qed.

(** ** Counting the entries of a map that satisfy a predicate *)

Section Counting.
Context (P : Z * Peer → Prop) `{!∀ x, Decision (P x)}.

Lemma len_filter_insert_fresh (m : gmap Z Peer) (k : Z) (p : Peer) :
  m !! k = None →
  len (filter P (<[k := p]> m)) = len (filter P m) + weight P (k, p).
Proof.
  intros Hk. unfold len, weight. rewrite map_filter_insert.
  destruct (decide (P (k, p))).
  - rewrite map_size_insert_None; [lia|].
    apply map_lookup_filter_None_2. left. exact Hk.
  - rewrite delete_id by exact Hk. lia.
Qed.

Lemma len_filter_update (m : gmap Z Peer) (k : Z) (p p' : Peer) :
  m !! k = Some p →
  len (filter P (<[k := p']> m)) = len (filter P m) - weight P (k, p) + weight P (k, p').
Proof.
  intros Hk.
  rewrite <- (insert_delete_id m k p Hk) at 2.
  rewrite <- (insert_delete_eq m k p').
  rewrite !len_filter_insert_fresh by apply lookup_delete_eq. lia.
Qed.

Lemma len_filter_none (m : gmap Z Peer) :
  (∀ k p, m !! k = Some p → ¬ P (k, p)) → len (filter P m) = 0.
Proof.
  intros Hnone. unfold len.
  assert (Hempty : filter P m = ∅).
  { apply map_eq. intros k. rewrite lookup_empty.
    apply map_lookup_filter_None_2.
    destruct (m !! k) as [p|] eqn:Hk; [right|left; reflexivity].
    intros x [= <-]. apply Hnone. exact Hk. }
  rewrite Hempty. reflexivity.
Qed.

Lemma len_filter_bounds (m : gmap Z Peer) : 0 ≤ len (filter P m) ≤ len m.
Proof. unfold len. pose proof (map_size_filter P m). lia. Qed.

Lemma len_filter_pos (m : gmap Z Peer) (k : Z) (p : Peer) :
  m !! k = Some p → P (k, p) → 1 ≤ len (filter P m).
Proof.
  intros Hk HP.
  rewrite <- (insert_delete_id m k p Hk).
  rewrite len_filter_insert_fresh by apply lookup_delete_eq.
  unfold weight. rewrite decide_True by exact HP.
  pose proof (len_filter_bounds (delete k m)). lia.
Qed.
End Counting.

(** ** The count of skipped promises *)

Lemma with_requirePromise_same (p : Peer) : with_requirePromise (requirePromise p) p = p.
Proof. destruct p; reflexivity. Qed.

Lemma count_skipping_update (n : gmap Z Peer) (k : Z) (p : Peer) (required : bool) :
  n !! k = Some p →
  count_skipping (<[k := with_requirePromise required p]> n) =
  count_skipping n - (if requirePromise p then 0 else 1) + (if required then 0 else 1).
Proof.
  intros Hk. unfold count_skipping, skipping.
  rewrite (len_filter_update _ n k p _ Hk). unfold weight. cbn [snd requirePromise with_requirePromise].
  destruct (requirePromise p), required; repeat case_decide; congruence || lia.
Qed.

Lemma count_skipping_bounds (n : gmap Z Peer) : 0 ≤ count_skipping n ≤ len n.
Proof. apply len_filter_bounds. Qed.

Lemma count_skipping_pos (n : gmap Z Peer) (k : Z) (p : Peer) :
  n !! k = Some p → requirePromise p = false → 1 ≤ count_skipping n.
Proof. intros Hk Hp. apply (len_filter_pos _ n k p Hk). exact Hp. Qed.

Lemma len_insert_present {V : Type} (m : gmap Z V) (k : Z) (v : V) :
  is_Some (m !! k) → len (<[k := v]> m) = len m.
Proof. intros H. unfold len. rewrite map_size_insert_Some by exact H. reflexivity. Qed.

Lemma fits_uint64 {V : Type} (m : gmap Z V) (x : Z) :
  fits_int m → 0 ≤ x ≤ len m → wrap64 x = x.
Proof.
  unfold fits_int. intros Hfit Hx. apply wrap64_small.
  pose proof max_int_lt_modulus. lia.
Qed.

(** ** [SetPromiseRequirement] *)

Lemma SetPromiseRequirement_run (role : Z) (required : bool) (c : Cluster) :
  SetPromiseRequirement role required c =
  (Returned tt, promise_set role required c,
   EvLock :: (EvAccess FNodes Read ::
     (if Bool.eqb (requirePromise (default zero_Peer (nodes c !! role))) required then []
      else [EvAccess FSkipPromiseCount Read; EvAccess FSkipPromiseCount Write]) ++
     [EvAccess FNodes Write]) ++ [EvUnlock]).
Proof.
  unfold SetPromiseRequirement. apply run_locked.
  unfold promise_set, decr_skipPromiseCount, incr_skipPromiseCount. run_block.
  destruct (requirePromise (default zero_Peer (nodes c !! role))), required; reflexivity.
Qed.

(** For a role of the cluster, [SetPromiseRequirement] keeps
    [skipPromiseCount] equal to the number of peers that need no promise. *)
Lemma promise_set_consistent (role : Z) (required : bool) (c : Cluster) :
  is_Some (nodes c !! role) →
  fits_int (nodes c) →
  count_consistent c →
  count_consistent (promise_set role required c) ∧
  fits_int (nodes (promise_set role required c)) ∧
  dom (nodes (promise_set role required c)) = dom (nodes c).
Proof.
  intros [p Hp] Hfit Hc. unfold count_consistent, promise_set in *. rewrite Hp.
  cbn [default from_option id nodes skipPromiseCount].
  rewrite (count_skipping_update _ _ _ _ Hp).
  pose proof (count_skipping_bounds (nodes c)) as Hb.
  split; [|split].
  - destruct (requirePromise p) eqn:Hreq, required; cbn [Bool.eqb].
    + lia.
    + rewrite Hc. rewrite (fits_uint64 (nodes c)); [lia|exact Hfit|].
      pose proof (count_skipping_bounds (<[role := with_requirePromise false p]> (nodes c))) as Hb'.
      rewrite (count_skipping_update _ _ _ _ Hp), Hreq in Hb'.
      rewrite len_insert_present in Hb' by eauto. lia.
    + rewrite Hc. rewrite (fits_uint64 (nodes c)); [lia|exact Hfit|].
      pose proof (count_skipping_pos _ _ _ Hp Hreq). lia.
    + lia.
  - unfold fits_int. rewrite len_insert_present by eauto. exact Hfit.
  - apply dom_insert_lookup_L. eauto.
Qed.

(** ** The loops of [BroadcastHeartbeat] *)

Lemma pulse_loop_run (entries : list (Z * Peer)) (c : Cluster) :
  for_range entries pulse tt c =
  (Returned tt, c, go_event <$> sends (λ _, true) "ProposerRole.Heartbeat" entries).
Proof.
  induction entries as [|e rest IH]; [reflexivity|].
  cbn [for_range]. rewrite run_bind, sends_cons. unfold pulse at 1.
  destruct (comm e.2) as [via|]; cbn; rewrite IH; reflexivity.
Qed.

Lemma demote_run (w : Pulse) (e : Z * Peer) (c : Cluster) :
  demote w tt e c = (Returned tt, demoted w e c, demote_trace w e c).
Proof.
  unfold demote, demoted, demote_trace, decr_skipPromiseCount.
  destruct (was_received w e.1); [reflexivity|].
  run_block. cbn [negb].
  destruct (requirePromise (default zero_Peer (nodes c !! e.1))); reflexivity.
Qed.

Lemma demoted_promise_set (w : Pulse) (e : Z * Peer) (c : Cluster) :
  demoted w e c = if was_received w e.1 then c else promise_set e.1 true c.
Proof.
  unfold demoted, promise_set. destruct (was_received w e.1); [reflexivity|].
  destruct (requirePromise (default zero_Peer (nodes c !! e.1))); reflexivity.
Qed.

Lemma BroadcastHeartbeat_run (order order' : list (Z * Peer)) (endpoint : list (Arrival Z))
    (role : Z) (c : Cluster) :
  BroadcastHeartbeat order order' endpoint role c =
  (Returned tt,
   (if failures (heartbeat_replies c endpoint)
    then steps (demoted (heartbeat_replies c endpoint)) order' c else c),
   EvLock ::
     (EvAccess FNodes Read :: EvAccess FNodes Read ::
      (go_event <$> sends (λ _, true) "ProposerRole.Heartbeat" order) ++
      (await_heartbeats (len (nodes c)) initial_pulse endpoint).2 ++
      (if failures (heartbeat_replies c endpoint)
       then EvAccess FNodes Read ::
            steps_trace (demoted (heartbeat_replies c endpoint))
              (demote_trace (heartbeat_replies c endpoint)) order' c
       else [])) ++ [EvUnlock]).
Proof.
  unfold BroadcastHeartbeat. apply run_locked.
  unfold heartbeat_replies, collect_heartbeats. run_block.
  rewrite pulse_loop_run.
  destruct (await_heartbeats (len (nodes c)) initial_pulse endpoint) as [w t].
  cbn [fst snd]. destruct (failures w).
  - rewrite (for_range_steps _ _ _ (demote_run w)). reflexivity.
  - reflexivity.
Qed.

(** *** What the demotions do to the peers *)

Lemma demoted_lookup (w : Pulse) (e : Z * Peer) (c : Cluster) (k : Z) :
  is_Some (nodes c !! e.1) →
  nodes (demoted w e c) !! k =
  if decide (k = e.1) then lowered w k <$> nodes c !! k else nodes c !! k.
Proof.
  intros [p Hp]. unfold demoted, lowered.
  destruct (decide (k = e.1)) as [->|Hne].
  - rewrite Hp. destruct (was_received w e.1); [exact Hp|].
    cbn. apply lookup_insert_eq.
  - destruct (was_received w e.1); [reflexivity|].
    cbn. apply lookup_insert_ne. congruence.
Qed.

Lemma lowered_twice (w : Pulse) (k : Z) (p : Peer) :
  lowered w k (lowered w k p) = lowered w k p.
Proof. unfold lowered. destruct (was_received w k); reflexivity. Qed.

Lemma steps_demoted_lookup (w : Pulse) (l : list (Z * Peer)) (c : Cluster) (k : Z) :
  (∀ e, e ∈ l → is_Some (nodes c !! e.1)) →
  nodes (steps (demoted w) l c) !! k =
  if decide (k ∈ l.*1) then lowered w k <$> nodes c !! k else nodes c !! k.
Proof.
  revert c. induction l as [|e rest IH]; intros c Hkeys.
  - cbn. rewrite decide_False by apply not_elem_of_nil. reflexivity.
  - assert (He : is_Some (nodes c !! e.1)) by (apply Hkeys; left).
    cbn [steps foldl]. fold (steps (demoted w) rest (demoted w e c)).
    rewrite IH.
    + rewrite !(demoted_lookup w e c) by exact He.
      cbn [fmap list_fmap].
      destruct (decide (k = e.1)) as [->|Hne].
      * rewrite (decide_True (P := e.1 ∈ e.1 :: rest.*1)) by left.
        destruct (decide (e.1 ∈ rest.*1)); [|reflexivity].
        destruct (nodes c !! e.1); [|reflexivity].
        cbn. rewrite lowered_twice. reflexivity.
      * destruct (decide (k ∈ rest.*1)) as [Hin|Hnin].
        -- rewrite decide_True by (right; exact Hin). reflexivity.
        -- rewrite decide_False; [reflexivity|].
           intros [?|?]%elem_of_cons; contradiction.
    + intros e' He'. rewrite demoted_lookup by exact He.
      destruct (decide (e'.1 = e.1)) as [Heq|Hne].
      * rewrite Heq. destruct He as [p ->]. eauto.
      * apply Hkeys. right. exact He'.
Qed.

Lemma ranges_key_in {V : Type} (m : gmap Z V) (order : list (Z * V)) (k : Z) :
  ranges m order → k ∈ order.*1 ↔ is_Some (m !! k).
Proof.
  intros Hr. rewrite list_elem_of_fmap. split.
  - intros [[k' v] [-> Hin]]. apply (ranges_elem_of _ _ _ _ Hr) in Hin. eauto.
  - intros [v Hv]. exists (k, v). split; [reflexivity|].
    apply (ranges_elem_of _ _ _ _ Hr). exact Hv.
Qed.

Lemma ranges_keys_present {V : Type} (m : gmap Z V) (order : list (Z * V)) :
  ranges m order → ∀ e, e ∈ order → is_Some (m !! e.1).
Proof.
  intros Hr [k v] Hin. apply (ranges_elem_of _ _ _ _ Hr) in Hin. cbn. eauto.
Qed.

(** After the second loop every peer that did not answer requires a
    promise; the others are as they were. *)
Lemma demotions_lookup (w : Pulse) (order' : list (Z * Peer)) (c : Cluster) (k : Z) :
  ranges (nodes c) order' →
  nodes (steps (demoted w) order' c) !! k = lowered w k <$> nodes c !! k.
Proof.
  intros Hr. rewrite steps_demoted_lookup by exact (ranges_keys_present _ _ Hr).
  destruct (decide (k ∈ order'.*1)) as [Hin|Hnin]; [reflexivity|].
  rewrite (ranges_key_in _ _ _ Hr) in Hnin.
  destruct (nodes c !! k); [|reflexivity]. exfalso. eauto.
Qed.

(** *** What the demotions do to [skipPromiseCount] *)

Lemma wrap64_range (x : Z) : is_uint64 (wrap64 x).
Proof. unfold is_uint64, wrap64. apply Z.mod_pos_bound. reflexivity. Qed.

Lemma wrap64_sub_l (a b : Z) : wrap64 (wrap64 a - b) = wrap64 (a - b).
Proof. unfold wrap64. apply Zminus_mod_idemp_l. Qed.

(** One demotion keeps the difference between the counter and the number
    of peers still to demote. *)
Lemma demoted_balance (w : Pulse) (e : Z * Peer) (c : Cluster) :
  is_Some (nodes c !! e.1) →
  is_uint64 (skipPromiseCount c) →
  wrap64 (skipPromiseCount (demoted w e c) - len (filter (loses_skip w) (nodes (demoted w e c)))) =
    wrap64 (skipPromiseCount c - len (filter (loses_skip w) (nodes c))) ∧
  is_uint64 (skipPromiseCount (demoted w e c)).
Proof.
  intros [p Hp] Hu. unfold demoted. rewrite Hp. cbn [default from_option id].
  destruct (was_received w e.1) eqn:Hrecv; [auto|].
  cbn [nodes skipPromiseCount].
  rewrite (len_filter_update _ _ _ _ _ Hp). unfold weight.
  destruct (decide (loses_skip w (e.1, with_requirePromise true p))) as [[_ Habs]|_];
    [discriminate Habs|].
  destruct (decide (loses_skip w (e.1, p))) as [[_ Hreq]|Hkeep]; cbn [snd] in *.
  - rewrite Hreq. split; [|apply wrap64_range]. rewrite wrap64_sub_l. f_equal. lia.
  - destruct (requirePromise p) eqn:Hreq.
    + split; [|exact Hu]. f_equal. lia.
    + exfalso. apply Hkeep. split; [exact Hrecv|exact Hreq].
Qed.

Lemma demotions_balance (w : Pulse) (l : list (Z * Peer)) (c : Cluster) :
  (∀ e, e ∈ l → is_Some (nodes c !! e.1)) →
  is_uint64 (skipPromiseCount c) →
  wrap64 (skipPromiseCount (steps (demoted w) l c) -
          len (filter (loses_skip w) (nodes (steps (demoted w) l c)))) =
    wrap64 (skipPromiseCount c - len (filter (loses_skip w) (nodes c))) ∧
  is_uint64 (skipPromiseCount (steps (demoted w) l c)).
Proof.
  intros Hkeys Hu.
  pose (I := λ c' : Cluster,
    (∀ e, e ∈ l → is_Some (nodes c' !! e.1)) ∧
    wrap64 (skipPromiseCount c' - len (filter (loses_skip w) (nodes c'))) =
      wrap64 (skipPromiseCount c - len (filter (loses_skip w) (nodes c))) ∧
    is_uint64 (skipPromiseCount c')).
  assert (HI : I (steps (demoted w) l c)).
  { apply steps_invariant.
    - intros e c' He (Hk' & Hbal & Hu').
      destruct (demoted_balance w e c' (Hk' e He) Hu') as [Hb1 Hb2].
      split; [|split; [congruence|exact Hb2]].
      intros e' He'. rewrite demoted_lookup by exact (Hk' e He).
      destruct (decide (e'.1 = e.1)) as [Heq|Hne]; [|exact (Hk' e' He')].
      destruct (Hk' e' He') as [p ->]. eauto.
    - split; [exact Hkeys|]. split; [reflexivity|exact Hu]. }
  destruct HI as (_ & Hbal & Hu'). auto.
Qed.

(** The counter after the second loop: one less for each peer that did not
    answer and needed no promise. *)
Lemma demotions_skipPromiseCount (w : Pulse) (order' : list (Z * Peer)) (c : Cluster) :
  ranges (nodes c) order' →
  is_uint64 (skipPromiseCount c) →
  skipPromiseCount (steps (demoted w) order' c) =
  wrap64 (skipPromiseCount c - len (filter (loses_skip w) (nodes c))).
Proof.
  intros Hr Hu.
  destruct (demotions_balance w order' c (ranges_keys_present _ _ Hr) Hu) as [Hbal Hu'].
  rewrite <- Hbal. rewrite len_filter_none.
  - rewrite Z.sub_0_r. symmetry. apply wrap64_small. exact Hu'.
  - intros k p Hk [Hrecv Hreq]. cbn [fst snd] in *.
    rewrite (demotions_lookup w order' c k Hr) in Hk.
    destruct (nodes c !! k) as [p0|]; [|discriminate].
    cbn in Hk. injection Hk as <-. unfold lowered in Hreq.
    rewrite Hrecv in Hreq. discriminate.
Qed.

(** The second loop keeps the counter equal to the number of peers that
    need no promise. *)
Lemma demotions_consistent (w : Pulse) (l : list (Z * Peer)) (c : Cluster) :
  (∀ e, e ∈ l → is_Some (nodes c !! e.1)) →
  fits_int (nodes c) →
  count_consistent c →
  count_consistent (steps (demoted w) l c) ∧
  fits_int (nodes (steps (demoted w) l c)) ∧
  dom (nodes (steps (demoted w) l c)) = dom (nodes c).
Proof.
  intros Hkeys Hfit Hc.
  pose (I := λ c' : Cluster,
    count_consistent c' ∧ fits_int (nodes c') ∧ dom (nodes c') = dom (nodes c)).
  apply (steps_invariant (demoted w) I).
  - intros e c' He (Hc' & Hfit' & Hdom). rewrite demoted_promise_set.
    destruct (was_received w e.1); [split; [|split]; assumption|].
    assert (Hin : is_Some (nodes c' !! e.1)).
    { apply elem_of_dom. rewrite Hdom. apply elem_of_dom. exact (Hkeys e He). }
    destruct (promise_set_consistent e.1 true c' Hin Hfit' Hc') as (H1 & H2 & H3).
    split; [exact H1|]. split; [exact H2|]. congruence.
  - split; [exact Hc|]. split; [exact Hfit|reflexivity].
Qed.

(** *** What the demotions send and do *)

Lemma demote_trace_reported (w : Pulse) (e : Z * Peer) (c : Cluster) :
  reported (demote_trace w e c) = if was_received w e.1 then [] else [e.1].
Proof.
  unfold demote_trace. destruct (was_received w e.1); [reflexivity|].
  destruct (requirePromise (default zero_Peer (nodes c !! e.1))); reflexivity.
Qed.

Lemma demote_trace_calls (w : Pulse) (e : Z * Peer) (c : Cluster) :
  calls (demote_trace w e c) = [].
Proof.
  unfold demote_trace. destruct (was_received w e.1); [reflexivity|].
  destruct (requirePromise (default zero_Peer (nodes c !! e.1))); reflexivity.
Qed.

Lemma demote_trace_quiet (w : Pulse) (e : Z * Peer) (c : Cluster) :
  Forall quiet (demote_trace w e c).
Proof.
  unfold demote_trace. destruct (was_received w e.1); [constructor|].
  destruct (requirePromise (default zero_Peer (nodes c !! e.1)));
    repeat constructor.
Qed.

Lemma demotions_reported (w : Pulse) (l : list (Z * Peer)) (c : Cluster) :
  reported (steps_trace (demoted w) (demote_trace w) l c) =
  filter (λ k, was_received w k = false) l.*1.
Proof.
  revert c. induction l as [|e rest IH]; intros c; [reflexivity|].
  cbn [steps_trace fmap list_fmap]. rewrite reported_app, demote_trace_reported, IH.
  rewrite filter_cons. destruct (was_received w e.1); reflexivity.
Qed.

Lemma demotions_calls (w : Pulse) (l : list (Z * Peer)) (c : Cluster) :
  calls (steps_trace (demoted w) (demote_trace w) l c) = [].
Proof.
  revert c. induction l as [|e rest IH]; intros c; [reflexivity|].
  cbn [steps_trace]. rewrite calls_app, demote_trace_calls, IH. reflexivity.
Qed.

(** ** [BroadcastHeartbeat] *)

Lemma selects_silent (t : list Event) :
  Forall (λ e, e = EvSelect heartbeat_window) t → calls t = [] ∧ reported t = [].
Proof.
  induction 1 as [|e t He _ [IH1 IH2]]; [auto|].
  subst e. rewrite calls_cons, reported_cons. auto.
Qed.

Lemma await_heartbeats_silent (c : Cluster) (endpoint : list (Arrival Z)) :
  calls (await_heartbeats (len (nodes c)) initial_pulse endpoint).2 = [] ∧
  reported (await_heartbeats (len (nodes c)) initial_pulse endpoint).2 = [].
Proof.
  apply selects_silent.
  apply (await_heartbeats_spec (len (nodes c)) endpoint initial_pulse).
  apply pulse_inv_initial. unfold len. lia.
Qed.

(** The heartbeats of a round go to the peers that have a client. *)
Lemma BroadcastHeartbeat_calls (order order' : list (Z * Peer)) (endpoint : list (Arrival Z))
    (role : Z) (c : Cluster) :
  calls (events (BroadcastHeartbeat order order' endpoint role c)) =
  sends (λ _, true) "ProposerRole.Heartbeat" order.
Proof.
  rewrite BroadcastHeartbeat_run. unfold events. cbn [snd].
  destruct (await_heartbeats_silent c endpoint) as [Hcalls _].
  destruct (failures (heartbeat_replies c endpoint)); read_trace;
    rewrite Hcalls, ?demotions_calls; read_trace; reflexivity.
Qed.

(** What a round in which failures were observed does. *)
Lemma BroadcastHeartbeat_failures (order order' : list (Z * Peer))
    (endpoint : list (Arrival Z)) (role : Z) (c : Cluster) :
  ranges (nodes c) order' →
  is_uint64 (skipPromiseCount c) →
  failures (heartbeat_replies c endpoint) = true →
  (∀ k, nodes (final (BroadcastHeartbeat order order' endpoint role c)) !! k =
        lowered (heartbeat_replies c endpoint) k <$> nodes c !! k) ∧
  skipPromiseCount (final (BroadcastHeartbeat order order' endpoint role c)) =
    wrap64 (skipPromiseCount c -
            len (filter (loses_skip (heartbeat_replies c endpoint)) (nodes c))) ∧
  (∀ k, k ∈ reported (events (BroadcastHeartbeat order order' endpoint role c)) ↔
        is_Some (nodes c !! k) ∧ was_received (heartbeat_replies c endpoint) k = false) ∧
  NoDup (reported (events (BroadcastHeartbeat order order' endpoint role c))).
Proof.
  intros Hr Hu Hfail. rewrite BroadcastHeartbeat_run, Hfail.
  unfold final, events. cbn [fst snd].
  destruct (await_heartbeats_silent c endpoint) as [_ Hrep].
  assert (Hreported :
    reported (EvLock ::
      (EvAccess FNodes Read :: EvAccess FNodes Read ::
       (go_event <$> sends (λ _, true) "ProposerRole.Heartbeat" order) ++
       (await_heartbeats (len (nodes c)) initial_pulse endpoint).2 ++
       EvAccess FNodes Read ::
       steps_trace (demoted (heartbeat_replies c endpoint))
         (demote_trace (heartbeat_replies c endpoint)) order' c) ++ [EvUnlock]) =
    filter (λ k, was_received (heartbeat_replies c endpoint) k = false) order'.*1).
  { read_trace. rewrite Hrep, demotions_reported. read_trace. reflexivity. }
  rewrite Hreported.
  split; [|split; [|split]].
  - intros k. apply demotions_lookup. exact Hr.
  - apply demotions_skipPromiseCount; assumption.
  - intros k. rewrite list_elem_of_filter, (ranges_key_in _ _ _ Hr). tauto.
  - apply NoDup_filter. exact (ranges_NoDup _ _ Hr).
Qed.

(** C3.  In a heartbeat round, failures are observed exactly when a reply
    read carries an error or a wait for the next reply ran into its 500 ms
    timer, and a node counts as having replied exactly when a reply without
    error carrying its role was read.  When failures are observed, every
    node that did not reply gets [requirePromise = true] (its other fields
    and all other nodes stay as they were), [skipPromiseCount] decreases by
    one for each such node that had [requirePromise = false] and for no
    other, and the roles sent on [registerBadConnection] are those of the
    nodes that did not reply, each once. *)
Theorem BroadcastHeartbeat_demotes_silent_nodes (order order' : list (Z * Peer))
    (endpoint : list (Arrival Z)) (role : Z) (c : Cluster) :
  ranges (nodes c) order' →
  is_uint64 (skipPromiseCount c) →
  (failures (heartbeat_replies c endpoint) = true ↔
     timed_out (heartbeat_replies c endpoint) = true ∨
     ∃ r, r ∈ heard (heartbeat_replies c endpoint) ∧ succeeded r = false) ∧
  (∀ k, was_received (heartbeat_replies c endpoint) k = true ↔
     ∃ r, r ∈ heard (heartbeat_replies c endpoint) ∧ succeeded r = true ∧ Reply r = k) ∧
  (failures (heartbeat_replies c endpoint) = true →
     outcome (BroadcastHeartbeat order order' endpoint role c) = Returned tt ∧
     (∀ k p, nodes c !! k = Some p →
        nodes (final (BroadcastHeartbeat order order' endpoint role c)) !! k =
        Some (if was_received (heartbeat_replies c endpoint) k then p
              else with_requirePromise true p)) ∧
     (∀ k, nodes c !! k = None →
        nodes (final (BroadcastHeartbeat order order' endpoint role c)) !! k = None) ∧
     skipPromiseCount (final (BroadcastHeartbeat order order' endpoint role c)) =
       wrap64 (skipPromiseCount c -
               len (filter (loses_skip (heartbeat_replies c endpoint)) (nodes c))) ∧
     (∀ k, k ∈ reported (events (BroadcastHeartbeat order order' endpoint role c)) ↔
        is_Some (nodes c !! k) ∧ was_received (heartbeat_replies c endpoint) k = false) ∧
     NoDup (reported (events (BroadcastHeartbeat order order' endpoint role c)))).
Proof.
  intros Hr Hu.
  assert (Hinv : pulse_inv (len (nodes c)) (heartbeat_replies c endpoint)).
  { apply (await_heartbeats_spec (len (nodes c)) endpoint initial_pulse).
    apply pulse_inv_initial. unfold len. lia. }
  destruct Hinv as (Hf & Hrecv & _).
  split; [exact Hf|]. split; [exact Hrecv|].
  intros Hfail.
  destruct (BroadcastHeartbeat_failures order order' endpoint role c Hr Hu Hfail)
    as (Hlook & Hskip & Hrep & Hnd).
  split; [rewrite BroadcastHeartbeat_run; reflexivity|].
  split; [intros k p Hk; rewrite Hlook, Hk; reflexivity|].
  split; [intros k Hk; rewrite Hlook, Hk; reflexivity|].
  auto.
Qed.

(** C10.  [BroadcastHeartbeat] sends heartbeats only through the clients
    that exist, but its reply loop runs until it has read as many replies
    as [nodes] has entries, or until a wait runs into the timer.  So when
    some entry has no client (and each call is answered at most once), the
    loop ends by the timer, failures are observed, and every node that did
    not reply is demoted and sent on [registerBadConnection]. *)
Theorem BroadcastHeartbeat_waits_for_all_nodes (order order' : list (Z * Peer))
    (endpoint : list (Arrival Z)) (role : Z) (c : Cluster) :
  ranges (nodes c) order →
  ranges (nodes c) order' →
  is_uint64 (skipPromiseCount c) →
  (∀ k via m,
     (k, via, m) ∈ calls (events (BroadcastHeartbeat order order' endpoint role c)) ↔
     m = "ProposerRole.Heartbeat" ∧ ∃ p, nodes c !! k = Some p ∧ comm p = Some via) ∧
  (timed_out (heartbeat_replies c endpoint) = false →
     Z.of_nat (length (heard (heartbeat_replies c endpoint))) = len (nodes c)) ∧
  ((∃ k p, nodes c !! k = Some p ∧ comm p = None) →
   (length endpoint ≤
      length (calls (events (BroadcastHeartbeat order order' endpoint role c))))%nat →
   timed_out (heartbeat_replies c endpoint) = true ∧
   failures (heartbeat_replies c endpoint) = true ∧
   (∀ k p, nodes c !! k = Some p →
      was_received (heartbeat_replies c endpoint) k = false →
      nodes (final (BroadcastHeartbeat order order' endpoint role c)) !! k =
        Some (with_requirePromise true p) ∧
      k ∈ reported (events (BroadcastHeartbeat order order' endpoint role c)))).
Proof.
  intros Hr Hr' Hu.
  assert (Hn : 0 ≤ len (nodes c)) by (unfold len; lia).
  destruct (await_heartbeats_spec (len (nodes c)) endpoint initial_pulse
              (pulse_inv_initial _ Hn)) as ((Hf & _ & Hc & _) & Hcount & _).
  fold (heartbeat_replies c endpoint) in Hf, Hc, Hcount.
  rewrite BroadcastHeartbeat_calls.
  split; [|split].
  - intros k via m. rewrite elem_of_sends. split.
    + intros [-> [p [Hin [_ Hcomm]]]]. split; [reflexivity|].
      exists p. rewrite <- (ranges_elem_of _ _ _ _ Hr). auto.
    + intros [-> [p [Hin Hcomm]]]. split; [reflexivity|].
      exists p. rewrite (ranges_elem_of _ _ _ _ Hr). auto.
  - intros Ht. rewrite <- (Hc Ht). exact Hcount.
  - intros (k0 & p0 & Hk0 & Hnil) Hanswers.
    assert (Hfew : (length (sends (λ _, true) "ProposerRole.Heartbeat" order)
                    < length order)%nat).
    { apply (ranges_elem_of _ _ _ _ Hr) in Hk0. clear -Hk0 Hnil.
      induction order as [|e rest IH]; [inversion Hk0|].
      rewrite sends_cons. cbn [length].
      pose proof (sends_length (λ _, true) "ProposerRole.Heartbeat" rest) as Hle.
      apply elem_of_cons in Hk0 as [<-|Hin].
      - cbn [snd]. rewrite Hnil. cbn. lia.
      - specialize (IH Hin).
        destruct (comm e.2); cbn [fmap option_fmap option_map length]; lia. }
    assert (Htimed : timed_out (heartbeat_replies c endpoint) = true).
    { apply await_heartbeats_short; [exact Hn|].
      rewrite <- (ranges_length _ _ Hr). lia. }
    assert (Hfail : failures (heartbeat_replies c endpoint) = true)
      by (apply Hf; left; exact Htimed).
    split; [exact Htimed|]. split; [exact Hfail|].
    intros k p Hk Hsilent.
    destruct (BroadcastHeartbeat_failures order order' endpoint role c Hr' Hu Hfail)
      as (Hlook & _ & Hrep & _).
    split.
    + rewrite Hlook, Hk. unfold lowered. rewrite Hsilent. reflexivity.
    + apply Hrep. eauto.
Qed.

(** ** [ConstructCluster] *)

Lemma build_peers_from (acc : gmap Z Peer) (entries : list (Z * string)) (k : Z) :
  NoDup entries.*1 →
  foldl (λ peers entry, <[entry.1 := newPeer entry.1 entry.2]> peers) acc entries !! k =
  match (list_to_map entries : gmap Z string) !! k with
  | Some a => Some (newPeer k a)
  | None => acc !! k
  end.
Proof.
  revert acc. induction entries as [|e rest IH]; intros acc Hnd.
  - cbn. rewrite lookup_empty. reflexivity.
  - cbn [fmap list_fmap] in Hnd. apply NoDup_cons in Hnd as [Hfresh Hnd].
    cbn [foldl list_to_map foldr]. rewrite IH by exact Hnd.
    destruct (decide (k = e.1)) as [->|Hne].
    + rewrite lookup_insert_eq.
      rewrite (not_elem_of_list_to_map_1 rest e.1 Hfresh).
      rewrite lookup_insert_eq. reflexivity.
    + rewrite !lookup_insert_ne by congruence. reflexivity.
Qed.

(** The peers built from the address table: one per entry, without client,
    requiring a promise. *)
Lemma build_peers_lookup (addresses : gmap Z string) (order : list (Z * string)) (k : Z) :
  ranges addresses order →
  build_peers order !! k = newPeer k <$> addresses !! k.
Proof.
  intros Hr. unfold build_peers.
  rewrite build_peers_from by exact (ranges_NoDup _ _ Hr).
  assert (Heq : addresses = list_to_map order)
    by (apply list_to_map_flip; symmetry; exact Hr).
  rewrite <- Heq, lookup_empty. destruct (addresses !! k); reflexivity.
Qed.

Lemma build_peers_count (addresses : gmap Z string) (order : list (Z * string)) :
  ranges addresses order → count_skipping (build_peers order) = 0.
Proof.
  intros Hr. apply len_filter_none. intros k p Hk Hp. cbn in Hp.
  rewrite (build_peers_lookup _ _ _ Hr) in Hk.
  destruct (addresses !! k); [|discriminate].
  injection Hk as <-. discriminate.
Qed.

(** A new cluster has [skipPromiseCount = 0], and every peer requires a
    promise. *)
Lemma ConstructCluster_consistent (h : Host) (order order' : list (Z * string)) (role : Z)
    (addresses : gmap Z string) (c : Cluster) (role' : Z) (addr : string) :
  RetrieveAddresses h = Ok addresses →
  ranges addresses order →
  ConstructCluster h order order' role = Ok (c, role', addr) →
  count_consistent c ∧ skipPromiseCount c = 0 ∧
  ∀ k, nodes c !! k = newPeer k <$> addresses !! k.
Proof.
  intros Hdisk Hr. unfold ConstructCluster. rewrite Hdisk.
  destruct (if role =? 0 then detect h order' else Ok role) as [role''|e]; [|discriminate].
  intros [= <- _ _]. unfold count_consistent. cbn.
  rewrite (build_peers_count _ _ Hr).
  split; [reflexivity|]. split; [reflexivity|].
  intros k. apply build_peers_lookup. exact Hr.
Qed.

(** *** Matching the local address *)

Lemma match_address_found (h : Host) (thisAddress : string) (role id : Z)
    (entries : list (Z * string)) :
  (∀ e, e ∈ entries → ∃ ip port, SplitHostPort h e.2 = Ok (ip, port)) →
  (∃ e port, e ∈ entries ∧ SplitHostPort h e.2 = Ok (thisAddress, port)) →
  (∀ e port, e ∈ entries → SplitHostPort h e.2 = Ok (thisAddress, port) → e.1 = id) →
  match_address h thisAddress role entries = Ok id.
Proof.
  induction entries as [|e rest IH]; intros Hparse Hsome Honly.
  - destruct Hsome as (e & _ & Hin & _). inversion Hin.
  - cbn [match_address].
    destruct (Hparse e) as (ip & port & Hsplit); [left|]. rewrite Hsplit.
    destruct (String.eqb thisAddress ip) eqn:Heq.
    + apply String.eqb_eq in Heq. subst ip.
      f_equal. apply (Honly e port); [left|exact Hsplit].
    + apply String.eqb_neq in Heq. apply IH.
      * intros e' He'. apply Hparse. right. exact He'.
      * destruct Hsome as (e' & port' & Hin & Hsplit').
        apply elem_of_cons in Hin as [->|Hin]; [congruence|]. eauto.
      * intros e' port' He'. apply Honly. right. exact He'.
Qed.

Lemma match_address_none (h : Host) (thisAddress : string) (role : Z)
    (entries : list (Z * string)) :
  (∀ e, e ∈ entries → ∃ ip port, SplitHostPort h e.2 = Ok (ip, port) ∧ ip ≠ thisAddress) →
  match_address h thisAddress role entries = Ok role.
Proof.
  induction entries as [|e rest IH]; intros Hparse; [reflexivity|].
  cbn [match_address].
  destruct (Hparse e) as (ip & port & Hsplit & Hne); [left|]. rewrite Hsplit.
  assert (Heq : String.eqb thisAddress ip = false) by (apply String.eqb_neq; congruence).
  rewrite Heq. apply IH. intros e' He'. apply Hparse. right. exact He'.
Qed.

(** C9 (as amended).  With an explicit non-zero role the constructor does
    not detect anything and keeps that role.  With role 0: an error of
    [os.Hostname] or [net.LookupIP] is returned as it is; when every
    address of the table splits into host and port, a table in which
    exactly one entry has the detected address as host, under a non-zero
    role, yields that role (and that entry's address), and a table in which
    no entry has it yields the error "Could not find address ... in peers
    table". *)
Theorem ConstructCluster_resolves_role (h : Host) (order order' : list (Z * string))
    (addresses : gmap Z string) :
  RetrieveAddresses h = Ok addresses →
  ranges addresses order →
  ranges addresses order' →
  (∀ role, role ≠ 0 →
     ConstructCluster h order order' role =
     Ok (mkCluster role (build_peers order) 0, role,
         address (default zero_Peer (build_peers order !! role)))) ∧
  (∀ e, Hostname h = Err e → ConstructCluster h order order' 0 = Err e) ∧
  (∀ name e, Hostname h = Ok name → LookupIP h name = Err e →
     ConstructCluster h order order' 0 = Err e) ∧
  (∀ name ipInfo,
     Hostname h = Ok name → LookupIP h name = Ok ipInfo → parses h addresses →
     (∀ id a, id ≠ 0 → addresses !! id = Some a → matches h (first_ipv4 ipInfo) a →
        (∀ k a', addresses !! k = Some a' → matches h (first_ipv4 ipInfo) a' → k = id) →
        ConstructCluster h order order' 0 =
        Ok (mkCluster id (build_peers order) 0, id, a)) ∧
     ((∀ k a, addresses !! k = Some a → ¬ matches h (first_ipv4 ipInfo) a) →
      ConstructCluster h order order' 0 = Err (not_found (first_ipv4 ipInfo)))).
Proof.
  intros Hdisk Hr Hr'. unfold ConstructCluster. rewrite Hdisk.
  split; [|split; [|split]].
  - intros role Hrole. apply Z.eqb_neq in Hrole. rewrite Hrole. reflexivity.
  - intros e He. cbn. unfold detect. rewrite He. reflexivity.
  - intros name e Hname He. cbn. unfold detect. rewrite Hname, He. reflexivity.
  - intros name ipInfo Hname Hips Hparse. cbn [Z.eqb]. unfold detect.
    rewrite Hname, Hips. split.
    + intros id a Hid Ha [port Hport] Honly.
      rewrite (match_address_found h (first_ipv4 ipInfo) 0 id order').
      * apply Z.eqb_neq in Hid. rewrite Hid. cbn.
        rewrite (build_peers_lookup _ _ _ Hr), Ha. reflexivity.
      * intros [k a'] Hin. apply (ranges_elem_of _ _ _ _ Hr') in Hin.
        exact (Hparse k a' Hin).
      * exists (id, a), port. split; [|exact Hport].
        apply (ranges_elem_of _ _ _ _ Hr'). exact Ha.
      * intros [k a'] port' Hin Hsplit. apply (ranges_elem_of _ _ _ _ Hr') in Hin.
        apply (Honly k a' Hin). exists port'. exact Hsplit.
    + intros Hnone. rewrite match_address_none; [reflexivity|].
      intros [k a] Hin. apply (ranges_elem_of _ _ _ _ Hr') in Hin.
      destruct (Hparse k a Hin) as (ip & port & Hsplit).
      exists ip, port. split; [exact Hsplit|].
      intros ->. apply (Hnone k a Hin). exists port. exact Hsplit.
Qed.

(** ** The count of skipped promises along the operations that change it *)

Lemma SetPromiseRequirement_consistent (role : Z) (required : bool) (c : Cluster) :
  is_Some (nodes c !! role) →
  fits_int (nodes c) →
  count_consistent c →
  count_consistent (final (SetPromiseRequirement role required c)) ∧
  fits_int (nodes (final (SetPromiseRequirement role required c))) ∧
  dom (nodes (final (SetPromiseRequirement role required c))) = dom (nodes c).
Proof.
  intros Hin Hfit Hc. rewrite SetPromiseRequirement_run. unfold final. cbn [fst snd].
  apply promise_set_consistent; assumption.
Qed.

Lemma BroadcastHeartbeat_consistent (order order' : list (Z * Peer))
    (endpoint : list (Arrival Z)) (role : Z) (c : Cluster) :
  ranges (nodes c) order' →
  fits_int (nodes c) →
  count_consistent c →
  count_consistent (final (BroadcastHeartbeat order order' endpoint role c)) ∧
  fits_int (nodes (final (BroadcastHeartbeat order order' endpoint role c))) ∧
  dom (nodes (final (BroadcastHeartbeat order order' endpoint role c))) = dom (nodes c).
Proof.
  intros Hr Hfit Hc. rewrite BroadcastHeartbeat_run. unfold final. cbn [fst snd].
  destruct (failures (heartbeat_replies c endpoint)).
  - apply demotions_consistent; [exact (ranges_keys_present _ _ Hr)|assumption..].
  - auto.
Qed.

(** Along every history that stays within the cluster, [skipPromiseCount]
    is the number of peers with [requirePromise = false]. *)
Lemma history_consistent (ms : list Mutation) (c : Cluster) :
  fits_int (nodes c) →
  count_consistent c →
  history_within c ms →
  count_consistent (foldl mutate c ms).
Proof.
  revert c. induction ms as [|m rest IH]; intros c Hfit Hc Hms; [exact Hc|].
  destruct Hms as [Hm Hrest]. cbn [foldl].
  assert (Hstep : count_consistent (mutate c m) ∧ fits_int (nodes (mutate c m))).
  { destruct m as [role required|order order' endpoint role]; cbn in Hm |- *.
    - destruct (SetPromiseRequirement_consistent role required c Hm Hfit Hc) as (H1 & H2 & _).
      auto.
    - destruct (BroadcastHeartbeat_consistent order order' endpoint role c Hm Hfit Hc)
        as (H1 & H2 & _).
      auto. }
  destruct Hstep as [Hc' Hfit']. apply IH; assumption.
Qed.

(** C1.  [SetPromiseRequirement] called with a role that [nodes] does not
    hold makes [skipPromiseCount] differ from the number of peers with
    [requirePromise = false]: it adds the zero [Peer] under that role (whose
    [requirePromise] is false, or is set to true) and counts as if the role
    had been there with [requirePromise = false]. *)
Theorem SetPromiseRequirement_unknown_role (role : Z) (required : bool) (c : Cluster) :
  nodes c !! role = None →
  is_uint64 (skipPromiseCount c) →
  count_consistent c →
  nodes (final (SetPromiseRequirement role required c)) !! role =
    Some (with_requirePromise required zero_Peer) ∧
  skipPromiseCount (final (SetPromiseRequirement role required c)) =
    (if required then wrap64 (skipPromiseCount c - 1) else skipPromiseCount c) ∧
  count_skipping (nodes (final (SetPromiseRequirement role required c))) =
    (if required then skipPromiseCount c else skipPromiseCount c + 1) ∧
  ¬ count_consistent (final (SetPromiseRequirement role required c)).
Proof.
  intros Hnone Hu Hc. rewrite SetPromiseRequirement_run. unfold final. cbn [fst snd].
  unfold promise_set. rewrite Hnone. cbn [default from_option nodes skipPromiseCount].
  assert (Hcount : count_skipping (<[role := with_requirePromise required zero_Peer]> (nodes c)) =
                   if required then skipPromiseCount c else skipPromiseCount c + 1).
  { unfold count_skipping, skipping. rewrite len_filter_insert_fresh by exact Hnone.
    unfold weight. cbn [snd requirePromise with_requirePromise].
    fold (skipping (nodes c)). fold (count_skipping (nodes c)). rewrite <- Hc.
    destruct required; case_decide; congruence || lia. }
  split; [apply lookup_insert_eq|].
  split; [destruct required; reflexivity|].
  split; [exact Hcount|].
  unfold count_consistent. cbn [nodes skipPromiseCount]. rewrite Hcount.
  destruct required; cbn.
  - unfold is_uint64 in Hu. unfold wrap64.
    destruct (decide (skipPromiseCount c = 0)) as [Hz|Hnz].
    + rewrite Hz. cbn. discriminate.
    + rewrite Z.mod_small by lia. lia.
  - lia.
Qed.

(** ** [wrapReply] *)

Lemma reply_window_pos : 0 < reply_window.
Proof. reflexivity. Qed.

Lemma wrapReply_from_spec {R : Type} (peerCount : Z) (endpoint : list (Arrival R))
    (count clock : Z) :
  is_uint64 peerCount →
  0 ≤ count →
  taken (wrapReply_from peerCount count clock endpoint) `prefix_of` endpoint ∧
  Z.of_nat (length (taken (wrapReply_from peerCount count clock endpoint)))
    ≤ Z.max 0 (peerCount - count) ∧
  forwarded (wrapReply_from peerCount count clock endpoint) =
    omap deliver (taken (wrapReply_from peerCount count clock endpoint)) ∧
  (∀ i a, taken (wrapReply_from peerCount count clock endpoint) !! i = Some a →
     at_ms a < clock_after clock (take i (taken (wrapReply_from peerCount count clock endpoint)))
               + reply_window) ∧
  (count + Z.of_nat (length (taken (wrapReply_from peerCount count clock endpoint))) < peerCount →
     finished (wrapReply_from peerCount count clock endpoint) =
       clock_after clock (taken (wrapReply_from peerCount count clock endpoint)) + reply_window ∧
     ∀ a, endpoint !! length (taken (wrapReply_from peerCount count clock endpoint)) = Some a →
          finished (wrapReply_from peerCount count clock endpoint) ≤ at_ms a) ∧
  (peerCount ≤ count + Z.of_nat (length (taken (wrapReply_from peerCount count clock endpoint))) →
     finished (wrapReply_from peerCount count clock endpoint) =
       clock_after clock (taken (wrapReply_from peerCount count clock endpoint))) ∧
  finished (wrapReply_from peerCount count clock endpoint) ≤
    clock + reply_window *
      (Z.of_nat (length (taken (wrapReply_from peerCount count clock endpoint))) + 1).
Proof.
  intros Hu. pose proof reply_window_pos as HW.
  revert count clock. induction endpoint as [|a rest IH]; intros count clock Hcount.
  - cbn [wrapReply_from]. destruct (count <? peerCount) eqn:Hlt.
    + apply Z.ltb_lt in Hlt. cbn.
      repeat split; try lia; try reflexivity.
      * intros i a' Hi. rewrite lookup_nil in Hi. discriminate.
      * intros a' Hi. discriminate.
    + apply Z.ltb_ge in Hlt. cbn.
      repeat split; try lia; try reflexivity.
      intros i a' Hi. rewrite lookup_nil in Hi. discriminate.
  - cbn [wrapReply_from]. destruct (count <? peerCount) eqn:Hlt.
    + apply Z.ltb_lt in Hlt.
      destruct (at_ms a <? clock + reply_window) eqn:Hat.
      * apply Z.ltb_lt in Hat.
        assert (Hw : wrap64 (count + 1) = count + 1)
          by (apply wrap64_small; unfold is_uint64 in Hu; lia).
        rewrite Hw.
        destruct (IH (count + 1) (Z.max clock (at_ms a))) as (H1 & H2 & H3 & H4 & H5 & H6 & H7);
          [lia|].
        set (r := wrapReply_from peerCount (count + 1) (Z.max clock (at_ms a)) rest) in *.
        unfold forward_reply.
        cbn [taken forwarded finished length omap list_omap lookup].
        split; [apply prefix_cons; exact H1|].
        split; [lia|].
        split.
        { change (omap deliver (a :: taken r)) with
            (match deliver a with Some y => y :: omap deliver (taken r)
                                | None => omap deliver (taken r) end).
          unfold deliver at 1. rewrite <- H3.
          destruct (succeeded (call a)); reflexivity. }
        split.
        { intros [|i] a' Hi.
          - cbn in Hi. injection Hi as <-. cbn. exact Hat.
          - cbn in Hi. cbn [take clock_after foldl]. apply H4. exact Hi. }
        split.
        { intros Hshort. destruct H5 as [H5a H5b]; [lia|]. split.
          - exact H5a.
          - intros a' Ha'. cbn in Ha'. apply H5b. exact Ha'. }
        split.
        { intros Hfull. cbn [clock_after foldl]. apply H6. lia. }
        lia.
      * apply Z.ltb_ge in Hat. cbn.
        repeat split; try lia; try reflexivity.
        -- apply prefix_nil.
        -- intros i a' Hi. rewrite lookup_nil in Hi. discriminate.
        -- intros a' [= <-]. exact Hat.
    + apply Z.ltb_ge in Hlt. cbn.
      repeat split; try lia; try reflexivity.
      * apply prefix_nil.
      * intros i a' Hi. rewrite lookup_nil in Hi. discriminate.
Qed.

(** C4 (as amended).  [wrapReply] reads replies from [endpoint] in the
    order of their arrival, at most [peerCount] of them, and forwards those
    without error, in that order; a reply with an error is counted and not
    forwarded.  Its 2-second timer is started anew for every reply it waits
    for: each reply read arrived less than 2 s after the wait for it began
    (the start of the call, or the moment the reply before it was read).
    When it returns with fewer than [peerCount] replies, it does so 2 s
    after its last wait began, and the next reply, if any, had not arrived
    by then; with [peerCount] replies it returns when the last is read.  So
    it returns no later than 2 s times the number of replies read plus
    one. *)
Theorem wrapReply_collects {R : Type} (peerCount : Z) (endpoint : list (Arrival R)) :
  is_uint64 peerCount →
  taken (wrapReply peerCount endpoint) `prefix_of` endpoint ∧
  Z.of_nat (length (taken (wrapReply peerCount endpoint))) ≤ peerCount ∧
  forwarded (wrapReply peerCount endpoint) = omap deliver (taken (wrapReply peerCount endpoint)) ∧
  Z.of_nat (length (forwarded (wrapReply peerCount endpoint))) ≤ peerCount ∧
  (∀ i a, taken (wrapReply peerCount endpoint) !! i = Some a →
     at_ms a < clock_after 0 (take i (taken (wrapReply peerCount endpoint))) + reply_window) ∧
  (Z.of_nat (length (taken (wrapReply peerCount endpoint))) < peerCount →
     finished (wrapReply peerCount endpoint) =
       clock_after 0 (taken (wrapReply peerCount endpoint)) + reply_window ∧
     ∀ a, endpoint !! length (taken (wrapReply peerCount endpoint)) = Some a →
          finished (wrapReply peerCount endpoint) ≤ at_ms a) ∧
  (peerCount ≤ Z.of_nat (length (taken (wrapReply peerCount endpoint))) →
     finished (wrapReply peerCount endpoint) =
       clock_after 0 (taken (wrapReply peerCount endpoint))) ∧
  finished (wrapReply peerCount endpoint) ≤
    reply_window * (Z.of_nat (length (taken (wrapReply peerCount endpoint))) + 1).
Proof.
  intros Hu. unfold wrapReply.
  destruct (wrapReply_from_spec peerCount endpoint 0 0 Hu (Z.le_refl 0))
    as (H1 & H2 & H3 & H4 & H5 & H6 & H7).
  assert (Hlen : Z.of_nat (length (taken (wrapReply_from peerCount 0 0 endpoint))) ≤ peerCount)
    by (unfold is_uint64 in Hu; lia).
  split; [exact H1|]. split; [exact Hlen|]. split; [exact H3|].
  split.
  { rewrite H3.
    assert (Hle : ∀ l : list (Arrival R), (length (omap deliver l) ≤ length l)%nat).
    { induction l as [|a l IH]; [reflexivity|].
      cbn. destruct (deliver a); cbn; lia. }
    specialize (Hle (taken (wrapReply_from peerCount 0 0 endpoint))). lia. }
  split; [exact H4|].
  split; [intros Hshort; apply H5; lia|].
  split; [intros Hfull; apply H6; lia|].
  lia.
Qed.

(** ** [NotifyOfSuccess] *)

Lemma NotifyOfSuccess_run {SuccessNotify : Type} (role : Z) (info : SuccessNotify)
    (c : Cluster) :
  NotifyOfSuccess role info c =
  match comm (default zero_Peer (nodes c !! role)) with
  | Some via =>
      (Returned tt, c,
       [EvAccess FNodes Read; EvGo role via "AcceptorRole.Success"; EvSpawn "wrapReply" 1])
  | None =>
      (Panicked "invalid memory address or nil pointer dereference", c,
       [EvAccess FNodes Read])
  end.
Proof.
  unfold NotifyOfSuccess, rpc_Go. run_block.
  destruct (comm (default zero_Peer (nodes c !! role))); reflexivity.
Qed.

(** Through a client, [NotifyOfSuccess] makes its call and returns. *)
Lemma NotifyOfSuccess_connected {SuccessNotify : Type} (role : Z) (info : SuccessNotify)
    (c : Cluster) (p : Peer) (via : Client) :
  nodes c !! role = Some p → comm p = Some via →
  outcome (NotifyOfSuccess role info c) = Returned tt ∧
  calls (events (NotifyOfSuccess role info c)) = [(role, via, "AcceptorRole.Success")].
Proof.
  intros Hp Hvia. rewrite NotifyOfSuccess_run, Hp. cbn [default from_option id].
  rewrite Hvia. auto.
Qed.

(** C6.  [NotifyOfSuccess] for a role whose peer has no client (or that
    [nodes] does not hold) panics with a nil dereference, having made no
    call: the caller gets no result to tell the failure by. *)
Theorem NotifyOfSuccess_without_client {SuccessNotify : Type} (role : Z)
    (info : SuccessNotify) (c : Cluster) :
  comm (default zero_Peer (nodes c !! role)) = None →
  outcome (NotifyOfSuccess role info c) =
    Panicked "invalid memory address or nil pointer dereference" ∧
  calls (events (NotifyOfSuccess role info c)) = [] ∧
  final (NotifyOfSuccess role info c) = c.
Proof.
  intros Hnil. rewrite NotifyOfSuccess_run, Hnil. auto.
Qed.

(** ** Lock discipline *)

(** A stretch of events without lock operations leaves the lock as it
    is. *)
Lemma stretch_accesses (held : bool) (t rest : list Event) :
  Forall (λ e, lock_op e = false ∧ (is_access e = true → held = true)) t →
  forallb unlocked_access (under_lock held (t ++ rest)) =
  forallb unlocked_access (under_lock held rest).
Proof.
  induction 1 as [|e t [Hlock Hacc] _ IH]; [reflexivity|].
  cbn [app under_lock forallb]. unfold unlocked_access at 1. cbn [fst snd].
  assert (Hholds : holds held e = held) by (destruct e; cbn in Hlock; congruence || reflexivity).
  rewrite Hholds, IH.
  destruct (is_access e); [rewrite Hacc by reflexivity|]; reflexivity.
Qed.

Lemma stretch_across (P : Event → bool) (held : bool) (t rest : list Event) :
  Forall (λ e, lock_op e = false) t →
  existsb (locked_event P) (under_lock held (t ++ rest)) =
  held && existsb P t || existsb (locked_event P) (under_lock held rest).
Proof.
  induction 1 as [|e t Hlock _ IH].
  - cbn. rewrite andb_false_r. reflexivity.
  - cbn [app under_lock existsb]. unfold locked_event at 1. cbn [fst snd].
    assert (Hholds : holds held e = held) by (destruct e; cbn in Hlock; congruence || reflexivity).
    rewrite Hholds, IH. destruct held, (P e); reflexivity.
Qed.

(** The trace of a method that locks, defers the unlock and runs [body]. *)
Lemma region_accesses (body : list Event) :
  Forall (λ e, lock_op e = false) body →
  accesses_locked (EvLock :: body ++ [EvUnlock]) = true.
Proof.
  intros Hbody. unfold accesses_locked. cbn [under_lock forallb holds].
  fold unlocked_access. rewrite stretch_accesses; [reflexivity|].
  eapply Forall_impl; [exact Hbody|]. cbn. auto.
Qed.

Lemma region_across (P : Event → bool) (body : list Event) :
  Forall (λ e, lock_op e = false) body →
  P EvUnlock = false →
  held_across P (EvLock :: body ++ [EvUnlock]) = existsb P body.
Proof.
  intros Hbody HP. unfold held_across. cbn [under_lock existsb holds fst snd andb].
  fold (locked_event P). rewrite stretch_across by exact Hbody.
  cbn. rewrite HP. cbn. rewrite !orb_false_r. reflexivity.
Qed.

Lemma quiet_not_blocking (t : list Event) : Forall quiet t → existsb blocking t = false.
Proof.
  induction 1 as [|e t [_ Hb] _ IH]; [reflexivity|].
  cbn. rewrite Hb, IH. reflexivity.
Qed.

Lemma quiet_unlocked (t : list Event) : Forall quiet t → Forall (λ e, lock_op e = false) t.
Proof. intros Hq. eapply Forall_impl; [exact Hq|]. intros e [H _]. exact H. Qed.

Lemma go_events_quiet (l : list (Z * Client * string)) : Forall quiet (go_event <$> l).
Proof. induction l as [|x l IH]; constructor; [split; reflexivity|exact IH]. Qed.

Lemma region_quiet (body : list Event) :
  Forall quiet body →
  accesses_locked (EvLock :: body ++ [EvUnlock]) = true ∧
  held_across blocking (EvLock :: body ++ [EvUnlock]) = false.
Proof.
  intros Hq. split.
  - apply region_accesses, quiet_unlocked, Hq.
  - rewrite region_across; [apply quiet_not_blocking, Hq|apply quiet_unlocked, Hq|reflexivity].
Qed.

Ltac quiet_trace :=
  repeat first
    [ apply Forall_nil_2
    | apply Forall_cons; split; [split; reflexivity|]
    | apply Forall_app; split
    | apply go_events_quiet ].

Lemma SetPromiseRequirement_discipline (role : Z) (required : bool) (c : Cluster) :
  accesses_locked (events (SetPromiseRequirement role required c)) = true ∧
  held_across blocking (events (SetPromiseRequirement role required c)) = false.
Proof.
  rewrite SetPromiseRequirement_run. unfold events. cbn [snd].
  destruct (Bool.eqb _ required); split; reflexivity.
Qed.

Lemma BroadcastPrepareRequest_discipline {PrepareReq : Type} (order : list (Z * Peer))
    (request : PrepareReq) (c : Cluster) :
  accesses_locked (events (BroadcastPrepareRequest order request c)) = true ∧
  held_across blocking (events (BroadcastPrepareRequest order request c)) = false.
Proof.
  rewrite BroadcastPrepareRequest_steps. cbn zeta. unfold events. cbn [snd].
  apply region_quiet.
  destruct (skipPromiseCount c <? wrap64 (len (nodes c) / 2 + 1)); quiet_trace.
Qed.

Lemma BroadcastProposalRequest_discipline {ProposalReq : Type} (order : list (Z * Peer))
    (request : ProposalReq) (filter : gmap Z bool) (c : Cluster) :
  accesses_locked (events (BroadcastProposalRequest order request filter c)) = true ∧
  held_across blocking (events (BroadcastProposalRequest order request filter c)) = false.
Proof.
  rewrite BroadcastProposalRequest_steps. cbn zeta. unfold events. cbn [snd].
  apply region_quiet. quiet_trace.
Qed.

Lemma retry_run (addr : string) (attempt : unit) (c : Cluster) :
  retry addr tt attempt c = (Returned tt, c, [EvDial addr; EvSleep 1000]).
Proof. reflexivity. Qed.

Lemma steps_id {A : Type} (l : list A) (c : Cluster) : steps (λ _ c', c') l c = c.
Proof. induction l as [|a l IH]; [reflexivity|exact IH]. Qed.

Lemma establishConnection_run (role : Z) (failed : nat) (connection : Client) (c : Cluster) :
  establishConnection role failed connection c =
  (Returned tt,
   with_nodes (<[role := with_comm (Some connection) (default zero_Peer (nodes c !! role))]>
                 (nodes c)) c,
   [EvLock; EvAccess FNodes Read; EvUnlock] ++
   steps_trace (λ _ c', c')
     (λ _ _, [EvDial (address (default zero_Peer (nodes c !! role))); EvSleep 1000])
     (replicate failed tt) c ++
   [EvDial (address (default zero_Peer (nodes c !! role)));
    EvLock; EvAccess FNodes Read; EvAccess FNodes Write; EvSendEstablished role; EvUnlock]).
Proof.
  unfold establishConnection, lock, unlock. run_block.
  rewrite (for_range_steps _ (λ _ c', c')
             (λ _ _, [EvDial (address (default zero_Peer (nodes c !! role))); EvSleep 1000]))
    by (intros [] c'; apply retry_run).
  rewrite steps_id. reflexivity.
Qed.

Lemma establishConnection_discipline (role : Z) (failed : nat) (connection : Client)
    (c : Cluster) :
  accesses_locked (events (establishConnection role failed connection c)) = true ∧
  held_across blocking (events (establishConnection role failed connection c)) = false.
Proof.
  rewrite establishConnection_run. unfold events. cbn [snd].
  set (retries := steps_trace _ _ _ _).
  assert (Hretries : Forall (λ e, lock_op e = false ∧ is_access e = false) retries).
  { subst retries. apply steps_trace_Forall. intros _ _. repeat constructor. }
  split.
  - unfold accesses_locked. cbn [app under_lock forallb holds fst snd implb is_access].
    fold unlocked_access. rewrite stretch_accesses; [reflexivity|].
    eapply Forall_impl; [exact Hretries|]. cbn. intros e [H1 H2]. split; [exact H1|congruence].
  - unfold held_across. cbn [app under_lock existsb holds fst snd andb].
    fold (locked_event blocking). rewrite stretch_across; [reflexivity|].
    eapply Forall_impl; [exact Hretries|]. cbn. tauto.
Qed.

Lemma connect_run (dial : string → option Client) (e : Z * Peer) (c : Cluster) :
  connect dial tt e c = (Returned tt, connected dial e c, connect_trace dial e c).
Proof.
  unfold connect, connected, connect_trace. run_block.
  destruct (dial (address e.2)); reflexivity.
Qed.

Lemma Connect_run (order : list (Z * Peer)) (dial : string → option Client) (c : Cluster) :
  Connect order dial c =
  (Returned tt, steps (connected dial) order c,
   EvLock :: (EvAccess FNodes Read :: steps_trace (connected dial) (connect_trace dial) order c)
     ++ [EvUnlock]).
Proof.
  unfold Connect. apply run_locked. run_block.
  rewrite (for_range_steps _ _ _ (connect_run dial)). reflexivity.
Qed.

Lemma Connect_discipline (order : list (Z * Peer)) (dial : string → option Client)
    (c : Cluster) :
  accesses_locked (events (Connect order dial c)) = true ∧
  (order ≠ [] → held_across network_call (events (Connect order dial c)) = true).
Proof.
  rewrite Connect_run. unfold events. cbn [snd].
  assert (Hfree : Forall (λ e, lock_op e = false)
            (EvAccess FNodes Read ::
             steps_trace (connected dial) (connect_trace dial) order c)).
  { constructor; [reflexivity|]. apply steps_trace_Forall.
    intros e c'. unfold connect_trace. destruct (dial (address e.2)); repeat constructor. }
  split; [apply region_accesses; exact Hfree|].
  intros Hne. rewrite region_across by (exact Hfree || reflexivity).
  destruct order as [|e rest]; [contradiction|]. reflexivity.
Qed.

Lemma Listen_discipline (listening : result unit) (c : Cluster) :
  accesses_locked (events (Listen listening c)) = true ∧
  held_across network_call (events (Listen listening c)) = true.
Proof. destruct listening; split; reflexivity. Qed.

Lemma BroadcastHeartbeat_discipline (order order' : list (Z * Peer))
    (endpoint : list (Arrival Z)) (role : Z) (c : Cluster) :
  accesses_locked (events (BroadcastHeartbeat order order' endpoint role c)) = true ∧
  (0 < len (nodes c) →
   held_across timed_wait (events (BroadcastHeartbeat order order' endpoint role c)) = true).
Proof.
  rewrite BroadcastHeartbeat_run. unfold events. cbn [snd].
  assert (Hn : 0 ≤ len (nodes c)) by (unfold len; lia).
  destruct (await_heartbeats_spec (len (nodes c)) endpoint initial_pulse
              (pulse_inv_initial _ Hn)) as (_ & _ & _ & Hsel & Hsome).
  set (selects := (await_heartbeats (len (nodes c)) initial_pulse endpoint).2) in *.
  set (demotions := if failures (heartbeat_replies c endpoint) then _ else _).
  assert (Hdem : Forall (λ e, lock_op e = false) demotions).
  { subst demotions. destruct (failures (heartbeat_replies c endpoint)); [|constructor].
    constructor; [reflexivity|]. apply quiet_unlocked, steps_trace_Forall.
    intros e c'. apply demote_trace_quiet. }
  assert (Hfree : Forall (λ e, lock_op e = false)
            (EvAccess FNodes Read :: EvAccess FNodes Read ::
             (go_event <$> sends (λ _, true) "ProposerRole.Heartbeat" order) ++
             selects ++ demotions)).
  { repeat (constructor; [reflexivity|]).
    apply Forall_app. split; [apply quiet_unlocked, go_events_quiet|].
    apply Forall_app. split; [|exact Hdem].
    eapply Forall_impl; [exact Hsel|]. intros e ->. reflexivity. }
  split; [apply region_accesses; exact Hfree|].
  intros Hpos. rewrite region_across by (exact Hfree || reflexivity).
  cbn [existsb timed_wait orb]. rewrite !existsb_app.
  destruct selects as [|e rest]; [exfalso; apply Hsome; [exact Hpos|reflexivity]|].
  apply Forall_cons in Hsel as [-> _]. cbn. rewrite orb_true_r. reflexivity.
Qed.

Lemma connectionManager_accesses (establishing : gmap Z bool) (notice : Notice) :
  Forall (λ e, is_access e = false ∧ lock_op e = false)
    (connectionManager establishing notice).2.
Proof.
  destruct notice as [role|role]; cbn.
  - destruct (negb (default false (establishing !! role))); repeat constructor.
  - constructor.
Qed.

Lemma NotifyOfSuccess_unlocked {SuccessNotify : Type} (role : Z) (info : SuccessNotify)
    (c : Cluster) :
  accesses_locked (events (NotifyOfSuccess role info c)) = false.
Proof.
  rewrite NotifyOfSuccess_run.
  destruct (comm (default zero_Peer (nodes c !! role))); reflexivity.
Qed.

(** C5 (as amended).  Every method of [Cluster] other than
    [NotifyOfSuccess] uses [nodes] and [skipPromiseCount] only while it
    holds the lock ([connectionManager] uses neither and never locks).
    [GetPeerCount], [GetSkipPromiseCount], [SetPromiseRequirement],
    [BroadcastPrepareRequest] and [BroadcastProposalRequest] hold the lock
    over no dial, no listen, no sleep and no timed wait (the broadcasts
    issue their calls under the lock with [client.Go], which does not wait
    for the reply), and [establishConnection] dials and sleeps without the
    lock.  [BroadcastHeartbeat] holds the lock while it waits for the
    replies with its timer, [Connect] while it dials every peer, [Listen]
    while it calls [net.Listen]. *)
Theorem lock_discipline :
  (∀ c, accesses_locked (events (GetPeerCount c)) = true ∧
        held_across blocking (events (GetPeerCount c)) = false) ∧
  (∀ c, accesses_locked (events (GetSkipPromiseCount c)) = true ∧
        held_across blocking (events (GetSkipPromiseCount c)) = false) ∧
  (∀ role required c,
     accesses_locked (events (SetPromiseRequirement role required c)) = true ∧
     held_across blocking (events (SetPromiseRequirement role required c)) = false) ∧
  (∀ (PrepareReq : Type) order (request : PrepareReq) c,
     accesses_locked (events (BroadcastPrepareRequest order request c)) = true ∧
     held_across blocking (events (BroadcastPrepareRequest order request c)) = false) ∧
  (∀ (ProposalReq : Type) order (request : ProposalReq) filter c,
     accesses_locked (events (BroadcastProposalRequest order request filter c)) = true ∧
     held_across blocking (events (BroadcastProposalRequest order request filter c)) = false) ∧
  (∀ role failed connection c,
     accesses_locked (events (establishConnection role failed connection c)) = true ∧
     held_across blocking (events (establishConnection role failed connection c)) = false) ∧
  (∀ establishing notice,
     Forall (λ e, is_access e = false ∧ lock_op e = false)
       (connectionManager establishing notice).2) ∧
  (∀ order order' endpoint role c,
     accesses_locked (events (BroadcastHeartbeat order order' endpoint role c)) = true ∧
     (0 < len (nodes c) →
      held_across timed_wait (events (BroadcastHeartbeat order order' endpoint role c)) = true)) ∧
  (∀ order dial c,
     accesses_locked (events (Connect order dial c)) = true ∧
     (order ≠ [] → held_across network_call (events (Connect order dial c)) = true)) ∧
  (∀ listening c,
     accesses_locked (events (Listen listening c)) = true ∧
     held_across network_call (events (Listen listening c)) = true).
Proof.
  split; [intros c; split; reflexivity|].
  split; [intros c; split; reflexivity|].
  split; [exact SetPromiseRequirement_discipline|].
  split; [intros PrepareReq; exact BroadcastPrepareRequest_discipline|].
  split; [intros ProposalReq; exact BroadcastProposalRequest_discipline|].
  split; [exact establishConnection_discipline|].
  split; [exact connectionManager_accesses|].
  split; [exact BroadcastHeartbeat_discipline|].
  split; [exact Connect_discipline|exact Listen_discipline].
Qed.

(** * The theorems at work on the concrete clusters *)

Ltac concrete := vm_compute; first [reflexivity | discriminate | intros ?; discriminate].

(** C1 at a new cluster: after [SetPromiseRequirement 9 false], for the
    unknown role 9, the counter is 0 with one peer that needs no promise. *)
Lemma SetPromiseRequirement_unknown_role_witness :
  skipPromiseCount (final (SetPromiseRequirement 9 false fresh_cluster)) = 0 ∧
  count_skipping (nodes (final (SetPromiseRequirement 9 false fresh_cluster))) = 1 ∧
  ¬ count_consistent (final (SetPromiseRequirement 9 false fresh_cluster)).
Proof.
  assert (H1 : nodes fresh_cluster !! 9 = None) by reflexivity.
  assert (H2 : is_uint64 (skipPromiseCount fresh_cluster)) by (split; concrete).
  assert (H3 : count_consistent fresh_cluster) by reflexivity.
  destruct (SetPromiseRequirement_unknown_role 9 false fresh_cluster H1 H2 H3)
    as (_ & Hskip & Hcount & Hbroken).
  split; [exact Hskip|]. split; [exact Hcount|exact Hbroken].
Defined.

(** C2 at the cluster in which two of three nodes have promised. *)
Lemma BroadcastPrepareRequest_majority_known_witness :
  calls (events (BroadcastPrepareRequest (map_to_list (nodes promised_cluster)) tt
                   promised_cluster)) = [] ∧
  outcome (BroadcastPrepareRequest (map_to_list (nodes promised_cluster)) tt
             promised_cluster) = Returned 0 ∧
  final (BroadcastPrepareRequest (map_to_list (nodes promised_cluster)) tt
           promised_cluster) = promised_cluster.
Proof.
  apply BroadcastPrepareRequest_majority_known.
  - concrete.
  - concrete.
Defined.

(** C3 at the round in which only node 2 answers: node 3 is demoted and
    reported, and so is node 1, which costs the counter its only unit. *)
Lemma BroadcastHeartbeat_demotes_silent_nodes_witness :
  failures (heartbeat_replies sample_cluster sample_heartbeats) = true ∧
  nodes (final (BroadcastHeartbeat (map_to_list (nodes sample_cluster))
                  (map_to_list (nodes sample_cluster)) sample_heartbeats 2 sample_cluster))
    !! 1 = Some (mkPeer 1 "10.0.0.1:7001" (Some 11%nat) true) ∧
  skipPromiseCount (final (BroadcastHeartbeat (map_to_list (nodes sample_cluster))
                  (map_to_list (nodes sample_cluster)) sample_heartbeats 2 sample_cluster))
    = 0 ∧
  3 ∈ reported (events (BroadcastHeartbeat (map_to_list (nodes sample_cluster))
                  (map_to_list (nodes sample_cluster)) sample_heartbeats 2 sample_cluster)).
Proof.
  assert (Hr : ranges (nodes sample_cluster) (map_to_list (nodes sample_cluster)))
    by (unfold ranges; reflexivity).
  assert (Hu : is_uint64 (skipPromiseCount sample_cluster)) by (split; concrete).
  destruct (BroadcastHeartbeat_demotes_silent_nodes
              (map_to_list (nodes sample_cluster)) (map_to_list (nodes sample_cluster))
              sample_heartbeats 2 sample_cluster Hr Hu) as (_ & _ & Hdemote).
  assert (Hfail : failures (heartbeat_replies sample_cluster sample_heartbeats) = true)
    by reflexivity.
  destruct (Hdemote Hfail) as (_ & Hnodes & _ & Hskip & Hrep & _).
  split; [exact Hfail|].
  split; [exact (Hnodes 1 _ eq_refl)|].
  split; [rewrite Hskip; reflexivity|].
  apply Hrep. split; [eexists; reflexivity|reflexivity].
Defined.

(** The claim of C4 fails for two replies 1.5 s apart: the second, which
    arrives 3 s after the start of the call, is still forwarded, and
    [wrapReply] returns only then. *)
Lemma wrapReply_window_restarts :
  forwarded (wrapReply 2 late_replies) = [mkResponse "a"; mkResponse "b"] ∧
  finished (wrapReply 2 late_replies) = 3000 ∧
  reply_window < finished (wrapReply 2 late_replies) ∧
  mkArrival 3000 (mkCall "b" None) ∈ taken (wrapReply 2 late_replies).
Proof.
  split; [reflexivity|]. split; [reflexivity|]. split; [reflexivity|].
  right. left.
Qed.

(** C4 as amended, at three expected replies of which one fails and one
    comes too late: one response is forwarded and [wrapReply] returns 2 s
    after the failed reply. *)
Lemma wrapReply_collects_witness :
  forwarded (wrapReply 3 mixed_replies) = [mkResponse "a"] ∧
  Z.of_nat (length (taken (wrapReply 3 mixed_replies))) ≤ 3 ∧
  finished (wrapReply 3 mixed_replies) = 2200.
Proof.
  assert (Hu : is_uint64 3) by (split; concrete).
  destruct (wrapReply_collects 3 mixed_replies Hu)
    as (_ & Hlen & Hfwd & _ & _ & Hshort & _).
  split; [rewrite Hfwd; reflexivity|]. split; [exact Hlen|].
  destruct Hshort as [Hfin _]; [concrete|]. rewrite Hfin. reflexivity.
Defined.

(** The claim of C5 fails: [NotifyOfSuccess] reads [nodes] without the
    lock, [BroadcastHeartbeat] holds the lock while it waits for replies,
    and [Connect] holds it while it dials. *)
Lemma lock_discipline_broken :
  accesses_locked (events (NotifyOfSuccess 1 tt sample_cluster)) = false ∧
  events (NotifyOfSuccess 1 tt sample_cluster) =
    [EvAccess FNodes Read; EvGo 1 11%nat "AcceptorRole.Success"; EvSpawn "wrapReply" 1] ∧
  held_across timed_wait
    (events (BroadcastHeartbeat (map_to_list (nodes sample_cluster))
               (map_to_list (nodes sample_cluster)) sample_heartbeats 2 sample_cluster)) = true ∧
  held_across network_call
    (events (Connect (map_to_list (nodes fresh_cluster)) (λ _, None) fresh_cluster)) = true.
Proof. repeat split; reflexivity. Qed.

(** C5 as amended, at the sample cluster. *)
Lemma lock_discipline_witness :
  accesses_locked (events (SetPromiseRequirement 1 true sample_cluster)) = true ∧
  held_across blocking (events (BroadcastPrepareRequest (map_to_list (nodes sample_cluster))
                                  tt sample_cluster)) = false ∧
  held_across timed_wait
    (events (BroadcastHeartbeat (map_to_list (nodes sample_cluster))
               (map_to_list (nodes sample_cluster)) sample_heartbeats 2 sample_cluster)) = true ∧
  held_across network_call
    (events (Connect (map_to_list (nodes fresh_cluster)) (λ _, None) fresh_cluster)) = true.
Proof.
  destruct lock_discipline
    as (_ & _ & Hset & Hprepare & _ & _ & _ & Hheartbeat & Hconnect & _).
  split; [apply Hset|].
  split; [apply (Hprepare unit)|].
  split; [apply Hheartbeat; concrete|].
  apply Hconnect. discriminate.
Defined.

(** C6 at node 3 of the sample cluster, which has no client. *)
Lemma NotifyOfSuccess_without_client_witness :
  outcome (NotifyOfSuccess 3 tt sample_cluster) =
    Panicked "invalid memory address or nil pointer dereference" ∧
  calls (events (NotifyOfSuccess 3 tt sample_cluster)) = [] ∧
  final (NotifyOfSuccess 3 tt sample_cluster) = sample_cluster.
Proof. apply NotifyOfSuccess_without_client. reflexivity. Defined.

(** C7 at the sample cluster: only node 2 requires a promise and has a
    client. *)
Lemma BroadcastPrepareRequest_below_majority_witness :
  (∀ k via m,
     (k, via, m) ∈ calls (events (BroadcastPrepareRequest
                                    (map_to_list (nodes sample_cluster)) tt sample_cluster)) ↔
     m = "AcceptorRole.Prepare" ∧
     ∃ p, nodes sample_cluster !! k = Some p ∧ requirePromise p = true ∧ comm p = Some via) ∧
  outcome (BroadcastPrepareRequest (map_to_list (nodes sample_cluster)) tt sample_cluster) =
    Returned 1.
Proof.
  destruct (BroadcastPrepareRequest_below_majority sample_cluster
              (map_to_list (nodes sample_cluster)) tt) as (Hcalls & _ & Hcount).
  - unfold ranges. reflexivity.
  - concrete.
  - concrete.
  - split; [exact Hcalls|]. rewrite Hcount. reflexivity.
Defined.

(** C8 at the cluster with three clients and a filter that lists node 2. *)
Lemma BroadcastProposalRequest_honours_filter_witness :
  (∀ via m,
     (2, via, m) ∉ calls (events (BroadcastProposalRequest
                                    (map_to_list (nodes promised_cluster)) tt
                                    {[ 2 := true; 1 := false ]} promised_cluster))) ∧
  outcome (BroadcastProposalRequest (map_to_list (nodes promised_cluster)) tt
             {[ 2 := true; 1 := false ]} promised_cluster) = Returned 2.
Proof.
  destruct (BroadcastProposalRequest_honours_filter promised_cluster
              (map_to_list (nodes promised_cluster)) tt {[ 2 := true; 1 := false ]})
    as (Hcalls & _ & Hcount).
  - unfold ranges. reflexivity.
  - concrete.
  - split; [|rewrite Hcount; reflexivity].
    intros via m Hin. apply Hcalls in Hin as (_ & Hfilter & _).
    apply Hfilter. reflexivity.
Defined.

(** The claim of C9 fails in two ways.  A table whose only address has no
    port holds no entry with the detected address, yet the constructor
    fails with the error of [net.SplitHostPort], not with "Could not find
    address".  A table that holds the detected address once, under role 0,
    makes the constructor fail with "Could not find address". *)
Lemma ConstructCluster_other_outcomes :
  (∀ k a, ({[ 1 := "localhost" ]} : gmap Z string) !! k = Some a →
          ¬ matches portless_host "10.0.0.5" a) ∧
  ConstructCluster portless_host [(1, "localhost")] [(1, "localhost")] 0 =
    Err (AddrError "missing port in address" "localhost") ∧
  AddrError "missing port in address" "localhost" ≠ not_found "10.0.0.5" ∧
  (∀ k a, ({[ 0 := "10.0.0.5:7001"; 1 := "10.0.0.6:7001" ]} : gmap Z string) !! k = Some a →
          matches role0_host "10.0.0.5" a ↔ k = 0) ∧
  ConstructCluster role0_host
    [(0, "10.0.0.5:7001"); (1, "10.0.0.6:7001")]
    [(0, "10.0.0.5:7001"); (1, "10.0.0.6:7001")] 0 =
    Err (not_found "10.0.0.5").
Proof.
  split; [|split; [|split; [|split]]].
  - intros k a Hk [port Hport].
    apply lookup_singleton_Some in Hk as [_ <-]. discriminate Hport.
  - reflexivity.
  - discriminate.
  - intros k a Hk. unfold matches.
    destruct (decide (k = 0)) as [->|Hk0].
    + injection Hk as <-. split; [reflexivity|]. intros _. eexists. reflexivity.
    + rewrite lookup_insert_ne in Hk by congruence.
      apply lookup_singleton_Some in Hk as [<- <-].
      split; [|congruence]. intros [port Hport]. discriminate Hport.
  - reflexivity.
Qed.

(** C9 as amended, at the machine of node 2: it finds role 2; an explicit
    role 3 is kept. *)
Lemma ConstructCluster_resolves_role_witness :
  ConstructCluster sample_host (map_to_list sample_addresses) (map_to_list sample_addresses) 0 =
    Ok (fresh_cluster, 2, "10.0.0.2:7001") ∧
  ConstructCluster sample_host (map_to_list sample_addresses) (map_to_list sample_addresses) 3 =
    Ok (mkCluster 3 (build_peers (map_to_list sample_addresses)) 0, 3, "10.0.0.3:7001").
Proof.
  assert (Hr : ranges sample_addresses (map_to_list sample_addresses))
    by (unfold ranges; reflexivity).
  destruct (ConstructCluster_resolves_role sample_host (map_to_list sample_addresses)
              (map_to_list sample_addresses) sample_addresses eq_refl Hr Hr)
    as (Hexplicit & _ & _ & Hdetect).
  split.
  - destruct (Hdetect "node2" [mkIP false "fe80::1"; mkIP true "10.0.0.2"] eq_refl eq_refl)
      as [Hfound _].
    + intros k a Hk.
      assert (Hin : (k, a) ∈ map_to_list sample_addresses)
        by (apply elem_of_map_to_list; exact Hk).
      vm_compute in Hin.
      repeat (apply elem_of_cons in Hin as [[= -> ->]|Hin]; [eexists _, _; reflexivity|]).
      inversion Hin.
    + apply (Hfound 2 "10.0.0.2:7001"); [discriminate|reflexivity|eexists; reflexivity|].
      intros k a Hk [port Hport].
      assert (Hin : (k, a) ∈ map_to_list sample_addresses)
        by (apply elem_of_map_to_list; exact Hk).
      vm_compute in Hin.
      repeat (apply elem_of_cons in Hin as [[= -> ->]|Hin];
              [first [reflexivity | discriminate Hport]|]).
      inversion Hin.
  - rewrite (Hexplicit 3) by discriminate. reflexivity.
Defined.

(** C10 at the sample cluster, where node 3 has no client: two heartbeats
    are sent, three replies are awaited, the round ends by its timer, and
    node 3 is demoted and reported. *)
Lemma BroadcastHeartbeat_waits_for_all_nodes_witness :
  timed_out (heartbeat_replies sample_cluster sample_heartbeats) = true ∧
  failures (heartbeat_replies sample_cluster sample_heartbeats) = true ∧
  3 ∈ reported (events (BroadcastHeartbeat (map_to_list (nodes sample_cluster))
                  (map_to_list (nodes sample_cluster)) sample_heartbeats 2 sample_cluster)).
Proof.
  assert (Hr : ranges (nodes sample_cluster) (map_to_list (nodes sample_cluster)))
    by (unfold ranges; reflexivity).
  assert (Hu : is_uint64 (skipPromiseCount sample_cluster)) by (split; concrete).
  destruct (BroadcastHeartbeat_waits_for_all_nodes
              (map_to_list (nodes sample_cluster)) (map_to_list (nodes sample_cluster))
              sample_heartbeats 2 sample_cluster Hr Hr Hu) as (_ & _ & Hend).
  destruct Hend as (Htimed & Hfail & Hdemote).
  - exists 3, (mkPeer 3 "10.0.0.3:7001" None true). split; reflexivity.
  - vm_compute. lia.
  - split; [exact Htimed|]. split; [exact Hfail|].
    apply (Hdemote 3 (mkPeer 3 "10.0.0.3:7001" None true)); reflexivity.
Defined.

(** * Further properties of the code *)

(** ** [connectionManager] *)

Lemma workers_app (role : Z) (t1 t2 : list Event) :
  workers role (t1 ++ t2) = (workers role t1 + workers role t2)%nat.
Proof. unfold workers. rewrite filter_app, length_app. reflexivity. Qed.

Lemma connectionManager_other (establishing : gmap Z bool) (notice : Notice) (role : Z) :
  about notice ≠ role →
  (connectionManager establishing notice).1 !! role = establishing !! role ∧
  workers role (connectionManager establishing notice).2 = 0%nat.
Proof.
  intros Hne. destruct notice as [r|r]; cbn [about] in Hne; unfold connectionManager.
  - destruct (negb (default false (establishing !! r))); cbn [fst snd].
    + split; [apply lookup_insert_ne; exact Hne|].
      unfold workers. rewrite filter_cons, decide_False by congruence. reflexivity.
    + auto.
  - cbn [fst snd]. split; [apply lookup_insert_ne; exact Hne|reflexivity].
Qed.

Lemma manage_workers (establishing : gmap Z bool) (notices : list Notice) (role : Z) :
  (workers role (manage establishing notices).2 ≤
   (if default false (establishing !! role) then 0 else 1) + repairs role notices)%nat.
Proof.
  revert establishing. induction notices as [|notice rest IH]; intros establishing.
  - cbn. lia.
  - cbn [manage].
    destruct (connectionManager establishing notice) as [est1 t1] eqn:Hstep.
    specialize (IH est1). destruct (manage est1 rest) as [est2 t2]. cbn [snd] in *.
    rewrite workers_app. unfold repairs in *. rewrite filter_cons.
    destruct (decide (about notice = role)) as [Habout|Hother].
    + destruct notice as [r|r]; cbn in Habout; subst r; cbn in Hstep.
      * rewrite decide_False by discriminate.
        destruct (default false (establishing !! role)) eqn:Hmark; cbn in Hstep;
          injection Hstep as <- <-.
        -- rewrite Hmark in IH. cbn. lia.
        -- rewrite lookup_insert_eq in IH. cbn in IH.
           unfold workers at 1. rewrite filter_cons, decide_True by reflexivity.
           cbn. lia.
      * rewrite decide_True by reflexivity. injection Hstep as <- <-.
        rewrite lookup_insert_eq in IH. cbn in IH |- *.
        destruct (default false (establishing !! role)); lia.
    + destruct (connectionManager_other establishing notice role Hother) as [Hsame Hnone].
      rewrite Hstep in Hsame, Hnone. cbn [fst snd] in *.
      rewrite Hsame in IH. rewrite Hnone.
      rewrite decide_False by (intros ->; apply Hother; reflexivity).
      lia.
Qed.

(** X1.  Whatever notices [connectionManager] reads, the goroutines it
    starts for a role are at most one more than the repairs it has been
    told of for that role: without a repair in between, further complaints
    about the role start nothing. *)
Theorem connectionManager_one_worker (notices : list Notice) (role : Z) :
  (workers role (manage ∅ notices).2 ≤ 1 + repairs role notices)%nat ∧
  (repairs role notices = 0%nat → (workers role (manage ∅ notices).2 ≤ 1)%nat).
Proof.
  pose proof (manage_workers ∅ notices role) as H.
  rewrite lookup_empty in H. cbn in H. split; [exact H|]. intros Hnone. lia.
Qed.

Lemma manage_app (establishing : gmap Z bool) (l1 l2 : list Notice) :
  manage establishing (l1 ++ l2) =
  ((manage (manage establishing l1).1 l2).1,
   (manage establishing l1).2 ++ (manage (manage establishing l1).1 l2).2).
Proof.
  revert establishing. induction l1 as [|notice rest IH]; intros establishing.
  - cbn. destruct (manage establishing l2); reflexivity.
  - cbn [app manage].
    destruct (connectionManager establishing notice) as [est1 t1].
    rewrite IH. destruct (manage est1 rest) as [est2 t2]. cbn [fst snd].
    destruct (manage est2 l2) as [est3 t3]. cbn [fst snd].
    rewrite app_assoc. reflexivity.
Qed.

Lemma manage_others (establishing : gmap Z bool) (notices : list Notice) (role : Z) :
  Forall (λ notice, about notice ≠ role) notices →
  (manage establishing notices).1 !! role = establishing !! role.
Proof.
  revert establishing. induction notices as [|notice rest IH]; intros establishing Hall;
    [reflexivity|].
  apply Forall_cons in Hall as [Hne Hall]. cbn [manage].
  destruct (connectionManager_other establishing notice role Hne) as [Hsame _].
  destruct (connectionManager establishing notice) as [est1 t1]. cbn [fst] in Hsame.
  specialize (IH est1 Hall). destruct (manage est1 rest) as [est2 t2]. cbn [fst] in *.
  congruence.
Qed.

(** X2.  What [connectionManager] does with a complaint about a role
    depends on the last notice it read about that role: after a complaint
    (and any notices about other roles) the new complaint starts nothing;
    after a repair, or when the role was never mentioned, it starts one
    [establishConnection]. *)
Theorem connectionManager_complaint (before between : list Notice) (role : Z) :
  Forall (λ notice, about notice ≠ role) between →
  (connectionManager (manage ∅ (before ++ BadConnection role :: between)).1
     (BadConnection role)).2 = [] ∧
  (connectionManager (manage ∅ (before ++ Established role :: between)).1
     (BadConnection role)).2 = [EvSpawn "establishConnection" role] ∧
  (connectionManager (manage ∅ between).1 (BadConnection role)).2 =
    [EvSpawn "establishConnection" role].
Proof.
  intros Hother.
  assert (Hafter : ∀ notice mark,
            (connectionManager (manage ∅ before).1 notice).1 !! role = Some mark →
            about notice = role →
            (manage ∅ (before ++ notice :: between)).1 !! role = Some mark).
  { intros notice mark Hmark _. rewrite manage_app. cbn [fst manage].
    destruct (connectionManager (manage ∅ before).1 notice) as [est1 t1]. cbn [fst] in Hmark.
    pose proof (manage_others est1 between role Hother) as Hkeep.
    destruct (manage est1 between) as [est2 t2]. cbn [fst] in *. congruence. }
  split; [|split].
  - assert (Hmark : (manage ∅ (before ++ BadConnection role :: between)).1 !! role = Some true).
    { apply Hafter; [|reflexivity]. cbn.
      destruct (default false ((manage ∅ before).1 !! role)) eqn:Hm; cbn.
      - destruct ((manage ∅ before).1 !! role) as [[|]|]; cbn in Hm; congruence.
      - apply lookup_insert_eq. }
    cbn. rewrite Hmark. reflexivity.
  - assert (Hmark : (manage ∅ (before ++ Established role :: between)).1 !! role = Some false).
    { apply Hafter; [|reflexivity]. cbn. apply lookup_insert_eq. }
    cbn. rewrite Hmark. reflexivity.
  - cbn. rewrite (manage_others ∅ between role Hother), lookup_empty. reflexivity.
Qed.

(** X1 at four complaints, three of them about role 3. *)
Lemma connectionManager_one_worker_witness :
  (workers 3 (manage ∅ [BadConnection 3; BadConnection 1; BadConnection 3; BadConnection 3]).2
   ≤ 1)%nat.
Proof.
  apply (connectionManager_one_worker
           [BadConnection 3; BadConnection 1; BadConnection 3; BadConnection 3] 3).
  reflexivity.
Defined.

(** X2 at role 3, after a complaint and after a repair. *)
Lemma connectionManager_complaint_witness :
  (connectionManager (manage ∅ ([BadConnection 3] ++ BadConnection 3 :: [BadConnection 1])).1
     (BadConnection 3)).2 = [] ∧
  (connectionManager (manage ∅ ([BadConnection 3] ++ Established 3 :: [BadConnection 1])).1
     (BadConnection 3)).2 = [EvSpawn "establishConnection" 3].
Proof.
  destruct (connectionManager_complaint [BadConnection 3] [BadConnection 1] 3) as (H1 & H2 & _).
  - repeat constructor. discriminate.
  - split; [exact H1|exact H2].
Defined.

(** ** Reading dials, sleeps and signals off a trace *)

Lemma dialed_app (t1 t2 : list Event) : dialed (t1 ++ t2) = dialed t1 ++ dialed t2.
Proof. unfold dialed. apply omap_app. Qed.

Lemma slept_app (t1 t2 : list Event) : slept (t1 ++ t2) = slept t1 ++ slept t2.
Proof. unfold slept. apply omap_app. Qed.

Lemma signalled_app (t1 t2 : list Event) : signalled (t1 ++ t2) = signalled t1 ++ signalled t2.
Proof. unfold signalled. apply omap_app. Qed.

Lemma retries_trace (addr : string) (failed : nat) (c : Cluster) :
  dialed (steps_trace (λ _ c', c') (λ _ _, [EvDial addr; EvSleep 1000])
            (replicate failed tt) c) = replicate failed addr ∧
  slept (steps_trace (λ _ c', c') (λ _ _, [EvDial addr; EvSleep 1000])
           (replicate failed tt) c) = replicate failed 1000 ∧
  signalled (steps_trace (λ _ c', c') (λ _ _, [EvDial addr; EvSleep 1000])
               (replicate failed tt) c) = [].
Proof.
  induction failed as [|n (IH1 & IH2 & IH3)]; [auto|].
  cbn [replicate steps_trace]. rewrite dialed_app, slept_app, signalled_app, IH1, IH2, IH3.
  auto.
Qed.

(** ** Maps that agree on [requirePromise] *)

Lemma count_skipping_flags (n : gmap Z Peer) :
  count_skipping n = len (filter (λ kb : Z * bool, kb.2 = false) (requirePromise <$> n)).
Proof.
  unfold count_skipping, skipping, len. rewrite map_filter_fmap, map_size_fmap.
  reflexivity.
Qed.

Lemma count_skipping_agree (n n' : gmap Z Peer) :
  (∀ k, requirePromise <$> n !! k = requirePromise <$> n' !! k) →
  count_skipping n = count_skipping n'.
Proof.
  intros Hagree. rewrite !count_skipping_flags. f_equal. f_equal.
  apply map_eq. intros k. rewrite !lookup_fmap. apply Hagree.
Qed.

(** ** [establishConnection] *)

(** X3.  For a role of the cluster, a run of [establishConnection] in which
    the dial fails [failed] times dials the peer's address [failed + 1]
    times, sleeping one second after each failure, then stores the new
    client in that peer and signals the role once on
    [connectionEstablished].  The peer's other fields, the other peers and
    [skipPromiseCount] stay as they were. *)
Theorem establishConnection_installs (role : Z) (failed : nat) (connection : Client)
    (c : Cluster) (p : Peer) :
  nodes c !! role = Some p →
  outcome (establishConnection role failed connection c) = Returned tt ∧
  nodes (final (establishConnection role failed connection c)) !! role =
    Some (mkPeer (roleId p) (address p) (Some connection) (requirePromise p)) ∧
  (∀ k, k ≠ role →
     nodes (final (establishConnection role failed connection c)) !! k = nodes c !! k) ∧
  skipPromiseCount (final (establishConnection role failed connection c)) =
    skipPromiseCount c ∧
  dialed (events (establishConnection role failed connection c)) =
    replicate (S failed) (address p) ∧
  slept (events (establishConnection role failed connection c)) = replicate failed 1000 ∧
  signalled (events (establishConnection role failed connection c)) = [role].
Proof.
  intros Hp. rewrite establishConnection_run, Hp. unfold outcome, final, events.
  cbn [fst snd default from_option id nodes skipPromiseCount with_nodes].
  destruct (retries_trace (address p) failed c) as (Hd & Hs & Hg).
  split; [reflexivity|]. split; [apply lookup_insert_eq|].
  split; [intros k Hk; apply lookup_insert_ne; congruence|].
  split; [reflexivity|].
  rewrite !dialed_app, !slept_app, !signalled_app, Hd, Hs, Hg.
  split; [rewrite replicate_S_end; reflexivity|].
  split; [cbn; apply app_nil_r|reflexivity].
Qed.

(** X3 at node 3 of the sample cluster, reached at the third dial. *)
Lemma establishConnection_installs_witness :
  nodes (final (establishConnection 3 2 33%nat sample_cluster)) !! 3 =
    Some (mkPeer 3 "10.0.0.3:7001" (Some 33%nat) true) ∧
  dialed (events (establishConnection 3 2 33%nat sample_cluster)) =
    ["10.0.0.3:7001"; "10.0.0.3:7001"; "10.0.0.3:7001"] ∧
  signalled (events (establishConnection 3 2 33%nat sample_cluster)) = [3].
Proof.
  destruct (establishConnection_installs 3 2 33%nat sample_cluster
              (mkPeer 3 "10.0.0.3:7001" None true) eq_refl)
    as (_ & Hnode & _ & _ & Hdial & _ & Hsignal).
  split; [exact Hnode|]. split; [exact Hdial|exact Hsignal].
Defined.

(** ** [Connect] *)

Lemma steps_connected_lookup (dial : string → option Client) (l : list (Z * Peer))
    (c : Cluster) (k : Z) :
  NoDup l.*1 →
  nodes (steps (connected dial) l c) !! k =
  match (list_to_map l : gmap Z Peer) !! k with
  | Some p =>
      match dial (address p) with
      | Some connection => Some (with_comm (Some connection) p)
      | None => nodes c !! k
      end
  | None => nodes c !! k
  end.
Proof.
  revert c. induction l as [|e rest IH]; intros c Hnd.
  - cbn. rewrite lookup_empty. reflexivity.
  - cbn [fmap list_fmap] in Hnd. apply NoDup_cons in Hnd as [Hfresh Hnd].
    cbn [steps foldl list_to_map foldr]. fold (steps (connected dial) rest (connected dial e c)).
    rewrite IH by exact Hnd. unfold connected at 1 2.
    destruct (decide (k = e.1)) as [->|Hne].
    + rewrite (not_elem_of_list_to_map_1 rest e.1 Hfresh), lookup_insert_eq.
      destruct (dial (address e.2)); [apply lookup_insert_eq|reflexivity].
    + rewrite lookup_insert_ne by congruence.
      destruct ((list_to_map rest : gmap Z Peer) !! k) as [p|].
      * destruct (dial (address p)); [reflexivity|].
        destruct (dial (address e.2)); [apply lookup_insert_ne; congruence|reflexivity].
      * destruct (dial (address e.2)); [apply lookup_insert_ne; congruence|reflexivity].
Qed.

Lemma steps_connected_skip (dial : string → option Client) (l : list (Z * Peer)) (c : Cluster) :
  skipPromiseCount (steps (connected dial) l c) = skipPromiseCount c ∧
  cluster_roleId (steps (connected dial) l c) = cluster_roleId c.
Proof.
  apply (steps_invariant (connected dial)
           (λ c', skipPromiseCount c' = skipPromiseCount c ∧
                  cluster_roleId c' = cluster_roleId c)); [|auto].
  intros e c' _ [H1 H2]. unfold connected. destruct (dial (address e.2)); auto.
Qed.

Lemma Connect_nodes (order : list (Z * Peer)) (dial : string → option Client) (c : Cluster) :
  ranges (nodes c) order →
  nodes (final (Connect order dial c)) = redialed dial <$> nodes c.
Proof.
  intros Hr. rewrite Connect_run. unfold final. cbn [fst snd].
  apply map_eq. intros k.
  rewrite steps_connected_lookup by exact (ranges_NoDup _ _ Hr).
  assert (Heq : nodes c = list_to_map order)
    by (apply list_to_map_flip; symmetry; exact Hr).
  rewrite <- Heq, lookup_fmap. unfold redialed.
  destruct (nodes c !! k) as [p|]; [|reflexivity].
  cbn. destruct (dial (address p)); reflexivity.
Qed.

Lemma connect_trace_reads (dial : string → option Client) (l : list (Z * Peer)) (c : Cluster) :
  dialed (steps_trace (connected dial) (connect_trace dial) l c) = (λ e, address e.2) <$> l ∧
  reported (steps_trace (connected dial) (connect_trace dial) l c) =
    (filter (λ e, dial (address e.2) = None) l).*1 ∧
  calls (steps_trace (connected dial) (connect_trace dial) l c) = [].
Proof.
  revert c. induction l as [|e rest IH]; intros c; [auto|].
  destruct (IH (connected dial e c)) as (IH1 & IH2 & IH3).
  cbn [steps_trace]. rewrite dialed_app, reported_app, calls_app, IH1, IH2, IH3.
  rewrite filter_cons. unfold connect_trace.
  destruct (dial (address e.2)) eqn:Hdial.
  - rewrite decide_False by discriminate. auto.
  - rewrite decide_True by reflexivity. auto.
Qed.

(** X4.  [Connect] dials the address of every peer once, the local node's
    included.  A peer whose dial succeeds gets the new client; a peer whose
    dial fails keeps the client it had, if any, and its role is sent on
    [registerBadConnection], each such role once.  Nothing else changes. *)
Theorem Connect_installs (order : list (Z * Peer)) (dial : string → option Client)
    (c : Cluster) :
  ranges (nodes c) order →
  outcome (Connect order dial c) = Returned tt ∧
  (∀ k, nodes (final (Connect order dial c)) !! k = redialed dial <$> nodes c !! k) ∧
  skipPromiseCount (final (Connect order dial c)) = skipPromiseCount c ∧
  dialed (events (Connect order dial c)) ≡ₚ (λ e, address e.2) <$> map_to_list (nodes c) ∧
  (∀ k, k ∈ reported (events (Connect order dial c)) ↔
        ∃ p, nodes c !! k = Some p ∧ dial (address p) = None) ∧
  NoDup (reported (events (Connect order dial c))).
Proof.
  intros Hr.
  split; [rewrite Connect_run; reflexivity|].
  split; [intros k; rewrite (Connect_nodes _ _ _ Hr); apply lookup_fmap|].
  rewrite Connect_run. unfold final, events. cbn [fst snd].
  destruct (connect_trace_reads dial order c) as (Hd & Hrep & _).
  split; [apply steps_connected_skip|].
  assert (Hdialed : dialed (EvLock :: (EvAccess FNodes Read ::
              steps_trace (connected dial) (connect_trace dial) order c) ++ [EvUnlock]) =
            (λ e, address e.2) <$> order).
  { replace (EvLock :: (EvAccess FNodes Read ::
               steps_trace (connected dial) (connect_trace dial) order c) ++ [EvUnlock])
      with ([EvLock; EvAccess FNodes Read] ++
            steps_trace (connected dial) (connect_trace dial) order c ++ [EvUnlock])
      by reflexivity.
    rewrite !dialed_app, Hd. cbn. apply app_nil_r. }
  assert (Hreported : reported (EvLock :: (EvAccess FNodes Read ::
              steps_trace (connected dial) (connect_trace dial) order c) ++ [EvUnlock]) =
            (filter (λ e, dial (address e.2) = None) order).*1).
  { read_trace. rewrite Hrep. read_trace. reflexivity. }
  rewrite Hdialed, Hreported.
  split; [unfold ranges in Hr; rewrite Hr; reflexivity|].
  split.
  - intros k. rewrite list_elem_of_fmap. split.
    + intros [[k' p] [-> [Hfail Hin]%list_elem_of_filter]]. cbn in *.
      exists p. split; [apply (ranges_elem_of _ _ _ _ Hr); exact Hin|exact Hfail].
    + intros [p [Hk Hfail]]. exists (k, p). split; [reflexivity|].
      apply list_elem_of_filter. split; [exact Hfail|].
      apply (ranges_elem_of _ _ _ _ Hr). exact Hk.
  - eapply NoDup_fmap_fst.
    + intros k p1 p2 [_ H1]%list_elem_of_filter [_ H2]%list_elem_of_filter.
      apply (ranges_elem_of _ _ _ _ Hr) in H1, H2. congruence.
    + apply NoDup_filter. unfold ranges in Hr. rewrite Hr. apply NoDup_map_to_list.
Qed.

(** X4 at the new cluster, when only node 3 cannot be reached. *)
Lemma Connect_installs_witness :
  nodes (final (Connect (map_to_list (nodes fresh_cluster))
                  (λ a, if String.eqb a "10.0.0.3:7001" then None else Some 7%nat)
                  fresh_cluster)) !! 1 =
    Some (mkPeer 1 "10.0.0.1:7001" (Some 7%nat) true) ∧
  (∀ k, k ∈ reported (events (Connect (map_to_list (nodes fresh_cluster))
                  (λ a, if String.eqb a "10.0.0.3:7001" then None else Some 7%nat)
                  fresh_cluster)) → k = 3).
Proof.
  destruct (Connect_installs (map_to_list (nodes fresh_cluster))
              (λ a, if String.eqb a "10.0.0.3:7001" then None else Some 7%nat)
              fresh_cluster) as (_ & Hnodes & _ & _ & Hrep & _).
  - unfold ranges. reflexivity.
  - split; [rewrite Hnodes; reflexivity|].
    intros k Hk. apply Hrep in Hk as (p & Hp & Hfail).
    assert (Hin : (k, p) ∈ map_to_list (nodes fresh_cluster))
      by (apply elem_of_map_to_list; exact Hp).
    vm_compute in Hin.
    repeat (apply elem_of_cons in Hin as [[= -> ->]|Hin];
            [first [reflexivity | discriminate Hfail]|]).
    inversion Hin.
Defined.

(** ** What no operation changes *)

Lemma kept_refl (p : Peer) : kept p p.
Proof. unfold kept. auto. Qed.

Lemma kept_trans (p1 p2 p3 : Peer) : kept p1 p2 → kept p2 p3 → kept p1 p3.
Proof. unfold kept. intros (H1 & H2 & H3) (H4 & H5 & H6). repeat split; [congruence..|auto]. Qed.

Lemma evolves_refl (c : Cluster) : evolves c c.
Proof.
  split; [reflexivity|]. intros k. destruct (nodes c !! k); constructor. apply kept_refl.
Qed.

Lemma evolves_trans (c1 c2 c3 : Cluster) : evolves c1 c2 → evolves c2 c3 → evolves c1 c3.
Proof.
  intros [Hr1 H1] [Hr2 H2]. split; [congruence|]. intros k.
  specialize (H1 k). specialize (H2 k).
  destruct H1 as [p1 p2 H12|]; inversion H2; subst; constructor.
  eapply kept_trans; eassumption.
Qed.

(** A cluster whose peers are the old ones changed by a function that
    keeps them. *)
Lemma evolves_fmap (c c' : Cluster) (f : Z → Peer → Peer) :
  cluster_roleId c' = cluster_roleId c →
  (∀ k, nodes c' !! k = f k <$> nodes c !! k) →
  (∀ k p, kept p (f k p)) →
  evolves c c'.
Proof.
  intros Hrole Hnodes Hkept. split; [exact Hrole|]. intros k. rewrite Hnodes.
  destruct (nodes c !! k); constructor. apply Hkept.
Qed.

(** A cluster in which one peer was replaced by a later state of it. *)
Lemma evolves_insert (c : Cluster) (role : Z) (p p' : Peer) (s : Z) :
  nodes c !! role = Some p → kept p p' →
  evolves c (mkCluster (cluster_roleId c) (<[role := p']> (nodes c)) s).
Proof.
  intros Hp Hkept. split; [reflexivity|]. intros k. cbn [nodes].
  destruct (decide (k = role)) as [->|Hne].
  - rewrite lookup_insert_eq, Hp. constructor. exact Hkept.
  - rewrite lookup_insert_ne by congruence.
    destruct (nodes c !! k); constructor. apply kept_refl.
Qed.

Lemma steps_demoted_roleId (w : Pulse) (l : list (Z * Peer)) (c : Cluster) :
  cluster_roleId (steps (demoted w) l c) = cluster_roleId c.
Proof.
  apply (steps_invariant (demoted w) (λ c', cluster_roleId c' = cluster_roleId c)); [|reflexivity].
  intros e c' _ H. unfold demoted. destruct (was_received w e.1); [exact H|exact H].
Qed.

Lemma change_evolves (c : Cluster) (ch : Change) : permitted c ch → evolves c (change c ch).
Proof.
  destruct ch as [role required|order order' endpoint role|order dial|role failed connection];
    cbn [permitted change].
  - intros [p Hp]. rewrite SetPromiseRequirement_run. unfold final, promise_set.
    cbn [fst snd]. rewrite Hp. cbn [default from_option id].
    apply (evolves_insert c role p); [exact Hp|]. unfold kept. auto.
  - intros Hr. rewrite BroadcastHeartbeat_run. unfold final. cbn [fst snd].
    destruct (failures (heartbeat_replies c endpoint)); [|apply evolves_refl].
    apply (evolves_fmap _ _ (lowered (heartbeat_replies c endpoint))).
    + apply steps_demoted_roleId.
    + intros k. apply demotions_lookup. exact Hr.
    + intros k p. unfold lowered, kept.
      destruct (was_received (heartbeat_replies c endpoint) k); auto.
  - intros Hr. apply (evolves_fmap _ _ (λ _, redialed dial)).
    + rewrite Connect_run. unfold final. cbn [fst snd]. apply steps_connected_skip.
    + intros k. rewrite (Connect_nodes _ _ _ Hr). apply lookup_fmap.
    + intros k p. unfold redialed, kept. destruct (dial (address p)); cbn; eauto.
  - intros [p Hp]. rewrite establishConnection_run. unfold final. cbn [fst snd].
    rewrite Hp. cbn [default from_option id]. unfold with_nodes.
    apply (evolves_insert c role p); [exact Hp|]. unfold kept. cbn. eauto.
Qed.

Lemma changes_evolve (chs : list Change) (c : Cluster) :
  changes_permitted c chs → evolves c (foldl change c chs).
Proof.
  revert c. induction chs as [|ch rest IH]; intros c Hall; [apply evolves_refl|].
  destruct Hall as [Hch Hrest]. cbn [foldl].
  eapply evolves_trans; [apply change_evolves; exact Hch|apply IH; exact Hrest].
Qed.

Lemma GetPeerCount_run (c : Cluster) :
  GetPeerCount c = (Returned (len (nodes c)), c, [EvLock; EvAccess FNodes Read; EvUnlock]).
Proof. reflexivity. Qed.

Lemma GetSkipPromiseCount_run (c : Cluster) :
  GetSkipPromiseCount c =
  (Returned (skipPromiseCount c), c, [EvLock; EvAccess FSkipPromiseCount Read; EvUnlock]).
Proof. reflexivity. Qed.

(** X5.  Membership is fixed: along every sequence of
    [SetPromiseRequirement], [BroadcastHeartbeat], [Connect] and
    [establishConnection] that stays within the cluster, [nodes] keeps the
    same roles, every peer keeps its role and address, the local role
    stays, and [GetPeerCount] keeps returning the same number. *)
Theorem membership_fixed (chs : list Change) (c : Cluster) :
  changes_permitted c chs →
  dom (nodes (foldl change c chs)) = dom (nodes c) ∧
  cluster_roleId (foldl change c chs) = cluster_roleId c ∧
  outcome (GetPeerCount (foldl change c chs)) = outcome (GetPeerCount c) ∧
  (∀ k p', nodes (foldl change c chs) !! k = Some p' →
     ∃ p, nodes c !! k = Some p ∧ roleId p' = roleId p ∧ address p' = address p).
Proof.
  intros Hall. destruct (changes_evolve chs c Hall) as [Hrole Hnodes].
  assert (Hdom : dom (nodes (foldl change c chs)) = dom (nodes c)).
  { apply set_eq. intros k. rewrite !elem_of_dom. specialize (Hnodes k).
    destruct Hnodes; split; intros [? ?]; eauto; discriminate. }
  split; [exact Hdom|]. split; [exact Hrole|].
  split.
  - rewrite !GetPeerCount_run. unfold outcome, len. cbn [fst].
    rewrite <- !size_dom, Hdom. reflexivity.
  - intros k p' Hp'. specialize (Hnodes k). rewrite Hp' in Hnodes.
    inversion Hnodes as [p ? (H1 & H2 & _) Heq|]; subst. eauto.
Qed.

(** X6.  A client is never taken away: along every such sequence, a peer
    that has a client still has one afterwards (a failed heartbeat or a
    failed dial leaves the old client in place). *)
Theorem client_never_removed (chs : list Change) (c : Cluster) (k : Z) (p : Peer) :
  changes_permitted c chs →
  nodes c !! k = Some p →
  is_Some (comm p) →
  ∃ p', nodes (foldl change c chs) !! k = Some p' ∧ is_Some (comm p').
Proof.
  intros Hall Hp Hcomm. destruct (changes_evolve chs c Hall) as [_ Hnodes].
  specialize (Hnodes k). rewrite Hp in Hnodes.
  inversion Hnodes as [? p' (_ & _ & Hkeep) Heq|]; subst. eauto.
Qed.

(** ** The count of skipped promises along all operations *)

Lemma redialed_flags (dial : string → option Client) (n : gmap Z Peer) :
  count_skipping (redialed dial <$> n) = count_skipping n ∧
  len (redialed dial <$> n) = len n.
Proof.
  split; [|unfold len; rewrite map_size_fmap; reflexivity].
  apply count_skipping_agree. intros k. rewrite lookup_fmap.
  destruct (n !! k) as [p|]; [|reflexivity].
  cbn. unfold redialed. destruct (dial (address p)); reflexivity.
Qed.

Lemma change_consistent (c : Cluster) (ch : Change) :
  permitted c ch → fits_int (nodes c) → count_consistent c →
  count_consistent (change c ch) ∧ fits_int (nodes (change c ch)).
Proof.
  destruct ch as [role required|order order' endpoint role|order dial|role failed connection];
    cbn [permitted change]; intros Hp Hfit Hc.
  - destruct (SetPromiseRequirement_consistent role required c Hp Hfit Hc) as (H1 & H2 & _).
    auto.
  - destruct (BroadcastHeartbeat_consistent order order' endpoint role c Hp Hfit Hc)
      as (H1 & H2 & _).
    auto.
  - destruct (redialed_flags dial (nodes c)) as [Hcount Hlen].
    unfold count_consistent, fits_int. rewrite (Connect_nodes _ _ _ Hp), Hcount, Hlen.
    split; [|exact Hfit].
    rewrite Connect_run. unfold final. cbn [fst snd].
    rewrite (proj1 (steps_connected_skip dial order c)). exact Hc.
  - destruct Hp as [p Hp]. rewrite establishConnection_run. unfold final. cbn [fst snd].
    rewrite Hp. cbn [default from_option id]. unfold count_consistent, fits_int, with_nodes.
    cbn [nodes skipPromiseCount].
    rewrite len_insert_present by eauto. split; [|exact Hfit].
    rewrite Hc. apply count_skipping_agree. intros k.
    destruct (decide (k = role)) as [->|Hne].
    + rewrite lookup_insert_eq, Hp. reflexivity.
    + rewrite lookup_insert_ne by congruence. reflexivity.
Qed.

(** X7.  Along every sequence of the four writing methods that stays
    within the cluster, [skipPromiseCount] stays the number of peers with
    [requirePromise = false], and that number is what
    [GetSkipPromiseCount] returns. *)
Theorem skipPromiseCount_kept (chs : list Change) (c : Cluster) :
  fits_int (nodes c) →
  count_consistent c →
  changes_permitted c chs →
  count_consistent (foldl change c chs) ∧
  outcome (GetSkipPromiseCount (foldl change c chs)) =
    Returned (count_skipping (nodes (foldl change c chs))).
Proof.
  intros Hfit Hc Hall.
  assert (Hfinal : count_consistent (foldl change c chs)).
  { revert c Hfit Hc Hall. induction chs as [|ch rest IH]; intros c Hfit Hc Hall; [exact Hc|].
    destruct Hall as [Hch Hrest]. cbn [foldl].
    destruct (change_consistent c ch Hch Hfit Hc) as [Hc' Hfit'].
    apply IH; assumption. }
  split; [exact Hfinal|].
  rewrite GetSkipPromiseCount_run. unfold outcome. cbn [fst]. f_equal. exact Hfinal.
Qed.

(** The concrete history stays within the cluster. *)
Lemma sample_changes_permitted : changes_permitted connected_cluster sample_changes.
Proof.
  cbn [changes_permitted sample_changes permitted change].
  split; [eexists; reflexivity|].
  split; [unfold ranges; reflexivity|].
  split; [unfold ranges; reflexivity|].
  split; [eexists; reflexivity|exact I].
Defined.

(** X5 along the concrete history. *)
Lemma membership_fixed_witness :
  dom (nodes (foldl change connected_cluster sample_changes)) = dom (nodes connected_cluster) ∧
  outcome (GetPeerCount (foldl change connected_cluster sample_changes)) = Returned 3.
Proof.
  destruct (membership_fixed sample_changes connected_cluster sample_changes_permitted)
    as (Hdom & _ & Hcount & _).
  split; [exact Hdom|]. rewrite Hcount. reflexivity.
Defined.

(** X6 for node 1 along the concrete history. *)
Lemma client_never_removed_witness :
  ∃ p', nodes (foldl change connected_cluster sample_changes) !! 1 = Some p' ∧
        is_Some (comm p').
Proof.
  apply (client_never_removed sample_changes connected_cluster 1
           (mkPeer 1 "10.0.0.1:7001" (Some 7%nat) true) sample_changes_permitted).
  - reflexivity.
  - eexists. reflexivity.
Defined.

(** X7 along the concrete history. *)
Lemma skipPromiseCount_kept_witness :
  count_consistent (foldl change connected_cluster sample_changes) ∧
  outcome (GetSkipPromiseCount (foldl change connected_cluster sample_changes)) = Returned 0.
Proof.
  destruct (skipPromiseCount_kept sample_changes connected_cluster) as [Hc Hget].
  - vm_compute. discriminate.
  - reflexivity.
  - exact sample_changes_permitted.
  - split; [exact Hc|]. rewrite Hget. reflexivity.
Defined.

(** ** [SetPromiseRequirement] again *)

Lemma wrap64_add_l (a b : Z) : wrap64 (wrap64 a + b) = wrap64 (a + b).
Proof. unfold wrap64. apply Zplus_mod_idemp_l. Qed.

Lemma with_requirePromise_twice (q q' : bool) (p : Peer) :
  with_requirePromise q (with_requirePromise q' p) = with_requirePromise q p.
Proof. reflexivity. Qed.

(** X8.  For a role of the cluster, changing the promise requirement and
    changing it back restores the cluster exactly: the peer and
    [skipPromiseCount] are as before. *)
Theorem SetPromiseRequirement_undo (role : Z) (c : Cluster) (p : Peer) :
  nodes c !! role = Some p →
  is_uint64 (skipPromiseCount c) →
  final (SetPromiseRequirement role (requirePromise p)
           (final (SetPromiseRequirement role (negb (requirePromise p)) c))) = c.
Proof.
  intros Hp Hu. rewrite !SetPromiseRequirement_run. unfold final. cbn [fst snd].
  unfold promise_set at 1. cbn [nodes skipPromiseCount cluster_roleId].
  unfold promise_set. cbn [nodes skipPromiseCount cluster_roleId].
  rewrite Hp, lookup_insert_eq. cbn [default from_option id requirePromise with_requirePromise].
  rewrite insert_insert_eq.
  rewrite with_requirePromise_twice, with_requirePromise_same, (insert_id _ _ _ Hp).
  assert (Hskip : ∀ s, is_uint64 s → wrap64 (wrap64 (s + 1) - 1) = s ∧ wrap64 (wrap64 (s - 1) + 1) = s).
  { intros s Hs. rewrite wrap64_sub_l, wrap64_add_l.
    replace (s + 1 - 1) with s by lia. replace (s - 1 + 1) with s by lia.
    split; apply wrap64_small; exact Hs. }
  destruct (Hskip _ Hu) as [Hup Hdown].
  destruct c as [r n s]. cbn [cluster_roleId nodes skipPromiseCount] in *.
  destruct (requirePromise p); cbn [negb Bool.eqb]; rewrite ?Hup, ?Hdown; reflexivity.
Qed.

(** X8 at node 1 of the sample cluster. *)
Lemma SetPromiseRequirement_undo_witness :
  final (SetPromiseRequirement 1 false (final (SetPromiseRequirement 1 true sample_cluster))) =
  sample_cluster.
Proof.
  apply (SetPromiseRequirement_undo 1 sample_cluster
           (mkPeer 1 "10.0.0.1:7001" (Some 11%nat) false)).
  - reflexivity.
  - split; vm_compute; [discriminate|reflexivity].
Defined.

(** X9.  [SetPromiseRequirement] is idempotent, for every role: a second
    call with the same arguments leaves the cluster as the first call left
    it, and does not touch [skipPromiseCount]. *)
Theorem SetPromiseRequirement_twice (role : Z) (required : bool) (c : Cluster) :
  final (SetPromiseRequirement role required
           (final (SetPromiseRequirement role required c))) =
    final (SetPromiseRequirement role required c) ∧
  Forall (λ e, e ≠ EvAccess FSkipPromiseCount Write)
    (events (SetPromiseRequirement role required
               (final (SetPromiseRequirement role required c)))).
Proof.
  rewrite !SetPromiseRequirement_run. unfold final, events. cbn [fst snd].
  assert (Hlook : nodes (promise_set role required c) !! role =
                  Some (with_requirePromise required (default zero_Peer (nodes c !! role))))
    by apply lookup_insert_eq.
  split.
  - unfold promise_set at 1. rewrite Hlook.
    cbn [default from_option id requirePromise with_requirePromise].
    rewrite Bool.eqb_reflx. unfold promise_set. cbn [nodes skipPromiseCount cluster_roleId].
    rewrite insert_insert_eq. reflexivity.
  - rewrite Hlook. cbn [default from_option id requirePromise with_requirePromise].
    rewrite Bool.eqb_reflx. repeat constructor; discriminate.
Qed.

(** ** Heartbeat rounds without failures *)

Lemma await_heartbeats_timely (peerCount : Z) (read rest : list (Arrival Z)) (w : Pulse) :
  replyCount w + Z.of_nat (length read) = peerCount →
  timely heartbeat_window (now w) read →
  Forall (λ a, succeeded (call a) = true) read →
  failures (await_heartbeats peerCount w (read ++ rest)).1 = failures w ∧
  timed_out (await_heartbeats peerCount w (read ++ rest)).1 = timed_out w ∧
  heard (await_heartbeats peerCount w (read ++ rest)).1 = heard w ++ (call <$> read).
Proof.
  revert w. induction read as [|a read IH]; intros w Hcount Htimely Hok.
  - cbn [app length] in *.
    assert (Hdone : (replyCount w <? peerCount) = false) by (apply Z.ltb_ge; lia).
    destruct rest; cbn [await_heartbeats]; rewrite Hdone; cbn; rewrite app_nil_r; auto.
  - cbn [app await_heartbeats]. cbn [length] in Hcount.
    assert (Hmore : (replyCount w <? peerCount) = true) by (apply Z.ltb_lt; lia).
    destruct Htimely as [Hat Htimely]. apply Z.ltb_lt in Hat.
    apply Forall_cons in Hok as [Ha Hok]. rewrite Hmore, Hat.
    destruct (IH (take_heartbeat w a)) as (H1 & H2 & H3).
    + cbn. lia.
    + exact Htimely.
    + exact Hok.
    + destruct (await_heartbeats peerCount (take_heartbeat w a) (read ++ rest)) as [w' t].
      cbn [fst] in *. rewrite H1, H2, H3. cbn. rewrite Ha, <- app_assoc. auto.
Qed.

(** X10.  A heartbeat round in which as many replies as [nodes] has
    entries arrive in time and without error changes nothing and reports
    nobody, whichever roles the replies carry. *)
Theorem BroadcastHeartbeat_all_answered (order order' : list (Z * Peer))
    (read rest : list (Arrival Z)) (role : Z) (c : Cluster) :
  Z.of_nat (length read) = len (nodes c) →
  timely heartbeat_window 0 read →
  Forall (λ a, succeeded (call a) = true) read →
  failures (heartbeat_replies c (read ++ rest)) = false ∧
  outcome (BroadcastHeartbeat order order' (read ++ rest) role c) = Returned tt ∧
  final (BroadcastHeartbeat order order' (read ++ rest) role c) = c ∧
  reported (events (BroadcastHeartbeat order order' (read ++ rest) role c)) = [].
Proof.
  intros Hlen Htimely Hok.
  destruct (await_heartbeats_timely (len (nodes c)) read rest initial_pulse)
    as (Hfail & _ & _); [cbn; lia|exact Htimely|exact Hok|].
  fold (heartbeat_replies c (read ++ rest)) in Hfail. cbn in Hfail.
  split; [exact Hfail|].
  rewrite BroadcastHeartbeat_run, Hfail. unfold outcome, final, events. cbn [fst snd].
  split; [reflexivity|]. split; [reflexivity|].
  destruct (await_heartbeats_silent c (read ++ rest)) as [_ Hrep].
  read_trace. rewrite Hrep. read_trace. reflexivity.
Qed.

(** X10 at three replies 400 ms apart: the round lasts 1.2 s and changes nothing. *)
Lemma BroadcastHeartbeat_all_answered_witness :
  final (BroadcastHeartbeat (map_to_list (nodes promised_cluster))
           (map_to_list (nodes promised_cluster))
           ([mkArrival 400 (mkCall 2 None); mkArrival 800 (mkCall 1 None);
             mkArrival 1200 (mkCall 3 None)] ++ [])
           2 promised_cluster) = promised_cluster.
Proof.
  apply (BroadcastHeartbeat_all_answered (map_to_list (nodes promised_cluster))
           (map_to_list (nodes promised_cluster))
           [mkArrival 400 (mkCall 2 None); mkArrival 800 (mkCall 1 None);
            mkArrival 1200 (mkCall 3 None)] [] 2 promised_cluster).
  - reflexivity.
  - cbn. repeat split; reflexivity.
  - repeat constructor.
Defined.

(** ** Heartbeat rounds only revoke *)

Lemma loses_skip_le (w : Pulse) (n : gmap Z Peer) :
  len (filter (loses_skip w) n) ≤ count_skipping n.
Proof.
  unfold count_skipping, skipping, len. apply inj_le. apply map_subseteq_size.
  apply map_filter_subseteq_ext. intros k p _ [_ Hp]. exact Hp.
Qed.

(** X11.  A heartbeat round never grants an exemption: a peer that needs
    no promise after the round is a peer that needed none before and is
    unchanged, and, when [skipPromiseCount] counted the peers that need no
    promise, it does not grow. *)
Theorem BroadcastHeartbeat_only_revokes (order order' : list (Z * Peer))
    (endpoint : list (Arrival Z)) (role : Z) (c : Cluster) :
  ranges (nodes c) order' →
  fits_int (nodes c) →
  count_consistent c →
  (∀ k p', nodes (final (BroadcastHeartbeat order order' endpoint role c)) !! k = Some p' →
     requirePromise p' = false → nodes c !! k = Some p') ∧
  skipPromiseCount (final (BroadcastHeartbeat order order' endpoint role c)) ≤
    skipPromiseCount c.
Proof.
  intros Hr Hfit Hc.
  destruct (failures (heartbeat_replies c endpoint)) eqn:Hfail.
  - assert (Hu : is_uint64 (skipPromiseCount c)).
    { rewrite Hc. pose proof (count_skipping_bounds (nodes c)).
      unfold fits_int in Hfit. pose proof max_int_lt_modulus. unfold is_uint64. lia. }
    destruct (BroadcastHeartbeat_failures order order' endpoint role c Hr Hu Hfail)
      as (Hlook & Hskip & _).
    split.
    + intros k p' Hk Hp'. rewrite Hlook in Hk.
      destruct (nodes c !! k) as [p|]; [|discriminate].
      cbn in Hk. injection Hk as <-. unfold lowered in *.
      destruct (was_received (heartbeat_replies c endpoint) k); [reflexivity|discriminate].
    + rewrite Hskip.
      pose proof (loses_skip_le (heartbeat_replies c endpoint) (nodes c)) as Hle.
      pose proof (len_filter_bounds (loses_skip (heartbeat_replies c endpoint)) (nodes c)).
      unfold count_consistent in Hc. unfold is_uint64 in Hu.
      rewrite wrap64_small; [lia|]. unfold is_uint64. lia.
  - rewrite BroadcastHeartbeat_run, Hfail. unfold final. cbn [fst snd].
    split; [auto|lia].
Qed.

(** X11 at the round in which only node 2 answers. *)
Lemma BroadcastHeartbeat_only_revokes_witness :
  skipPromiseCount (final (BroadcastHeartbeat (map_to_list (nodes sample_cluster))
                     (map_to_list (nodes sample_cluster)) sample_heartbeats 2 sample_cluster))
    ≤ 1.
Proof.
  apply (BroadcastHeartbeat_only_revokes (map_to_list (nodes sample_cluster))
           (map_to_list (nodes sample_cluster)) sample_heartbeats 2 sample_cluster).
  - unfold ranges. reflexivity.
  - vm_compute. discriminate.
  - reflexivity.
Defined.

(** ** How long a heartbeat round holds the lock *)

Lemma await_heartbeats_clock (peerCount : Z) (endpoint : list (Arrival Z)) (w : Pulse) :
  replyCount w ≤ peerCount →
  now (await_heartbeats peerCount w endpoint).1 ≤
    now w + heartbeat_window * (peerCount - replyCount w).
Proof.
  assert (HW : 0 < heartbeat_window) by reflexivity.
  revert w. induction endpoint as [|a rest IH]; intros w Hle.
  - cbn [await_heartbeats]. destruct (replyCount w <? peerCount) eqn:Hlt; cbn [fst].
    + apply Z.ltb_lt in Hlt. cbn [expire_heartbeat now]. nia.
    + nia.
  - cbn [await_heartbeats]. destruct (replyCount w <? peerCount) eqn:Hlt.
    + apply Z.ltb_lt in Hlt. destruct (at_ms a <? now w + heartbeat_window) eqn:Hat.
      * apply Z.ltb_lt in Hat. specialize (IH (take_heartbeat w a)).
        destruct (await_heartbeats peerCount (take_heartbeat w a) rest) as [w' t].
        cbn [fst take_heartbeat now replyCount] in *.
        assert (Hstep : now w' ≤ Z.max (now w) (at_ms a) +
                          heartbeat_window * (peerCount - (replyCount w + 1)))
          by (apply IH; lia).
        nia.
      * cbn [fst expire_heartbeat now]. nia.
    + cbn [fst]. nia.
Qed.

(** X12.  The reply loop of a heartbeat round, which runs with the lock
    held, ends at most 500 ms times the number of nodes after it began: its
    timer is started anew for every reply it waits for. *)
Theorem BroadcastHeartbeat_wait_bound (endpoint : list (Arrival Z)) (c : Cluster) :
  now (heartbeat_replies c endpoint) ≤ heartbeat_window * len (nodes c).
Proof.
  pose proof (await_heartbeats_clock (len (nodes c)) endpoint initial_pulse) as H.
  cbn [initial_pulse replyCount now] in H. unfold heartbeat_replies.
  assert (0 ≤ len (nodes c)) by (unfold len; lia). lia.
Qed.

(** ** [wrapReply] when the replies arrive in time *)

Lemma wrapReply_from_timely {R : Type} (peerCount count clock : Z)
    (read rest : list (Arrival R)) :
  is_uint64 peerCount →
  0 ≤ count →
  count + Z.of_nat (length read) = peerCount →
  timely reply_window clock read →
  wrapReply_from peerCount count clock (read ++ rest) =
  mkCollected (omap deliver read) read (clock_after clock read).
Proof.
  intros Hu. revert count clock. induction read as [|a read IH]; intros count clock Hc Hlen Ht.
  - cbn [app length] in *.
    assert (Hdone : (count <? peerCount) = false) by (apply Z.ltb_ge; lia).
    destruct rest; cbn [wrapReply_from]; rewrite Hdone; reflexivity.
  - cbn [app wrapReply_from]. cbn [length] in Hlen. destruct Ht as [Hat Ht].
    assert (Hmore : (count <? peerCount) = true) by (apply Z.ltb_lt; lia).
    apply Z.ltb_lt in Hat. rewrite Hmore, Hat.
    rewrite wrap64_small by (unfold is_uint64 in *; lia).
    rewrite IH by (exact Ht || lia).
    unfold forward_reply. cbn [forwarded taken finished].
    change (omap deliver (a :: read)) with
      (match deliver a with Some y => y :: omap deliver read | None => omap deliver read end).
    assert (Hd : deliver a =
                 if succeeded (call a) then Some (mkResponse (Reply (call a))) else None)
      by reflexivity.
    rewrite Hd. destruct (succeeded (call a)); reflexivity.
Qed.

(** X13.  When as many replies as [wrapReply] expects arrive, each before
    the timer of the wait for it runs out, [wrapReply] reads exactly those,
    forwards the ones without error in their order, and returns when the
    last of them is read, however late that is; replies behind them are
    left unread. *)
Theorem wrapReply_timely {R : Type} (peerCount : Z) (read rest : list (Arrival R)) :
  is_uint64 peerCount →
  Z.of_nat (length read) = peerCount →
  timely reply_window 0 read →
  wrapReply peerCount (read ++ rest) =
  mkCollected (omap deliver read) read (clock_after 0 read).
Proof.
  intros Hu Hlen Ht. unfold wrapReply.
  apply wrapReply_from_timely; [exact Hu|lia|lia|exact Ht].
Qed.

(** X13 at two expected replies 1.5 s apart, with a third behind them. *)
Lemma wrapReply_timely_witness :
  wrapReply 2 (late_replies ++ [mkArrival 3100 (mkCall "c" None)]) =
  mkCollected [mkResponse "a"; mkResponse "b"] late_replies 3000.
Proof.
  apply (wrapReply_timely 2 late_replies [mkArrival 3100 (mkCall "c" None)]).
  - split; vm_compute; [discriminate|reflexivity].
  - reflexivity.
  - cbn. repeat split; reflexivity.
Defined.

(** ** [ConstructCluster] again *)

Lemma build_peers_new (entries : list (Z * string)) (acc : gmap Z Peer) :
  (∀ k p, acc !! k = Some p → ∃ a, p = newPeer k a) →
  ∀ k p,
    foldl (λ peers entry, <[entry.1 := newPeer entry.1 entry.2]> peers) acc entries !! k
      = Some p →
    ∃ a, p = newPeer k a.
Proof.
  revert acc. induction entries as [|e rest IH]; intros acc Hacc k p; [apply Hacc|].
  cbn [foldl]. apply IH. intros k' p'.
  destruct (decide (k' = e.1)) as [->|Hne].
  - rewrite lookup_insert_eq. intros [= <-]. eauto.
  - rewrite lookup_insert_ne by congruence. apply Hacc.
Qed.

(** X14.  Whenever [ConstructCluster] succeeds, the role it returns is not
    0 and is the role of the new cluster (the given role, if that was not
    0), [skipPromiseCount] is 0, every peer is stored under its own role,
    has no client and requires a promise, and the address returned is the
    one stored for the returned role (empty when there is none). *)
Theorem ConstructCluster_success (h : Host) (order order' : list (Z * string)) (role : Z)
    (c : Cluster) (r : Z) (a : string) :
  ConstructCluster h order order' role = Ok (c, r, a) →
  r ≠ 0 ∧ cluster_roleId c = r ∧ (role ≠ 0 → r = role) ∧
  skipPromiseCount c = 0 ∧
  (∀ k p, nodes c !! k = Some p →
     roleId p = k ∧ comm p = None ∧ requirePromise p = true) ∧
  a = address (default zero_Peer (nodes c !! r)).
Proof.
  unfold ConstructCluster. destruct (RetrieveAddresses h) as [addresses|e]; [|discriminate].
  destruct (role =? 0) eqn:Hrole.
  - unfold detect. destruct (Hostname h) as [name|e]; [|discriminate].
    destruct (LookupIP h name) as [ipInfo|e]; [|discriminate].
    destruct (match_address h (first_ipv4 ipInfo) 0 order') as [r'|e]; [|discriminate].
    destruct (r' =? 0) eqn:Hr'; [discriminate|].
    intros [= <- <- <-]. cbn [cluster_roleId nodes skipPromiseCount].
    apply Z.eqb_neq in Hr'. apply Z.eqb_eq in Hrole.
    split; [exact Hr'|]. split; [reflexivity|]. split; [congruence|].
    split; [reflexivity|]. split; [|reflexivity].
    intros k p Hk. destruct (build_peers_new order ∅) with (k := k) (p := p) as [a' ->];
      [intros ? ? H; rewrite lookup_empty in H; discriminate|exact Hk|auto].
  - intros [= <- <- <-]. cbn [cluster_roleId nodes skipPromiseCount].
    apply Z.eqb_neq in Hrole.
    split; [exact Hrole|]. split; [reflexivity|]. split; [reflexivity|].
    split; [reflexivity|]. split; [|reflexivity].
    intros k p Hk. destruct (build_peers_new order ∅) with (k := k) (p := p) as [a' ->];
      [intros ? ? H; rewrite lookup_empty in H; discriminate|exact Hk|auto].
Qed.

(** X14 at the machine of node 2. *)
Lemma ConstructCluster_success_witness :
  (2 : Z) ≠ 0 ∧ cluster_roleId fresh_cluster = 2 ∧ skipPromiseCount fresh_cluster = 0.
Proof.
  assert (Hok : ConstructCluster sample_host (map_to_list sample_addresses)
                  (map_to_list sample_addresses) 0 = Ok (fresh_cluster, 2, "10.0.0.2:7001"))
    by (vm_compute; reflexivity).
  destruct (ConstructCluster_success sample_host (map_to_list sample_addresses)
              (map_to_list sample_addresses) 0 fresh_cluster 2 "10.0.0.2:7001" Hok)
    as (H1 & H2 & _ & H3 & _).
  auto.
Defined.

Lemma match_address_sound (h : Host) (thisAddress : string) (role id : Z)
    (entries : list (Z * string)) :
  match_address h thisAddress role entries = Ok id →
  id = role ∨ ∃ e port, e ∈ entries ∧ e.1 = id ∧ SplitHostPort h e.2 = Ok (thisAddress, port).
Proof.
  induction entries as [|e rest IH]; cbn [match_address].
  - intros [= <-]. left. reflexivity.
  - destruct (SplitHostPort h e.2) as [[ip port]|err] eqn:Hsplit; [|discriminate].
    destruct (String.eqb thisAddress ip) eqn:Heq.
    + apply String.eqb_eq in Heq. subst ip. intros [= <-].
      right. exists e, port. split; [left|auto].
    + intros Hrest. destruct (IH Hrest) as [->|(e' & port' & Hin & Hid & Hs)]; [left; reflexivity|].
      right. exists e', port'. split; [right; exact Hin|auto].
Qed.

(** X15.  When [ConstructCluster] detects the role itself and succeeds,
    the role it returns is a role of the address table, the address it
    returns is the one the table holds for that role, and the host part of
    that address is the detected local address -- whatever the other
    addresses of the table look like. *)
Theorem ConstructCluster_detected (h : Host) (order order' : list (Z * string))
    (addresses : gmap Z string) (name : string) (ipInfo : list IP)
    (c : Cluster) (r : Z) (a : string) :
  RetrieveAddresses h = Ok addresses →
  ranges addresses order →
  ranges addresses order' →
  Hostname h = Ok name →
  LookupIP h name = Ok ipInfo →
  ConstructCluster h order order' 0 = Ok (c, r, a) →
  addresses !! r = Some a ∧ matches h (first_ipv4 ipInfo) a.
Proof.
  intros Hdisk Hr Hr' Hname Hips. unfold ConstructCluster. rewrite Hdisk. cbn [Z.eqb].
  unfold detect. rewrite Hname, Hips.
  destruct (match_address h (first_ipv4 ipInfo) 0 order') as [r'|e] eqn:Hmatch; [|discriminate].
  destruct (r' =? 0) eqn:Hr0; [discriminate|]. apply Z.eqb_neq in Hr0.
  intros [= <- <- <-]. cbn [cluster_roleId nodes].
  apply match_address_sound in Hmatch as [->|(e & port & Hin & Hid & Hsplit)]; [contradiction|].
  destruct e as [k a']. cbn in Hid, Hsplit. subst k.
  apply (ranges_elem_of _ _ _ _ Hr') in Hin.
  rewrite (build_peers_lookup _ _ _ Hr), Hin. cbn.
  split; [reflexivity|]. exists port. exact Hsplit.
Qed.

(** X15 at the machine of node 2. *)
Lemma ConstructCluster_detected_witness :
  sample_addresses !! 2 = Some "10.0.0.2:7001" ∧ matches sample_host "10.0.0.2" "10.0.0.2:7001".
Proof.
  assert (Hr : ranges sample_addresses (map_to_list sample_addresses))
    by (unfold ranges; reflexivity).
  assert (Hok : ConstructCluster sample_host (map_to_list sample_addresses)
                  (map_to_list sample_addresses) 0 = Ok (fresh_cluster, 2, "10.0.0.2:7001"))
    by (vm_compute; reflexivity).
  exact (ConstructCluster_detected sample_host (map_to_list sample_addresses)
           (map_to_list sample_addresses) sample_addresses "node2"
           [mkIP false "fe80::1"; mkIP true "10.0.0.2"] fresh_cluster 2 "10.0.0.2:7001"
           eq_refl Hr Hr eq_refl eq_refl Hok).
Defined.

(** X16.  An explicit role that the address table does not hold is
    accepted: [ConstructCluster] succeeds and returns the empty address,
    and [Listen] on that cluster asks [net.Listen] for the empty
    address. *)
Theorem ConstructCluster_unknown_role (h : Host) (order order' : list (Z * string))
    (addresses : gmap Z string) (role : Z) (listening : result unit) :
  RetrieveAddresses h = Ok addresses →
  ranges addresses order →
  role ≠ 0 →
  addresses !! role = None →
  ConstructCluster h order order' role = Ok (mkCluster role (build_peers order) 0, role, "") ∧
  EvNetListen "" ∈ events (Listen listening (mkCluster role (build_peers order) 0)).
Proof.
  intros Hdisk Hr Hrole Hnone.
  assert (Hlook : build_peers order !! role = None)
    by (rewrite (build_peers_lookup _ _ _ Hr), Hnone; reflexivity).
  split.
  - unfold ConstructCluster. rewrite Hdisk. apply Z.eqb_neq in Hrole. rewrite Hrole.
    cbn [cluster_roleId nodes]. rewrite Hlook. reflexivity.
  - unfold Listen, lock, unlock, defer. run_block. cbn [cluster_roleId nodes].
    rewrite Hlook. cbn [default from_option address zero_Peer].
    destruct listening; cbn; right; right; left.
Qed.

(** X16 at the explicit role 9, which the sample table does not hold. *)
Lemma ConstructCluster_unknown_role_witness :
  ConstructCluster sample_host (map_to_list sample_addresses) (map_to_list sample_addresses) 9 =
    Ok (mkCluster 9 (build_peers (map_to_list sample_addresses)) 0, 9, "").
Proof.
  apply (ConstructCluster_unknown_role sample_host (map_to_list sample_addresses)
           (map_to_list sample_addresses) sample_addresses 9 (Ok tt)).
  - reflexivity.
  - unfold ranges. reflexivity.
  - discriminate.
  - reflexivity.
Defined.

(** ** Methods that only read *)


(** ** A heartbeat round followed by a Prepare broadcast *)

(** X18.  After a heartbeat round with failures in which no node of the
    cluster was heard, [skipPromiseCount] is 0 and the next
    [BroadcastPrepareRequest] is not skipped: it calls every peer that has
    a client, those that needed no promise before the round included. *)
Theorem BroadcastPrepareRequest_after_silence {PrepareReq : Type}
    (order order' order2 : list (Z * Peer)) (endpoint : list (Arrival Z)) (role : Z)
    (request : PrepareReq) (c : Cluster) :
  ranges (nodes c) order' →
  fits_int (nodes c) →
  count_consistent c →
  failures (heartbeat_replies c endpoint) = true →
  (∀ k, is_Some (nodes c !! k) → was_received (heartbeat_replies c endpoint) k = false) →
  ranges (nodes (final (BroadcastHeartbeat order order' endpoint role c))) order2 →
  skipPromiseCount (final (BroadcastHeartbeat order order' endpoint role c)) = 0 ∧
  (∀ k via m,
     (k, via, m) ∈ calls (events (BroadcastPrepareRequest order2 request
                            (final (BroadcastHeartbeat order order' endpoint role c)))) ↔
     m = "AcceptorRole.Prepare" ∧ ∃ p, nodes c !! k = Some p ∧ comm p = Some via).
Proof.
  intros Hr Hfit Hc Hfail Hsilent Hr2.
  assert (Hu : is_uint64 (skipPromiseCount c)).
  { rewrite Hc. pose proof (count_skipping_bounds (nodes c)).
    unfold fits_int in Hfit. pose proof max_int_lt_modulus. unfold is_uint64. lia. }
  destruct (BroadcastHeartbeat_failures order order' endpoint role c Hr Hu Hfail)
    as (Hlook & _).
  destruct (BroadcastHeartbeat_consistent order order' endpoint role c Hr Hfit Hc)
    as (Hc' & Hfit' & _).
  set (c' := final (BroadcastHeartbeat order order' endpoint role c)) in *.
  assert (Hpeer : ∀ k p', nodes c' !! k = Some p' ↔
            ∃ p, nodes c !! k = Some p ∧ p' = with_requirePromise true p).
  { intros k p'. rewrite Hlook. destruct (nodes c !! k) as [p|] eqn:Hk; cbn.
    - unfold lowered. rewrite (Hsilent k) by eauto. split.
      + intros [= <-]. eauto.
      + intros [p0 [[= <-] ->]]. reflexivity.
    - split; [discriminate|]. intros [p0 [Habs _]]. discriminate. }
  assert (Hzero : skipPromiseCount c' = 0).
  { rewrite Hc'. apply len_filter_none. intros k p' Hk Hp'. cbn in Hp'.
    apply Hpeer in Hk as [p [_ ->]]. discriminate. }
  split; [exact Hzero|].
  rewrite (BroadcastPrepareRequest_run c' order2 request Hr2 Hfit').
  assert (Hbelow : (skipPromiseCount c' <? len (nodes c') / 2 + 1) = true).
  { apply Z.ltb_lt. rewrite Hzero.
    assert (0 ≤ len (nodes c') / 2) by (apply Z.div_pos; unfold len; lia). lia. }
  cbn zeta. unfold events. cbn [snd]. rewrite calls_prepare_trace, Hbelow.
  intros k via m. rewrite elem_of_sends. unfold wants_prepare. cbn [snd]. split.
  - intros [-> [p' [Hin [_ Hcomm]]]]. split; [reflexivity|].
    apply (ranges_elem_of _ _ _ _ Hr2) in Hin. apply Hpeer in Hin as [p [Hk ->]].
    exists p. auto.
  - intros [-> [p [Hk Hcomm]]]. split; [reflexivity|].
    exists (with_requirePromise true p). split; [|auto].
    apply (ranges_elem_of _ _ _ _ Hr2). apply Hpeer. eauto.
Qed.

(** X18 at a round without any reply, after two of three nodes had promised. *)
Lemma BroadcastPrepareRequest_after_silence_witness :
  skipPromiseCount (final (BroadcastHeartbeat (map_to_list (nodes promised_cluster))
                     (map_to_list (nodes promised_cluster)) [] 2 promised_cluster)) = 0.
Proof.
  apply (BroadcastPrepareRequest_after_silence
           (map_to_list (nodes promised_cluster)) (map_to_list (nodes promised_cluster))
           (map_to_list (nodes (final (BroadcastHeartbeat (map_to_list (nodes promised_cluster))
                     (map_to_list (nodes promised_cluster)) [] 2 promised_cluster))))
           [] 2 tt promised_cluster).
  - unfold ranges. reflexivity.
  - vm_compute. discriminate.
  - reflexivity.
  - reflexivity.
  - intros k _. reflexivity.
  - unfold ranges. reflexivity.
Defined.

(** ** [Connect] followed by a Proposal broadcast *)

Lemma sends_all (cond : Z * Peer → bool) (m : string) (entries : list (Z * Peer)) :
  Forall (λ e, cond e = true ∧ is_Some (comm e.2)) entries →
  length (sends cond m entries) = length entries.
Proof.
  induction 1 as [|e rest [Hcond [via Hvia]] _ IH]; [reflexivity|].
  rewrite sends_cons, Hcond, Hvia. cbn. rewrite IH. reflexivity.
Qed.

(** X19.  After a [Connect] in which every dial succeeds, a proposal
    broadcast with an empty filter calls every node of the cluster -- the
    local node too, which [Connect] dials like any other -- and returns the
    number of nodes. *)
Theorem BroadcastProposalRequest_after_Connect {ProposalReq : Type}
    (order order2 : list (Z * Peer)) (dial : string → option Client)
    (request : ProposalReq) (c : Cluster) :
  ranges (nodes c) order →
  fits_int (nodes c) →
  (∀ k p, nodes c !! k = Some p → is_Some (dial (address p))) →
  ranges (nodes (final (Connect order dial c))) order2 →
  outcome (BroadcastProposalRequest order2 request ∅ (final (Connect order dial c))) =
    Returned (len (nodes c)) ∧
  (∀ k, is_Some (nodes c !! k) →
     ∃ via, (k, via, "AcceptorRole.Accept") ∈
       calls (events (BroadcastProposalRequest order2 request ∅
                        (final (Connect order dial c))))).
Proof.
  intros Hr Hfit Hdial Hr2.
  pose proof (Connect_nodes order dial c Hr) as Hnodes.
  destruct (redialed_flags dial (nodes c)) as [_ Hlen].
  set (c' := final (Connect order dial c)) in *.
  assert (Hfit' : fits_int (nodes c')) by (unfold fits_int; rewrite Hnodes, Hlen; exact Hfit).
  assert (Hclient : ∀ k p', nodes c' !! k = Some p' → is_Some (comm p')).
  { intros k p'. rewrite Hnodes, lookup_fmap.
    destruct (nodes c !! k) as [p|] eqn:Hk; [|discriminate].
    cbn. intros [= <-]. unfold redialed. destruct (Hdial k p Hk) as [conn ->]. cbn. eauto. }
  rewrite (BroadcastProposalRequest_run c' order2 request ∅ Hr2 Hfit').
  cbn zeta. unfold outcome, events. cbn [fst snd]. split.
  - rewrite sends_all.
    + rewrite (ranges_length _ _ Hr2), Hnodes, Hlen. reflexivity.
    + apply Forall_forall. intros [k p'] Hin. cbn.
      split; [unfold unfiltered, filtered; rewrite lookup_empty; reflexivity|].
      apply (Hclient k). apply (ranges_elem_of _ _ _ _ Hr2). exact Hin.
  - intros k [p Hk].
    assert (Hk' : nodes c' !! k = Some (redialed dial p))
      by (rewrite Hnodes, lookup_fmap, Hk; reflexivity).
    destruct (Hclient k _ Hk') as [via Hvia]. exists via.
    read_trace. apply elem_of_sends. split; [reflexivity|].
    exists (redialed dial p). split; [apply (ranges_elem_of _ _ _ _ Hr2); exact Hk'|].
    split; [unfold unfiltered, filtered; rewrite lookup_empty; reflexivity|exact Hvia].
Qed.

(** X19 at the new cluster, when every dial succeeds. *)
Lemma BroadcastProposalRequest_after_Connect_witness :
  outcome (BroadcastProposalRequest
             (map_to_list (nodes (final (Connect (map_to_list (nodes fresh_cluster))
                                           (λ _, Some 5%nat) fresh_cluster))))
             tt ∅
             (final (Connect (map_to_list (nodes fresh_cluster)) (λ _, Some 5%nat)
                       fresh_cluster))) = Returned 3.
Proof.
  destruct (BroadcastProposalRequest_after_Connect
              (map_to_list (nodes fresh_cluster))
              (map_to_list (nodes (final (Connect (map_to_list (nodes fresh_cluster))
                                            (λ _, Some 5%nat) fresh_cluster))))
              (λ _, Some 5%nat) tt fresh_cluster) as [Hcount _].
  - unfold ranges. reflexivity.
  - vm_compute. discriminate.
  - intros k p _. eexists. reflexivity.
  - unfold ranges. reflexivity.
  - rewrite Hcount. reflexivity.
Defined.

(** ** A heartbeat round before any connection *)

Lemma sends_none (cond : Z * Peer → bool) (m : string) (entries : list (Z * Peer)) :
  Forall (λ e, comm e.2 = None) entries → sends cond m entries = [].
Proof.
  induction 1 as [|e rest Hnil _ IH]; [reflexivity|].
  rewrite sends_cons, Hnil, IH. destruct (cond e); reflexivity.
Qed.

(** X20.  In a cluster in which no peer has a client yet, a heartbeat
    round sends nothing, waits one window of 500 ms, and then demotes every
    node and sends every role, the local one included, on
    [registerBadConnection]. *)
Theorem BroadcastHeartbeat_without_clients (order order' : list (Z * Peer)) (role : Z)
    (c : Cluster) :
  ranges (nodes c) order →
  ranges (nodes c) order' →
  is_uint64 (skipPromiseCount c) →
  0 < len (nodes c) →
  (∀ k p, nodes c !! k = Some p → comm p = None) →
  calls (events (BroadcastHeartbeat order order' [] role c)) = [] ∧
  now (heartbeat_replies c []) = heartbeat_window ∧
  (∀ k, k ∈ reported (events (BroadcastHeartbeat order order' [] role c)) ↔
        is_Some (nodes c !! k)) ∧
  (∀ k p, nodes c !! k = Some p →
     nodes (final (BroadcastHeartbeat order order' [] role c)) !! k =
       Some (with_requirePromise true p)).
Proof.
  intros Hr Hr' Hu Hpos Hnone.
  assert (Hpulse : heartbeat_replies c [] = expire_heartbeat (len (nodes c)) initial_pulse).
  { unfold heartbeat_replies. cbn [await_heartbeats initial_pulse replyCount].
    apply Z.ltb_lt in Hpos. rewrite Hpos. reflexivity. }
  assert (Hfail : failures (heartbeat_replies c []) = true) by (rewrite Hpulse; reflexivity).
  assert (Hsilent : ∀ k, was_received (heartbeat_replies c []) k = false).
  { intros k. rewrite Hpulse. unfold was_received. cbn. rewrite lookup_empty. reflexivity. }
  destruct (BroadcastHeartbeat_failures order order' [] role c Hr' Hu Hfail)
    as (Hlook & _ & Hrep & _).
  split.
  - rewrite BroadcastHeartbeat_calls. apply sends_none.
    apply Forall_forall. intros [k p] Hin. cbn.
    apply (Hnone k). apply (ranges_elem_of _ _ _ _ Hr). exact Hin.
  - split; [rewrite Hpulse; reflexivity|]. split.
    + intros k. rewrite Hrep. split; [tauto|]. intros Hk. split; [exact Hk|apply Hsilent].
    + intros k p Hk. rewrite Hlook, Hk. unfold lowered. rewrite Hsilent. reflexivity.
Qed.

(** X20 at the new cluster. *)
Lemma BroadcastHeartbeat_without_clients_witness :
  calls (events (BroadcastHeartbeat (map_to_list (nodes fresh_cluster))
                   (map_to_list (nodes fresh_cluster)) [] 2 fresh_cluster)) = [] ∧
  2 ∈ reported (events (BroadcastHeartbeat (map_to_list (nodes fresh_cluster))
                   (map_to_list (nodes fresh_cluster)) [] 2 fresh_cluster)).
Proof.
  destruct (BroadcastHeartbeat_without_clients (map_to_list (nodes fresh_cluster))
              (map_to_list (nodes fresh_cluster)) 2 fresh_cluster)
    as (Hcalls & _ & Hrep & _).
  - unfold ranges. reflexivity.
  - unfold ranges. reflexivity.
  - split; vm_compute; [discriminate|reflexivity].
  - reflexivity.
  - intros k p Hk.
    assert (Hin : (k, p) ∈ map_to_list (nodes fresh_cluster))
      by (apply elem_of_map_to_list; exact Hk).
    vm_compute in Hin.
    repeat (apply elem_of_cons in Hin as [[= -> ->]|Hin]; [reflexivity|]).
    inversion Hin.
  - split; [exact Hcalls|]. apply Hrep. eexists. reflexivity.
Defined.

(** ** [establishConnection] for a role that is not there *)



(** ** The calls of a broadcast fit its channel *)

(** X22.  A broadcast never makes more calls than [nodes] has entries,
    which is the capacity it gives the [endpoint] channel on which the
    calls complete: no completion finds that channel full. *)
Theorem calls_fit_endpoint {PrepareReq ProposalReq : Type} (order order' : list (Z * Peer))
    (prepare_request : PrepareReq) (proposal_request : ProposalReq) (filter : gmap Z bool)
    (endpoint : list (Arrival Z)) (role : Z) (c : Cluster) :
  ranges (nodes c) order →
  Z.of_nat (length (calls (events (BroadcastPrepareRequest order prepare_request c))))
    ≤ len (nodes c) ∧
  Z.of_nat (length (calls (events (BroadcastProposalRequest order proposal_request filter c))))
    ≤ len (nodes c) ∧
  Z.of_nat (length (calls (events (BroadcastHeartbeat order order' endpoint role c))))
    ≤ len (nodes c).
Proof.
  intros Hr. pose proof (ranges_length _ _ Hr) as Hlen.
  rewrite BroadcastPrepareRequest_steps, BroadcastProposalRequest_steps,
    BroadcastHeartbeat_calls.
  cbn zeta. unfold events. cbn [snd].
  split; [|split].
  - destruct (skipPromiseCount c <? wrap64 (len (nodes c) / 2 + 1)); read_trace.
    + pose proof (sends_length wants_prepare "AcceptorRole.Prepare" order). lia.
    + cbn. lia.
  - read_trace. pose proof (sends_length (unfiltered filter) "AcceptorRole.Accept" order). lia.
  - pose proof (sends_length (λ _, true) "ProposerRole.Heartbeat" order). lia.
Qed.

(** X22 at the sample cluster. *)
Lemma calls_fit_endpoint_witness :
  Z.of_nat (length (calls (events (BroadcastProposalRequest
                                     (map_to_list (nodes sample_cluster)) tt ∅ sample_cluster))))
    ≤ 3.
Proof.
  apply (calls_fit_endpoint (map_to_list (nodes sample_cluster))
           (map_to_list (nodes sample_cluster)) tt tt ∅ [] 2 sample_cluster).
  unfold ranges. reflexivity.
Defined.

(** ** Detecting the role: which entry decides *)

Lemma first_ipv4_none (ipInfo : list IP) :
  Forall (λ ip, To4 ip = false) ipInfo → first_ipv4 ipInfo = "".
Proof. induction 1 as [|ip rest Hip _ IH]; [reflexivity|]. cbn. rewrite Hip. exact IH. Qed.

(** X23.  On a machine whose name resolves to no IPv4 address the detected
    address is empty, and construction with role 0 fails with "Could not
    find address  in peers table" when every address of the table has a
    host. *)
Theorem ConstructCluster_without_ipv4 (h : Host) (order order' : list (Z * string))
    (addresses : gmap Z string) (name : string) (ipInfo : list IP) :
  RetrieveAddresses h = Ok addresses →
  ranges addresses order' →
  Hostname h = Ok name →
  LookupIP h name = Ok ipInfo →
  Forall (λ ip, To4 ip = false) ipInfo →
  (∀ k a, addresses !! k = Some a →
     ∃ ip port, SplitHostPort h a = Ok (ip, port) ∧ ip ≠ "") →
  ConstructCluster h order order' 0 =
    Err (Errorf "Could not find address  in peers table").
Proof.
  intros Hdisk Hr' Hname Hips Hv6 Hhosts. unfold ConstructCluster. rewrite Hdisk.
  cbn [Z.eqb]. unfold detect. rewrite Hname, Hips, (first_ipv4_none _ Hv6).
  rewrite match_address_none; [reflexivity|].
  intros [k a] Hin. apply (ranges_elem_of _ _ _ _ Hr') in Hin. exact (Hhosts k a Hin).
Qed.

(** X23 at a machine with a link-local IPv6 address only. *)
Lemma ConstructCluster_without_ipv4_witness :
  ConstructCluster (mkHost (Ok sample_addresses) (Ok "node2")
                      (λ _, Ok [mkIP false "fe80::1"]) net_SplitHostPort)
    (map_to_list sample_addresses) (map_to_list sample_addresses) 0 =
    Err (Errorf "Could not find address  in peers table").
Proof.
  apply (ConstructCluster_without_ipv4 _ _ _ sample_addresses "node2" [mkIP false "fe80::1"]).
  - reflexivity.
  - unfold ranges. reflexivity.
  - reflexivity.
  - reflexivity.
  - repeat constructor.
  - intros k a Hk.
    assert (Hin : (k, a) ∈ map_to_list sample_addresses)
      by (apply elem_of_map_to_list; exact Hk).
    vm_compute in Hin.
    repeat (apply elem_of_cons in Hin as [[= -> ->]|Hin];
            [eexists _, _; split; [reflexivity|discriminate]|]).
    inversion Hin.
Defined.

Lemma match_address_first (h : Host) (thisAddress : string) (role : Z)
    (pre post : list (Z * string)) (e : Z * string) :
  Forall (λ x, ∃ ip port, SplitHostPort h x.2 = Ok (ip, port) ∧ ip ≠ thisAddress) pre →
  match_address h thisAddress role (pre ++ e :: post) =
  match SplitHostPort h e.2 with
  | Err err => Err err
  | Ok (ip, _) =>
      if String.eqb thisAddress ip then Ok e.1 else match_address h thisAddress role post
  end.
Proof.
  induction 1 as [|x pre (ip & port & Hsplit & Hne) _ IH]; [reflexivity|].
  cbn [app match_address]. rewrite Hsplit.
  assert (Heq : String.eqb thisAddress ip = false) by (apply String.eqb_neq; congruence).
  rewrite Heq. exact IH.
Qed.

(** X24.  With role 0, the first entry the loop over the address table
    meets that either does not split into host and port or has the
    detected address as host decides: in the first case construction fails
    with the error of [net.SplitHostPort], in the second it takes that
    entry's role (if not 0), whatever comes behind it -- so a table with
    two entries on the local machine yields either role, as the loop
    happens to run. *)
Theorem ConstructCluster_first_entry (h : Host) (order pre post : list (Z * string))
    (e : Z * string) (addresses : gmap Z string) (name : string) (ipInfo : list IP) :
  RetrieveAddresses h = Ok addresses →
  Hostname h = Ok name →
  LookupIP h name = Ok ipInfo →
  Forall (λ x, ∃ ip port, SplitHostPort h x.2 = Ok (ip, port) ∧ ip ≠ first_ipv4 ipInfo) pre →
  (∀ err, SplitHostPort h e.2 = Err err →
     ConstructCluster h order (pre ++ e :: post) 0 = Err err) ∧
  (∀ port, SplitHostPort h e.2 = Ok (first_ipv4 ipInfo, port) → e.1 ≠ 0 →
     ConstructCluster h order (pre ++ e :: post) 0 =
     Ok (mkCluster e.1 (build_peers order) 0, e.1,
         address (default zero_Peer (build_peers order !! e.1)))).
Proof.
  intros Hdisk Hname Hips Hpre. unfold ConstructCluster. rewrite Hdisk. cbn [Z.eqb].
  unfold detect. rewrite Hname, Hips, (match_address_first _ _ _ _ _ _ Hpre).
  split.
  - intros err ->. reflexivity.
  - intros port -> Hrole. rewrite String.eqb_refl.
    apply Z.eqb_neq in Hrole. rewrite Hrole. reflexivity.
Qed.

(** X24 at two nodes on one machine: either role is found, by the order of the loop. *)
Lemma ConstructCluster_first_entry_witness :
  (∃ c a, ConstructCluster shared_host [(1, "10.0.0.2:7001"); (2, "10.0.0.2:7002")]
            ([] ++ (1, "10.0.0.2:7001") :: [(2, "10.0.0.2:7002")]) 0 = Ok (c, 1, a)) ∧
  (∃ c a, ConstructCluster shared_host [(1, "10.0.0.2:7001"); (2, "10.0.0.2:7002")]
            ([] ++ (2, "10.0.0.2:7002") :: [(1, "10.0.0.2:7001")]) 0 = Ok (c, 2, a)).
Proof.
  split.
  - destruct (ConstructCluster_first_entry shared_host
                [(1, "10.0.0.2:7001"); (2, "10.0.0.2:7002")] [] [(2, "10.0.0.2:7002")]
                (1, "10.0.0.2:7001") _ "node" [mkIP true "10.0.0.2"] eq_refl eq_refl eq_refl)
      as [_ Hfound]; [constructor|].
    eexists _, _. apply (Hfound "7001"); [reflexivity|discriminate].
  - destruct (ConstructCluster_first_entry shared_host
                [(1, "10.0.0.2:7001"); (2, "10.0.0.2:7002")] [] [(1, "10.0.0.2:7001")]
                (2, "10.0.0.2:7002") _ "node" [mkIP true "10.0.0.2"] eq_refl eq_refl eq_refl)
      as [_ Hfound]; [constructor|].
    eexists _, _. apply (Hfound "7002"); [reflexivity|discriminate].
Defined.

(** ** From a heartbeat round to the repairs *)

Lemma manage_fresh (establishing : gmap Z bool) (roles : list Z) :
  NoDup roles →
  Forall (λ r, default false (establishing !! r) = false) roles →
  (manage establishing (BadConnection <$> roles)).2 = EvSpawn "establishConnection" <$> roles.
Proof.
  intros Hnd. revert establishing. induction Hnd as [|r roles Hfresh Hnd IH];
    intros establishing Hclear; [reflexivity|].
  apply Forall_cons in Hclear as [Hr Hclear].
  cbn [fmap list_fmap manage connectionManager]. rewrite Hr. cbn [negb].
  specialize (IH (<[r := true]> establishing)).
  destruct (manage (<[r := true]> establishing) (BadConnection <$> roles)) as [est t].
  cbn [snd] in *. rewrite IH; [reflexivity|].
  apply Forall_forall. intros r' Hin. rewrite lookup_insert_ne by (intros ->; contradiction).
  rewrite Forall_forall in Hclear. apply Hclear. exact Hin.
Qed.

(** X25.  When [connectionManager], with no repair under way, reads the
    roles that a heartbeat round has sent on [registerBadConnection], it
    starts one [establishConnection] for each of them, in that order. *)
Theorem heartbeat_starts_repairs (order order' : list (Z * Peer))
    (endpoint : list (Arrival Z)) (role : Z) (c : Cluster) :
  ranges (nodes c) order' →
  is_uint64 (skipPromiseCount c) →
  (manage ∅ (BadConnection <$>
               reported (events (BroadcastHeartbeat order order' endpoint role c)))).2 =
  EvSpawn "establishConnection" <$>
    reported (events (BroadcastHeartbeat order order' endpoint role c)).
Proof.
  intros Hr Hu. apply manage_fresh.
  - destruct (failures (heartbeat_replies c endpoint)) eqn:Hfail.
    + apply (BroadcastHeartbeat_failures order order' endpoint role c Hr Hu Hfail).
    + rewrite BroadcastHeartbeat_run, Hfail. unfold events. cbn [snd].
      destruct (await_heartbeats_silent c endpoint) as [_ Hrep].
      read_trace. rewrite Hrep. read_trace. constructor.
  - apply Forall_forall. intros r _. rewrite lookup_empty. reflexivity.
Qed.

(** X25 at the round in which only node 2 answers. *)
Lemma heartbeat_starts_repairs_witness :
  (manage ∅ (BadConnection <$>
               reported (events (BroadcastHeartbeat (map_to_list (nodes sample_cluster))
                  (map_to_list (nodes sample_cluster)) sample_heartbeats 2 sample_cluster)))).2 =
  [EvSpawn "establishConnection" 3; EvSpawn "establishConnection" 1].
Proof.
  rewrite (heartbeat_starts_repairs (map_to_list (nodes sample_cluster))
             (map_to_list (nodes sample_cluster)) sample_heartbeats 2 sample_cluster).
  - reflexivity.
  - unfold ranges. reflexivity.
  - split; vm_compute; [discriminate|reflexivity].
Defined.
